(** * prepare-data.py: a shallow embedding of the curricula cleaning pipeline

    The script reads a table of grading records with pandas and passes it
    through a fixed sequence of stages.  The embedding follows the script
    stage by stage:

    - a cell is a [value]: missing ([NaN]), a text ([Str]) or an integer
      ([Int], only the ATTEMPT column holds integers); every cell read from
      the CSV file is carried as its text, so identifiers and credits are
      compared as texts;
    - a row is a finite map from column names to cells, a [DataFrame] is the
      list of its column names with the list of its rows, in row order;
    - a statement that can raise returns a [result]; an exception aborts the
      whole run, as it does in the script;
    - texts are Rocq strings, a text being read as its UTF-8 bytes.  The
      functions of [Text] that look inside a text ([upper],
      [lstrip_digits], [unidecode], [strip], the date parsers) are the
      ASCII restrictions of the Python ones: on a text whose characters are
      all below 128 they compute what Python computes, and the stages of
      the script are written with them.  What [upper], the digit pattern
      and [unidecode] do to the other characters is in the Unicode tables
      of Python and of the package unidecode, not in the script: a
      [library] stands for these three calls, [normalize_text_in] is the
      normalizer over a library, and the statements about texts of any
      kind are made for every [lawful] library;
    - the pandas operations ([value_counts], [isin], [groupby], [cumcount],
      [sort_values], [drop_duplicates], [to_datetime]) are modelled with the
      behaviour of pandas 2.x, the version line on which the script runs as
      written (its grouped [apply] reads the grouping columns and then
      resets the index that carries the group keys). *)

From Stdlib Require Import ZArith NArith Ascii String Lia Bool.
From Stdlib Require Import DecimalString DecimalPos DecimalZ Sorted.
From stdpp Require Import base tactics option list strings gmap.

#[local] Set Warnings "-clear-no-such-hyp".
Local Open Scope Z_scope.

(** ** Characters and texts *)

Module Text.

Definition ord (c : ascii) : Z := Z.of_N (N_of_ascii c).
Definition chr (z : Z) : ascii := ascii_of_N (Z.to_N z).

Definition is_ascii (c : ascii) : bool := ord c <? 128.
Definition is_digit (c : ascii) : bool := (48 <=? ord c) && (ord c <=? 57).
Definition is_lower (c : ascii) : bool := (97 <=? ord c) && (ord c <=? 122).

(** [str.isspace] on ASCII: TAB, LF, VT, FF, CR, the four separators
    FS, GS, RS, US and the space. *)
Definition is_space (c : ascii) : bool :=
  ((9 <=? ord c) && (ord c <=? 13)) || ((28 <=? ord c) && (ord c <=? 32)).

Definition upper_char (c : ascii) : ascii :=
  if is_lower c then chr (ord c - 32) else c.

Fixpoint all_chars (p : ascii → bool) (s : string) : bool :=
  match s with
  | EmptyString => true
  | String c s' => p c && all_chars p s'
  end.

(** [text.upper()] on ASCII text *)
Fixpoint upper (s : string) : string :=
  match s with
  | EmptyString => EmptyString
  | String c s' => String (upper_char c) (upper s')
  end.

(** [re.sub(r"^\d+", "", text)] on ASCII text: without the MULTILINE flag
    the anchor matches at the start of the text only, so the one greedy run
    of leading digits is removed. *)
Fixpoint lstrip_digits (s : string) : string :=
  match s with
  | EmptyString => EmptyString
  | String c s' => if is_digit c then lstrip_digits s' else s
  end.

(** [unidecode(text)] on ASCII text: the library returns a text that
    encodes as ASCII unchanged. *)
Definition unidecode (s : string) : string := s.

Fixpoint lstrip (s : string) : string :=
  match s with
  | EmptyString => EmptyString
  | String c s' => if is_space c then lstrip s' else s
  end.

Fixpoint rstrip (s : string) : string :=
  match s with
  | EmptyString => EmptyString
  | String c s' =>
      match rstrip s' with
      | EmptyString => if is_space c then EmptyString else String c EmptyString
      | t => String c t
      end
  end.

(** [text.strip()] *)
Definition strip (s : string) : string := rstrip (lstrip s).

(** [sub in s] for two texts. *)
Fixpoint contains (sub s : string) : bool :=
  String.prefix sub s ||
  match s with
  | EmptyString => false
  | String _ s' => contains sub s'
  end.

Definition starts_with_digit (s : string) : bool :=
  match s with
  | EmptyString => false
  | String c _ => is_digit c
  end.

End Text.

(** ** The text normalizer (lines 45-50), on ASCII text *)

Definition normalize_text (text : string) : string :=
  let text := Text.upper text in
  let text := Text.lstrip_digits text in
  let text := Text.unidecode text in
  Text.strip text.

(** ** Texts beyond ASCII *)

(** The three calls of the normalizer whose result depends on Unicode
    tables: [text.upper()], [re.sub(r"^\d+", "", text)] (in a [str] pattern
    [\d] is any Unicode decimal digit) and [unidecode(text)]. *)
Record library := mkLibrary {
  upper_of : string → string;
  sub_digits_of : string → string;
  unidecode_of : string → string
}.

(** What is used of them: on an ASCII text they are the functions of
    [Text], and [unidecode] returns ASCII text whatever it is given. *)
Definition lawful (L : library) : Prop :=
  (∀ s, Text.all_chars Text.is_ascii s = true → upper_of L s = Text.upper s) ∧
  (∀ s, Text.all_chars Text.is_ascii s = true →
        sub_digits_of L s = Text.lstrip_digits s) ∧
  (∀ s, Text.all_chars Text.is_ascii s = true →
        unidecode_of L s = Text.unidecode s) ∧
  (∀ s, Text.all_chars Text.is_ascii (unidecode_of L s) = true).

(** Lines 45-50 over a library.  The text that is stripped comes from
    [unidecode], so it is ASCII and [Text.strip] is [text.strip()]. *)
Definition normalize_text_in (L : library) (text : string) : string :=
  let text := upper_of L text in
  let text := sub_digits_of L text in
  let text := unidecode_of L text in
  Text.strip text.

(** A library that knows the Danish letters and two Chinese characters.
    A text is rewritten from left to right: an ASCII character by [f], a
    character of the table by its entry (the bytes of the character that
    follow its first byte are skipped), and any other byte is kept or
    dropped. *)
Fixpoint find_prefix (table : list (string * string)) (s : string)
  : option (string * string) :=
  match table with
  | [] => None
  | (k, v) :: table' =>
      if String.prefix k s then Some (k, v) else find_prefix table' s
  end.

Fixpoint recode (f : ascii → ascii) (table : list (string * string))
    (keep : bool) (skip : nat) (s : string) : string :=
  match s with
  | EmptyString => EmptyString
  | String c s' =>
      match skip with
      | S n => recode f table keep n s'
      | O =>
          if Text.is_ascii c then String (f c) (recode f table keep O s')
          else match find_prefix table s with
               | Some (k, v) =>
                   v +:+ recode f table keep (String.length k - 1)%nat s'
               | None =>
                   if keep then String c (recode f table keep O s')
                   else recode f table keep O s'
               end
      end
  end.

Definition upper_table : list (string * string) :=
  [("å", "Å"); ("æ", "Æ"); ("ø", "Ø")]%string.

Definition unidecode_table : list (string * string) :=
  [("Å", "A"); ("Æ", "AE"); ("Ø", "O"); ("å", "a"); ("æ", "ae"); ("ø", "o");
   ("北", "Bei "); ("京", "Jing ")]%string.

(** A character outside ASCII that the tables do not have is left as it is
    by [upper], is no digit, and is dropped by [unidecode]. *)
Definition sample_library : library :=
  {| upper_of := recode Text.upper_char upper_table true O;
     sub_digits_of := Text.lstrip_digits;
     unidecode_of := recode id unidecode_table false O |}.

(** ** Cells, rows and tables *)

Inductive value :=
  | NaN
  | Str (s : string)
  | Int (z : Z).

#[global] Instance value_eq_dec : EqDecision value.
Proof. solve_decision. Defined.

#[global] Instance value_inhabited : Inhabited value := populate NaN.

Abbreviation Row := (gmap string value).

Record DataFrame := mkDataFrame {
  columns : list string;
  rows : list Row
}.

(** The exceptions the script can die of. *)
Inductive exn :=
  | KeyError (c : string)
  | AttributeError
  | ValueError
  | TypeError.

Inductive result (A : Type) :=
  | Ok (a : A)
  | Raise (e : exn).
Arguments Ok {A} a.
Arguments Raise {A} e.

#[global] Instance exn_eq_dec : EqDecision exn.
Proof. solve_decision. Defined.

#[global] Instance result_eq_dec `{EqDecision A} : EqDecision (result A).
Proof. solve_decision. Defined.

#[global] Instance result_ret : MRet result := λ A a, Ok a.
#[global] Instance result_bind : MBind result := λ A B f m,
  match m with
  | Ok a => f a
  | Raise e => Raise e
  end.

(** The table a successful run returns (the default is never used on the
    runs of this file). *)
Definition returned {A} (default : A) (m : result A) : A :=
  match m with
  | Ok a => a
  | Raise _ => default
  end.

(** ** Constants (lines 7-16) *)

Definition STUDY_NUMBER : string := "STUDIENR".
Definition EDUCATION : string := "UDDANNELSE".
Definition COURSE_NUMBER : string := "KURSKODE".
Definition COURSE_TEXT : string := "KURSTXT".
Definition GRADE : string := "BEDOMMELSE".
Definition GRADING_SCALE : string := "SKALA".
Definition ECTS : string := "ECTS".
Definition EXAM_FORM : string := "UDPROVNING".
Definition CENSOR : string := "CENSUR".
Definition GRADING_DATE : string := "BEDOMMELSESDATO".
Definition SEMESTER : string := "SEMESTER".
Definition SEMESTER_END : string := "SEMESTER_END".
Definition ATTEMPT : string := "ATTEMPT".
Definition PROGRAM : string := "Softwareteknologi, ing.prof.bach.".

(** ** The pandas operations the script uses *)

(** [df[c]] raises [KeyError] when the table has no column [c]. *)
Definition require (c : string) (df : DataFrame) : result unit :=
  if bool_decide (c ∈ columns df) then Ok () else Raise (KeyError c).

(** The cells of [df[c]], in row order. *)
Definition column (c : string) (df : DataFrame) : list value :=
  (λ r, r !!! c) <$> rows df.

(** [df[mask]] for a mask computed row by row. *)
Definition keep (P : Row → Prop) `{∀ r, Decision (P r)} (df : DataFrame)
  : DataFrame :=
  {| columns := columns df; rows := filter P (rows df) |}.

(** [df[c] = values], the values given row by row; a new column is appended
    to the column list. *)
Definition with_column (c : string) (df : DataFrame) (rows' : list Row)
  : DataFrame :=
  {| columns := if bool_decide (c ∈ columns df) then columns df
                else columns df ++ [c];
     rows := rows' |}.

(** Stable sorting: [x] is put in front of the first element that is not
    below it, so that elements that compare equal keep their order. *)
Fixpoint insert_sorted {A} (le : A → A → bool) (x : A) (l : list A) : list A :=
  match l with
  | [] => [x]
  | y :: l' => if le x y then x :: l else y :: insert_sorted le x l'
  end.

Definition stable_sort {A} (le : A → A → bool) (l : list A) : list A :=
  foldr (insert_sorted le) [] l.

(** Order of cells in a sort: texts by code point, integers by value,
    missing cells last ([na_position="last"]).  A column of the script never
    mixes integers and texts; integers are put first to make the order
    total. *)
Definition value_cmp (a b : value) : comparison :=
  match a, b with
  | NaN, NaN => Eq
  | NaN, _ => Gt
  | _, NaN => Lt
  | Int x, Int y => x ?= y
  | Int _, Str _ => Lt
  | Str _, Int _ => Gt
  | Str s, Str t => String.compare s t
  end.

Definition value_leb (a b : value) : bool :=
  match value_cmp a b with
  | Gt => false
  | _ => true
  end.

(** Keys of several columns are compared column by column. *)
Fixpoint key_cmp (k1 k2 : list value) : comparison :=
  match k1, k2 with
  | [], [] => Eq
  | [], _ :: _ => Lt
  | _ :: _, [] => Gt
  | a :: k1', b :: k2' =>
      match value_cmp a b with
      | Eq => key_cmp k1' k2'
      | c => c
      end
  end.

Definition key_leb (k1 k2 : list value) : bool :=
  match key_cmp k1 k2 with
  | Gt => false
  | _ => true
  end.

(** [Series.unique()]: the distinct elements in order of first appearance.
    [drop_duplicates] (keep="first") is the same operation on rows. *)
Fixpoint unique `{EqDecision A} (l : list A) : list A :=
  match l with
  | [] => []
  | x :: l' => x :: filter (λ y, y ≠ x) (unique l')
  end.

Definition drop_duplicates (l : list Row) : list Row := unique l.

(** The number of occurrences of [x] in [l]. *)
Definition count `{EqDecision A} (x : A) (l : list A) : nat :=
  length (filter (λ y, y = x) l).

Definition dropna (col : list value) : list value :=
  filter (λ v, v ≠ NaN) col.

(** [Series.nunique()] does not count missing cells. *)
Definition nunique (col : list value) : nat := length (unique (dropna col)).

(** [Series.value_counts()]: the distinct present values with their number
    of occurrences, most frequent first.  pandas does not fix the order of
    values with equal counts (its sort of the counts is not stable); here
    they stay in order of first appearance, and nothing that is proved
    below depends on which of them comes first. *)
Definition value_counts (col : list value) : list (value * nat) :=
  stable_sort (λ p q, (snd q <=? snd p)%nat)
    ((λ v, (v, count v col)) <$> unique (dropna col)).

(** [Series.idxmax()]: the label of the first maximum; [ValueError] on an
    empty series. *)
Definition idxmax (s : list (value * nat)) : result value :=
  let m := foldr Nat.max O (snd <$> s) in
  match filter (λ p, snd p = m) s with
  | p :: _ => Ok (fst p)
  | [] => Raise ValueError
  end.

(** [groupby(by)]: the key of a row, the rows that take part (with the
    default [dropna=True] a row with a missing key cell is in no group), the
    group keys in sorted order, and the rows of one group in table order. *)
Definition group_key (cols : list string) (r : Row) : list value :=
  (λ c, r !!! c) <$> cols.

Definition grouped (cols : list string) (r : Row) : Prop :=
  NaN ∉ group_key cols r.

Definition group_keys (cols : list string) (l : list Row) : list (list value) :=
  stable_sort key_leb (unique (group_key cols <$> filter (grouped cols) l)).

Definition group (cols : list string) (k : list value) (l : list Row) : list Row :=
  filter (λ r, group_key cols r = k) l.

(** [groupby(by).apply(f)] on a table: [f] is called on every group, in
    the order of the sorted keys, and the results are concatenated in that
    order. *)
Definition groupby_apply (cols : list string)
    (f : list Row → result (list Row)) (l : list Row) : result (list Row) :=
  groups ← mapM (λ k, f (group cols k l)) (group_keys cols l);
  mret (concat groups).

(** [groupby(by).cumcount()]: for every row the number of earlier rows of
    its group; missing for a row that is in no group. *)
Fixpoint cumcount (cols : list string) (seen : list (list value))
    (l : list Row) : list value :=
  match l with
  | [] => []
  | r :: l' =>
      let k := group_key cols r in
      (if bool_decide (NaN ∈ k) then NaN else Int (Z.of_nat (count k seen)))
      :: cumcount cols (k :: seen) l'
  end.

(** [series + 1] *)
Definition add_one (v : value) : value :=
  match v with
  | Int z => Int (z + 1)
  | _ => NaN
  end.

(** [df.sort_values(by=...)] with several keys sorts on the integer codes of
    the key columns with numpy's [lexsort]: one stable pass per key, from
    the last key to the first. *)
Definition sort_column (c : string) (l : list Row) : list Row :=
  stable_sort (λ r1 r2, value_leb (r1 !!! c) (r2 !!! c)) l.

Definition sort_values (cols : list string) (df : DataFrame) : result DataFrame :=
  _ ← mapM (λ c, require c df) cols;
  mret {| columns := columns df; rows := foldr sort_column (rows df) cols |}.

(** ** Dates *)

Record date := mkDate { year : Z; month : Z; day : Z }.

#[global] Instance date_eq_dec : EqDecision date.
Proof. solve_decision. Defined.

Module Dates.
Import Text.

Definition digit (c : ascii) : option Z :=
  if is_digit c then Some (ord c - 48) else None.

Definition digit_in (lo hi : Z) (c : ascii) : option Z :=
  match digit c with
  | Some n => if (lo <=? n) && (n <=? hi) then Some n else None
  | None => None
  end.

(** The directive [%d]: [3[0-1]|[1-2]\d|0[1-9]|[1-9]| [1-9]]. *)
Definition parse_d (s : string) : option Z :=
  match s with
  | String a (String b EmptyString) =>
      match digit a, digit b with
      | Some 3, Some n => if n <=? 1 then Some (30 + n) else None
      | Some 0, Some n => if 1 <=? n then Some n else None
      | Some m, Some n => if m <=? 2 then Some (10 * m + n) else None
      | None, Some n =>
          if bool_decide (a = " "%char) && (1 <=? n) then Some n else None
      | _, None => None
      end
  | String a EmptyString => digit_in 1 9 a
  | _ => None
  end.

(** The directive [%m]: [1[0-2]|0[1-9]|[1-9]]. *)
Definition parse_m (s : string) : option Z :=
  match s with
  | String a (String b EmptyString) =>
      match digit a, digit b with
      | Some 1, Some n => if n <=? 2 then Some (10 + n) else None
      | Some 0, Some n => if 1 <=? n then Some n else None
      | _, _ => None
      end
  | String a EmptyString => digit_in 1 9 a
  | _ => None
  end.

(** The directive [%Y]: [\d\d\d\d]. *)
Definition parse_Y (s : string) : option Z :=
  match s with
  | String a (String b (String c (String d EmptyString))) =>
      match digit a, digit b, digit c, digit d with
      | Some x, Some y, Some z, Some w =>
          Some (1000 * x + 100 * y + 10 * z + w)
      | _, _, _, _ => None
      end
  | _ => None
  end.

(** Two digits exactly, as [strftime] writes a month or a day. *)
Definition parse_2 (s : string) : option Z :=
  match s with
  | String a (String b EmptyString) =>
      match digit a, digit b with
      | Some x, Some y => Some (10 * x + y)
      | _, _ => None
      end
  | _ => None
  end.

Fixpoint split (sep : ascii) (s : string) : list string :=
  match s with
  | EmptyString => [EmptyString]
  | String c s' =>
      if bool_decide (c = sep) then EmptyString :: split sep s'
      else match split sep s' with
           | t :: ts => String c t :: ts
           | [] => [String c EmptyString]
           end
  end.

Definition is_leap (y : Z) : bool :=
  ((y mod 4 =? 0) && negb (y mod 100 =? 0)) || (y mod 400 =? 0).

Definition days_in_month (y m : Z) : Z :=
  if m =? 2 then (if is_leap y then 29 else 28)
  else if (m =? 4) || (m =? 6) || (m =? 9) || (m =? 11) then 30
  else 31.

(** A calendar date that [to_datetime] returns: it builds nanosecond
    timestamps, which at midnight reach from 1677-09-22 to 2262-04-11. *)
Definition date_ord (d : date) : Z := (year d * 100 + month d) * 100 + day d.

Definition valid_date (d : date) : bool :=
  (1 <=? month d) && (month d <=? 12) &&
  (1 <=? day d) && (day d <=? days_in_month (year d) (month d)) &&
  (16770922 <=? date_ord d) && (date_ord d <=? 22620411).

Definition checked (d : date) : option date :=
  if valid_date d then Some d else None.

(** A text in the format ["%d/%m/%Y"], matched in full. *)
Definition parse_dmy (s : string) : option date :=
  match split "/" s with
  | [d; m; y] =>
      d ← parse_d d; m ← parse_m m; y ← parse_Y y; checked (mkDate y m d)
  | _ => None
  end.

(** A text in the format ["%Y-%m-%d"] as [strftime] writes it. *)
Definition parse_iso (s : string) : option date :=
  match split "-" s with
  | [y; m; d] =>
      y ← parse_Y y; m ← parse_2 m; d ← parse_2 d; checked (mkDate y m d)
  | _ => None
  end.

Definition digit_char (n : Z) : ascii := chr (48 + n mod 10).

Definition pad2 (n : Z) : string :=
  String (digit_char (n / 10)) (String (digit_char n) EmptyString).

Definition pad4 (n : Z) : string :=
  String (digit_char (n / 1000)) (String (digit_char (n / 100)) (pad2 n)).

(** [strftime("%Y-%m-%d")] *)
Definition strftime (d : date) : string :=
  pad4 (year d) +:+ "-" +:+ pad2 (month d) +:+ "-" +:+ pad2 (day d).

(** [str(n)] for an integer. *)
Definition str_int (n : Z) : string := NilZero.string_of_int (Z.to_int n).

(** The texts [to_datetime] reads as a missing date. *)
Definition nat_strings : list string :=
  [""; "NaT"; "nat"; "NAT"; "nan"; "NaN"; "NAN"]%string.

(** [pd.to_datetime(v, format=...)] on one cell: [None] is [NaT]. *)
Definition to_datetime (parse : string → option date) (v : value)
  : result (option date) :=
  match v with
  | NaN => Ok None
  | Str s =>
      if bool_decide (s ∈ nat_strings) then Ok None
      else match parse s with
           | Some d => Ok (Some d)
           | None => Raise ValueError
           end
  | Int _ => Raise ValueError
  end.

(** [pd.Timestamp(year=, month=, day=)]: the fields go through
    [datetime], which takes any day of the calendar in the years 1 to 9999;
    a date outside the nanosecond range is held at a coarser resolution. *)
Definition calendar_date (d : date) : bool :=
  (1 <=? year d) && (year d <=? 9999) &&
  (1 <=? month d) && (month d <=? 12) &&
  (1 <=? day d) && (day d <=? days_in_month (year d) (month d)).

Definition Timestamp (y m d : Z) : result date :=
  if calendar_date (mkDate y m d) then Ok (mkDate y m d)
  else Raise ValueError.

End Dates.

(** ** The stages of the script *)

(** Lines 24-25: the cohort filter. *)
Definition select_program (target : string) (df : DataFrame)
  : result DataFrame :=
  _ ← require EDUCATION df;
  mret (keep (λ r, r !!! EDUCATION = Str target) df).

Definition drop_column (c : string) (df : DataFrame) : result DataFrame :=
  _ ← require c df;
  mret {| columns := filter (λ c', c' ≠ c) (columns df);
          rows := delete c <$> rows df |}.

Definition cohort_filter (target : string) (df : DataFrame)
  : result DataFrame :=
  df ← select_program target df;
  drop_column EDUCATION df.

(** Lines 28-30: the minimum-activity filter. *)
Definition activity_filter (df : DataFrame) : result DataFrame :=
  _ ← require STUDY_NUMBER df;
  let course_counts := value_counts (column STUDY_NUMBER df) in
  let valid_study_numbers :=
    fst <$> filter (λ p, (2 < snd p)%nat) course_counts in
  mret (keep (λ r, r !!! STUDY_NUMBER ∈ valid_study_numbers) df).

(** [Series.str.contains(pat, regex=False, na=False, case=False)] on one
    cell: both sides are upper-cased, a cell that is not a text gives
    [False]. *)
Definition str_contains (pat : string) (v : value) : bool :=
  match v with
  | Str s => Text.contains (Text.upper pat) (Text.upper s)
  | _ => false
  end.

(** The same check with the [upper] of a library. *)
Definition str_contains_in (L : library) (pat : string) (v : value) : bool :=
  match v with
  | Str s => Text.contains (upper_of L pat) (upper_of L s)
  | _ => false
  end.

(** Lines 33-37: the institute filter. *)
Definition institute_filter (df : DataFrame) : result DataFrame :=
  _ ← require COURSE_TEXT df;
  _ ← require STUDY_NUMBER df;
  let institute_study_numbers :=
    unique ((λ r, r !!! STUDY_NUMBER) <$>
            filter (λ r, str_contains "institut" (r !!! COURSE_TEXT) = true)
                   (rows df)) in
  mret (keep (λ r, r !!! STUDY_NUMBER ∉ institute_study_numbers) df).

(** Line 53: [normalize_text] is applied to every cell of the column; a
    missing cell is a float, which has no method [upper]. *)
Definition apply_normalize_text (v : value) : result value :=
  match v with
  | Str s => Ok (Str (normalize_text s))
  | _ => Raise AttributeError
  end.

Definition normalize_course_text (df : DataFrame) : result DataFrame :=
  _ ← require COURSE_TEXT df;
  rows' ← mapM (λ r, v ← apply_normalize_text (r !!! COURSE_TEXT);
                     mret (<[COURSE_TEXT := v]> r)) (rows df);
  mret (with_column COURSE_TEXT df rows').

(** Lines 59-72: the course-code canonicalizer. *)
Definition course_key : list string := [COURSE_TEXT; ECTS].

Definition group_codes (k : list value) (l : list Row) : list value :=
  (λ r, r !!! COURSE_NUMBER) <$> group course_key k l.

Definition duplicate_keys (l : list Row) : list (list value) :=
  filter (λ k, (1 < nunique (group_codes k l))%nat) (group_keys course_key l).

(** [d.get(k, default)] on a dictionary given as a list of its items. *)
Fixpoint dict_get {K V} `{EqDecision K} (d : list (K * V)) (k : K) (default : V)
  : V :=
  match d with
  | [] => default
  | (k', v) :: d' => if bool_decide (k' = k) then v else dict_get d' k default
  end.

Definition canonical_codes (l : list Row)
  : result (list (list value * value)) :=
  mapM (λ k, c ← idxmax (value_counts (group_codes k l)); mret (k, c))
       (group_keys course_key l).

Definition canonicalize (df : DataFrame) : result DataFrame :=
  _ ← require COURSE_TEXT df;
  _ ← require ECTS df;
  _ ← require COURSE_NUMBER df;
  let duplicate_keys := duplicate_keys (rows df) in
  if bool_decide (0 < length duplicate_keys)%nat then
    canonical ← canonical_codes (rows df);
    let mapping := (λ k, (k, dict_get canonical k NaN)) <$> duplicate_keys in
    let rows' :=
      (λ r, <[COURSE_NUMBER :=
                dict_get mapping (group_key course_key r) (r !!! COURSE_NUMBER)]> r)
      <$> rows df in
    mret {| columns := columns df; rows := drop_duplicates rows' |}
  else mret df.

(** Lines 80-81: the grading dates are parsed and written back in ISO form;
    a missing date stays missing. *)
Definition iso_date (v : value) : result value :=
  d ← Dates.to_datetime Dates.parse_dmy v;
  mret (match d with
        | Some d => Str (Dates.strftime d)
        | None => NaN
        end).

Definition to_iso (df : DataFrame) : result DataFrame :=
  _ ← require GRADING_DATE df;
  rows' ← mapM (λ r, v ← iso_date (r !!! GRADING_DATE);
                     mret (<[GRADING_DATE := v]> r)) (rows df);
  mret (with_column GRADING_DATE df rows').

(** Lines 85-88.  On a missing date [to_datetime] gives [NaT], whose month
    is a NaN that fails both comparisons and whose year prints as "nan". *)
Definition get_semester (value : value) : result string :=
  date ← Dates.to_datetime Dates.parse_iso value;
  mret (match date with
        | Some date =>
            let semester :=
              if (month date <=? 4) || (10 <=? month date)
              then "Fall"%string else "Spring"%string in
            semester +:+ " " +:+ Dates.str_int (year date)
        | None => "Spring nan"%string
        end).

(** Line 91 *)
Definition add_semester (df : DataFrame) : result DataFrame :=
  _ ← require GRADING_DATE df;
  rows' ← mapM (λ r, s ← get_semester (r !!! GRADING_DATE);
                     mret (<[SEMESTER := Str s]> r)) (rows df);
  mret (with_column SEMESTER df rows').

(** Lines 95-104.  The dates of the group, in ISO form since line 81, are
    parsed again and the year is read off the first row; when a date of the
    group is missing the years are floats, which [Timestamp] refuses with a
    [TypeError]. *)
Definition set_semester_grading_dates (group : list Row) : result (list Row) :=
  match group with
  | [] => Ok []
  | first :: _ =>
      let semester := first !!! SEMESTER in
      dates ← mapM (λ r, Dates.to_datetime Dates.parse_iso (r !!! GRADING_DATE))
                   group;
      match semester, mapM id dates with
      | Str semester, Some (d :: _) =>
          new_date ← (if Text.contains "Spring" semester
                      then Dates.Timestamp (year d) 6 1
                      else Dates.Timestamp (year d) 12 1);
          mret ((λ r, <[SEMESTER_END := Str (Dates.strftime new_date)]> r)
                <$> group)
      | _, _ => Raise TypeError
      end
  end.

(** Lines 107-108.  The grouped [apply] returns the groups one after the
    other, in the order of the sorted keys (student, semester label); on a
    table without groups the function is never called and no column is
    added.  When the function raises, the run ends with an exception: the
    one of the function here, where pandas 2.x calls the function once more
    on the groups without their key columns and ends with the [KeyError] of
    that call. *)
Definition semester_key : list string := [STUDY_NUMBER; SEMESTER].

Definition align (df : DataFrame) : result DataFrame :=
  _ ← require STUDY_NUMBER df;
  _ ← require SEMESTER df;
  if bool_decide (group_keys semester_key (rows df) = []) then
    mret {| columns := columns df; rows := [] |}
  else
    _ ← require GRADING_DATE df;
    rows' ← groupby_apply semester_key set_semester_grading_dates (rows df);
    mret (with_column SEMESTER_END df rows').

(** Line 113: the attempt counter. *)
Definition attempt_key : list string := [STUDY_NUMBER; COURSE_NUMBER].

Definition add_attempt (df : DataFrame) : result DataFrame :=
  _ ← require STUDY_NUMBER df;
  _ ← require COURSE_NUMBER df;
  let attempt := add_one <$> cumcount attempt_key [] (rows df) in
  mret (with_column ATTEMPT df
          (zip_with (λ r v, <[ATTEMPT := v]> r) (rows df) attempt)).

(** Line 116: the final sort. *)
Definition sort_key : list string := [STUDY_NUMBER; COURSE_NUMBER; SEMESTER_END].

Definition sort_rows (df : DataFrame) : result DataFrame :=
  sort_values sort_key df.

(** The script from the loaded table to the table it writes: the filters
    and the text normalizer (lines 24-53), the canonicalizer (lines 59-72),
    then the dates, the labels, the attempts and the sort (lines 80-116). *)
Definition clean (df : DataFrame) : result DataFrame :=
  df ← cohort_filter PROGRAM df;
  df ← activity_filter df;
  df ← institute_filter df;
  normalize_course_text df.

Definition derive (df : DataFrame) : result DataFrame :=
  df ← to_iso df;
  df ← add_semester df;
  df ← align df;
  df ← add_attempt df;
  sort_rows df.

Definition pipeline (df : DataFrame) : result DataFrame :=
  df ← clean df;
  df ← canonicalize df;
  derive df.

(** ** Tables used as concrete inputs *)

Definition raw_columns : list string :=
  [STUDY_NUMBER; EDUCATION; COURSE_NUMBER; COURSE_TEXT; GRADE; GRADING_SCALE;
   ECTS; EXAM_FORM; CENSOR; GRADING_DATE].

(** A row of the CSV file; the fields the examples do not vary are fixed. *)
Definition grading_record (student code : string) (text : value)
    (ects date : string) : Row :=
  list_to_map
    [(STUDY_NUMBER, Str student); (EDUCATION, Str PROGRAM);
     (COURSE_NUMBER, Str code); (COURSE_TEXT, text); (GRADE, Str "7");
     (GRADING_SCALE, Str "7-trin"); (ECTS, Str ects);
     (EXAM_FORM, Str "Skriftlig"); (CENSOR, Str "Intern");
     (GRADING_DATE, Str date)].

(** One student, three records, all of the target program. *)
Definition cohort_table : DataFrame :=
  mkDataFrame raw_columns
    [grading_record "s1" "02132" (Str "Database systems") "5" "15/12/2022";
     grading_record "s1" "01005" (Str "Matematik 1") "20" "15/01/2023";
     grading_record "s1" "02101" (Str "Programmering") "5" "20/06/2022"].

(** One student whose third record has no course text. *)
Definition missing_text_table : DataFrame :=
  mkDataFrame raw_columns
    [grading_record "s1" "02132" (Str "Database systems") "5" "15/12/2022";
     grading_record "s1" "01005" (Str "Matematik 1") "20" "15/01/2023";
     grading_record "s1" "02101" NaN "5" "20/06/2022"].

(** One student who took course 02132 twice, the later attempt first in the
    file, and one other course. *)
Definition retake_table : DataFrame :=
  mkDataFrame raw_columns
    [grading_record "s1" "02132" (Str "Database systems") "5" "15/12/2022";
     grading_record "s1" "02132" (Str "Database systems") "5" "01/06/2021";
     grading_record "s1" "01005" (Str "Matematik 1") "20" "15/01/2023"].

(** A table as the canonicalizer receives it (texts normalized): three
    records of "DATABASE SYSTEMS" under two codes, and three records of
    "MATEMATIK 1", two of them the same row twice and one without a code. *)
Definition canonical_table : DataFrame :=
  mkDataFrame raw_columns
    [grading_record "s1" "02132" (Str "DATABASE SYSTEMS") "5" "15/12/2022";
     grading_record "s2" "02132" (Str "DATABASE SYSTEMS") "5" "15/12/2022";
     grading_record "s3" "02132B" (Str "DATABASE SYSTEMS") "5" "20/06/2022";
     grading_record "s1" "01005" (Str "MATEMATIK 1") "20" "15/01/2023";
     grading_record "s1" "01005" (Str "MATEMATIK 1") "20" "15/01/2023";
     <[COURSE_NUMBER := NaN]>
       (grading_record "s2" "" (Str "MATEMATIK 1") "20" "15/01/2023")].

(** One student with three records: the first row occurs twice in the file,
    the third has the same course under another code. *)
Definition repeated_row_table : DataFrame :=
  mkDataFrame raw_columns
    [grading_record "s1" "02132" (Str "Database systems") "5" "15/12/2022";
     grading_record "s1" "02132" (Str "Database systems") "5" "15/12/2022";
     grading_record "s1" "02132B" (Str "02132 Database systems") "5"
       "20/06/2023"].

(** Three students of the target program: s1 and s2 with three records
    each, one record of s2 being a course of an institute, and s3 with a
    single record. *)
Definition institute_table : DataFrame :=
  mkDataFrame raw_columns
    [grading_record "s1" "02132" (Str "Database systems") "5" "15/12/2022";
     grading_record "s2" "01005" (Str "Matematik 1") "20" "15/01/2023";
     grading_record "s1" "01005" (Str "Matematik 1") "20" "15/01/2023";
     grading_record "s2" "KU001" (Str "Kursus ved INSTITUT for Datalogi") "5"
       "20/06/2022";
     grading_record "s1" "02101" (Str "Programmering") "5" "20/06/2022";
     grading_record "s2" "02101" (Str "Programmering") "5" "20/06/2022";
     grading_record "s3" "02101" (Str "Programmering") "5" "20/06/2022"].

(** One student whose third record has no grading date. *)
Definition missing_date_table : DataFrame :=
  mkDataFrame raw_columns
    [grading_record "s1" "02132" (Str "Database systems") "5" "15/12/2022";
     grading_record "s1" "01005" (Str "Matematik 1") "20" "15/01/2023";
     <[GRADING_DATE := NaN]>
       (grading_record "s1" "02101" (Str "Programmering") "5" "")].

(** Two students: s1 with two records in the fall of 2022 and one in the
    spring, s2 with one record. *)
Definition same_semester_table : DataFrame :=
  mkDataFrame raw_columns
    [grading_record "s1" "02132" (Str "Database systems") "5" "15/12/2022";
     grading_record "s2" "01005" (Str "Matematik 1") "20" "15/01/2023";
     grading_record "s1" "02101" (Str "Programmering") "5" "20/06/2022";
     grading_record "s1" "01005" (Str "Matematik 1") "20" "20/10/2022"].

(** One record that occurs three times in the file. *)
Definition identical_rows_table : DataFrame :=
  mkDataFrame raw_columns
    [grading_record "s1" "02132" (Str "Database systems") "5" "15/12/2022";
     grading_record "s1" "02132" (Str "Database systems") "5" "15/12/2022";
     grading_record "s1" "02132" (Str "Database systems") "5" "15/12/2022"].

(** ** Notions used in the statements and in the proofs *)

(** Non-decreasing order of two rows on a list of key columns, compared
    column by column. *)
Definition key_le (cols : list string) (r1 r2 : Row) : Prop :=
  key_leb (group_key cols r1) (group_key cols r2) = true.

(** The order that one more sorting pass on [le] makes of an order [L]:
    [le] first, then [L] where [le] does not separate. *)
Definition refined {A} (le : A → A → bool) (L : A → A → Prop) (x y : A) : Prop :=
  le x y = true ∧ (le y x = true → L x y).

(** The label of a date as [get_semester] builds it. *)
Definition is_fall (d : date) : bool := (month d <=? 4) || (10 <=? month d).

Definition label (d : date) : string :=
  (if is_fall d then "Fall" else "Spring") +:+ " " +:+ Dates.str_int (year d).

(** What the canonicalizer writes in the code column of a row. *)
Definition new_code (l : list Row) (canonical : list (list value * value))
    (r : Row) : value :=
  dict_get ((λ k, (k, dict_get canonical k NaN)) <$> duplicate_keys l)
           (group_key course_key r) (r !!! COURSE_NUMBER).

Definition not_lower (c : ascii) : bool := negb (Text.is_lower c).


Definition head_not_space (s : string) : bool :=
  match s with
  | EmptyString => true
  | String c _ => negb (Text.is_space c)
  end.

Fixpoint slen (s : string) : nat :=
  match s with
  | EmptyString => O
  | String _ s' => S (slen s')
  end.

(** The text of a date in the format ["%d/%m/%Y"], the day and the month on
    two digits. *)
Definition dmy_text (d : date) : string :=
  Dates.pad2 (day d) +:+ "/" +:+ Dates.pad2 (month d) +:+ "/"
  +:+ Dates.pad4 (year d).

(** A row that the stages after the canonicalizer can process: it has a
    student and a grading date in day/month/year form. *)
Definition dated (r : Row) : Prop :=
  r !!! STUDY_NUMBER ≠ NaN ∧
  ∃ (s : string) (dd : date),
    r !!! GRADING_DATE = Str s ∧ Dates.parse_dmy s = Some dd.

(** Such a row once its date is in ISO form and its label is written. *)
Definition labelled_row (r : Row) : Prop :=
  r !!! STUDY_NUMBER ≠ NaN ∧
  ∃ dd : date,
    Dates.valid_date dd = true ∧
    r !!! GRADING_DATE = Str (Dates.strftime dd) ∧
    r !!! SEMESTER = Str (label dd).

(** A row whose grading date [to_datetime] reads as a date, and which has
    a semester label. *)
Definition has_date (r : Row) : Prop :=
  ∃ (d : date) (lbl : string),
    Dates.to_datetime Dates.parse_iso (r !!! GRADING_DATE) = Ok (Some d) ∧
    r !!! SEMESTER = Str lbl.

(** * Proofs *)

Module TextFacts.
Import Text.

Lemma upper_char_not_lower c : is_lower (upper_char c) = false.
Proof.
  destruct c as [[] [] [] [] [] [] [] []]; vm_compute; reflexivity.
Qed.

Lemma upper_char_fixed c : is_lower c = false → upper_char c = c.
Proof. unfold upper_char. by intros ->. Qed.

Lemma upper_no_lower s : all_chars not_lower (upper s) = true.
Proof.
  induction s as [|c s IH]; simpl; [done|].
  unfold not_lower at 1. by rewrite upper_char_not_lower, IH.
Qed.

Lemma upper_fixed s : all_chars not_lower s = true → upper s = s.
Proof.
  induction s as [|c s IH]; simpl; [done|].
  intros [Hc Hs]%andb_true_iff. rewrite IH by done.
  rewrite upper_char_fixed; [done|].
  unfold not_lower in Hc. by destruct (is_lower c).
Qed.

Lemma lstrip_digits_all p s :
  all_chars p s = true → all_chars p (lstrip_digits s) = true.
Proof.
  induction s as [|c s IH]; simpl; [done|].
  intros H. pose proof H as [Hc Hs]%andb_true_iff.
  destruct (is_digit c); [auto|exact H].
Qed.

Lemma lstrip_all p s : all_chars p s = true → all_chars p (lstrip s) = true.
Proof.
  induction s as [|c s IH]; simpl; [done|].
  intros H. pose proof H as [Hc Hs]%andb_true_iff.
  destruct (is_space c); [auto|exact H].
Qed.

Lemma rstrip_all p s : all_chars p s = true → all_chars p (rstrip s) = true.
Proof.
  induction s as [|c s IH]; simpl; [done|].
  intros [Hc Hs]%andb_true_iff. specialize (IH Hs).
  destruct (rstrip s) as [|d t].
  - destruct (is_space c); simpl; [done|]. by rewrite Hc.
  - simpl in *. by rewrite Hc, IH.
Qed.

Lemma strip_all p s : all_chars p s = true → all_chars p (strip s) = true.
Proof. intros H. by apply rstrip_all, lstrip_all. Qed.

Lemma normalize_text_no_lower x : all_chars not_lower (normalize_text x) = true.
Proof.
  unfold normalize_text, unidecode.
  apply strip_all, lstrip_digits_all, upper_no_lower.
Qed.

Lemma normalize_text_ascii x :
  all_chars is_ascii x = true → all_chars is_ascii (normalize_text x) = true.
Proof.
  intros H. unfold normalize_text, unidecode.
  apply strip_all, lstrip_digits_all.
  induction x as [|c s IH]; simpl in *; [done|].
  apply andb_true_iff in H as [Hc Hs]. rewrite IH by done.
  rewrite andb_true_r. clear -Hc.
  destruct c as [[] [] [] [] [] [] [] []]; vm_compute in Hc |- *; congruence.
Qed.

Lemma lstrip_head s : head_not_space (lstrip s) = true.
Proof.
  induction s as [|c s IH]; simpl; [done|].
  destruct (is_space c) eqn:E; [done|]. simpl. by rewrite E.
Qed.

Lemma lstrip_fixed s : head_not_space s = true → lstrip s = s.
Proof.
  destruct s as [|c s]; simpl; [done|]. by destruct (is_space c).
Qed.

Lemma rstrip_head s : head_not_space s = true → head_not_space (rstrip s) = true.
Proof.
  destruct s as [|c s]; simpl; [done|]. intros H.
  destruct (rstrip s); [|done].
  destruct (is_space c) eqn:E; simpl; [done|]. by rewrite E.
Qed.

Lemma rstrip_cons c s :
  rstrip (String c s)
  = match rstrip s with
    | EmptyString => if is_space c then EmptyString else String c EmptyString
    | t => String c t
    end.
Proof. reflexivity. Qed.

Lemma rstrip_idem s : rstrip (rstrip s) = rstrip s.
Proof.
  induction s as [|c s IH]; [done|].
  rewrite rstrip_cons. destruct (rstrip s) as [|d t] eqn:E.
  - destruct (is_space c) eqn:Ec; [done|].
    rewrite rstrip_cons. simpl. by rewrite Ec.
  - by rewrite rstrip_cons, IH.
Qed.

Lemma strip_idem s : strip (strip s) = strip s.
Proof.
  unfold strip. rewrite (lstrip_fixed (rstrip (lstrip s))).
  - apply rstrip_idem.
  - apply rstrip_head, lstrip_head.
Qed.

Lemma lstrip_len s : (slen (lstrip s) ≤ slen s)%nat.
Proof.
  induction s as [|c s IH]; simpl; [lia|].
  destruct (is_space c); simpl; lia.
Qed.

Lemma rstrip_len s : (slen (rstrip s) ≤ slen s)%nat.
Proof.
  induction s as [|c s IH]; simpl; [lia|].
  destruct (rstrip s); [destruct (is_space c)|]; simpl in *; lia.
Qed.

Lemma strip_len s : (slen (strip s) ≤ slen s)%nat.
Proof.
  unfold strip. pose proof (rstrip_len (lstrip s)). pose proof (lstrip_len s). lia.
Qed.

Lemma lstrip_digits_fixed s : starts_with_digit s = false → lstrip_digits s = s.
Proof. destruct s as [|c s]; simpl; [done|]. by intros ->. Qed.

Lemma lstrip_digits_shorter s :
  starts_with_digit s = true → (slen (lstrip_digits s) < slen s)%nat.
Proof.
  destruct s as [|c s]; simpl; [done|]. intros ->.
  assert (slen (lstrip_digits s) ≤ slen s)%nat; [|lia].
  clear. induction s as [|d s IH]; simpl; [lia|].
  destruct (is_digit d); simpl; lia.
Qed.

End TextFacts.

Import Text TextFacts.

(** C2, as stated, fails: after the leading digits of ["1 2abc"] are removed
    the text still starts with a space, and stripping it uncovers a second
    run of digits, which only a second pass removes. *)
Lemma normalize_text_not_idempotent :
  normalize_text "1 2abc" = "2ABC"%string ∧
  normalize_text (normalize_text "1 2abc") = "ABC"%string ∧
  normalize_text (normalize_text "1 2abc") ≠ normalize_text "1 2abc".
Proof. repeat split; [vm_compute; reflexivity..|vm_compute; discriminate]. Qed.

(** ** The error monad *)

Module ResultFacts.

Lemma bind_Ok {A B} (f : A → result B) (m : result A) (b : B) :
  m ≫= f = Ok b → ∃ a, m = Ok a ∧ f a = Ok b.
Proof. destruct m as [a|e]; [|discriminate]. intros H. by exists a. Qed.

Lemma ret_Ok {A} (a b : A) : mret a = Ok b → a = b.
Proof. by intros [= ->]. Qed.

Lemma require_Ok c df u : require c df = Ok u → c ∈ columns df.
Proof. unfold require. case_bool_decide; [done|discriminate]. Qed.

Lemma require_in c df : c ∈ columns df → require c df = Ok ().
Proof. unfold require. intros H. by rewrite bool_decide_eq_true_2. Qed.

Lemma require_not_in c df : c ∉ columns df → require c df = Raise (KeyError c).
Proof. unfold require. intros H. by rewrite bool_decide_eq_false_2. Qed.

Lemma mapM_cons {A B} (f : A → result B) x l :
  mapM f (x :: l) = y ← f x; k ← mapM f l; mret (y :: k).
Proof. reflexivity. Qed.

Lemma mapM_Ok {A B} (f : A → result B) l l' :
  mapM f l = Ok l' → Forall2 (λ x y, f x = Ok y) l l'.
Proof.
  revert l'. induction l as [|x l IH]; intros l'.
  - intros [= <-]. constructor.
  - rewrite mapM_cons.
    intros (y & Hy & (k & Hk & [= <-])%bind_Ok)%bind_Ok.
    constructor; auto.
Qed.

Lemma mapM_Raise {A B} (f : A → result B) l x e :
  x ∈ l → f x = Raise e → (∀ y e', f y = Raise e' → e' = e) →
  mapM f l = Raise e.
Proof.
  intros Hx Hfx Hall. induction l as [|y l IH]; [by apply elem_of_nil in Hx|].
  rewrite mapM_cons. apply elem_of_cons in Hx as [<-|Hx].
  - by rewrite Hfx.
  - destruct (f y) as [b|e'] eqn:Hy; simpl.
    + by rewrite (IH Hx).
    + by rewrite (Hall _ _ Hy).
Qed.

End ResultFacts.

Import ResultFacts.

(** Splits a successful sequence of binds into its steps. *)
Ltac inv_ok H :=
  repeat (let a := fresh "x" in
          let E := fresh "E" in
          apply bind_Ok in H as (a & E & H));
  try (apply ret_Ok in H).

(** Closes an equation between closed terms by evaluation. *)
Ltac computed := vm_compute; reflexivity.

(** ** Lists *)

Module ListFacts.

Section Filter.
Context {A : Type} (P : A → Prop) `{∀ x, Decision (P x)}.

Lemma filter_all (l : list A) : Forall P l → filter P l = l.
Proof.
  induction 1 as [|x l Hx Hl IH]; [done|].
  by rewrite filter_cons_True, IH.
Qed.

Lemma filter_none (l : list A) : Forall (λ x, ¬ P x) l → filter P l = [].
Proof.
  induction 1 as [|x l Hx Hl IH]; [done|].
  by rewrite filter_cons_False.
Qed.

Lemma filter_idem (l : list A) : filter P (filter P l) = filter P l.
Proof. apply list_filter_filter_l. auto. Qed.

End Filter.

Lemma filter_comm {A} (P Q : A → Prop)
    `{∀ x, Decision (P x), ∀ x, Decision (Q x)} (l : list A) :
  filter P (filter Q l) = filter Q (filter P l).
Proof.
  rewrite !list_filter_filter. apply list_filter_iff. naive_solver.
Qed.

End ListFacts.

Import ListFacts.

(** ** First occurrences *)

Module UniqueFacts.

Section Unique.
Context `{EqDecision A}.
Implicit Types (l : list A) (x y : A).

Lemma elem_of_unique l x : x ∈ unique l ↔ x ∈ l.
Proof.
  induction l as [|y l IH]; simpl; [done|].
  rewrite !elem_of_cons, list_elem_of_filter, IH.
  destruct (decide (x = y)); naive_solver.
Qed.

Lemma NoDup_unique l : NoDup (unique l).
Proof.
  induction l as [|y l IH]; simpl; [constructor|].
  constructor.
  - rewrite list_elem_of_filter. naive_solver.
  - by apply NoDup_filter.
Qed.

Lemma unique_NoDup l : NoDup l → unique l = l.
Proof.
  induction 1 as [|y l Hy Hl IH]; simpl; [done|].
  rewrite IH. f_equal. apply filter_all, Forall_forall.
  intros x Hx ->. done.
Qed.

(** Removing duplicates commutes with a filter. *)
Lemma unique_filter (P : A → Prop) `{∀ x, Decision (P x)} l :
  unique (filter P l) = filter P (unique l).
Proof.
  induction l as [|y l IH]; simpl; [done|].
  rewrite !filter_cons. destruct (decide (P y)) as [Hy|Hy]; simpl.
  - rewrite IH. f_equal. apply filter_comm.
  - rewrite IH, filter_comm. f_equal.
    symmetry. apply filter_all, Forall_forall.
    intros x [Hx _]%list_elem_of_filter ->. done.
Qed.

Lemma count_unique_le l x : (count x (unique l) ≤ count x l)%nat.
Proof.
  unfold count. rewrite <-unique_filter.
  induction (filter (λ y, y = x) l) as [|y k IH]; simpl; [lia|].
  pose proof (length_filter (λ z, z ≠ y) (unique k)). lia.
Qed.

End Unique.
End UniqueFacts.

Import UniqueFacts.

(** ** The cohort filter *)

Section Cohort.
Variable target : string.

Lemma select_program_Ok df df' :
  select_program target df = Ok df' →
  EDUCATION ∈ columns df ∧
  df' = keep (λ r, r !!! EDUCATION = Str target) df.
Proof.
  unfold select_program. intros H. inv_ok H.
  split; [by eapply require_Ok|done].
Qed.

Lemma cohort_filter_columns df df' :
  cohort_filter target df = Ok df' → EDUCATION ∉ columns df'.
Proof.
  unfold cohort_filter, drop_column. intros H. inv_ok H. subst df'. simpl.
  rewrite list_elem_of_filter. naive_solver.
Qed.

End Cohort.

(** C9, as stated, fails: the filter removes the program column, and a
    second application on [cohort_table]'s result looks that column up. *)
Lemma cohort_filter_not_reapplicable :
  (cohort_filter PROGRAM cohort_table ≫= cohort_filter PROGRAM)
  = Raise (KeyError EDUCATION) ∧
  (cohort_filter PROGRAM cohort_table ≫= cohort_filter PROGRAM)
  ≠ cohort_filter PROGRAM cohort_table.
Proof. split; [vm_compute; reflexivity|vm_compute; discriminate]. Qed.

(** C9 (amended): the row selection of the cohort filter (keep the rows
    whose program field equals the target exactly) is idempotent: applied to
    its own result it returns that result.  The whole filter, which also
    removes the program column, cannot be applied to its own output: the
    column lookup raises KeyError. *)
Theorem cohort_selection_idempotent (target : string) (df df1 df2 : DataFrame) :
  select_program target df = Ok df1 →
  cohort_filter target df = Ok df2 →
  select_program target df1 = Ok df1 ∧
  cohort_filter target df2 = Raise (KeyError EDUCATION).
Proof.
  intros [Hc ->]%select_program_Ok Hf%cohort_filter_columns. split.
  - unfold select_program. rewrite (require_in EDUCATION) by done. simpl.
    unfold keep. simpl. by rewrite filter_idem.
  - unfold cohort_filter, select_program.
    by rewrite (require_not_in EDUCATION).
Qed.

Lemma cohort_selection_idempotent_witness :
  ∃ df1 df2,
    select_program PROGRAM cohort_table = Ok df1 ∧
    cohort_filter PROGRAM cohort_table = Ok df2 ∧
    select_program PROGRAM df1 = Ok df1 ∧
    cohort_filter PROGRAM df2 = Raise (KeyError EDUCATION).
Proof.
  set (d1 := returned cohort_table (select_program PROGRAM cohort_table)).
  set (d2 := returned cohort_table (cohort_filter PROGRAM cohort_table)).
  assert (H1 : select_program PROGRAM cohort_table = Ok d1) by computed.
  assert (H2 : cohort_filter PROGRAM cohort_table = Ok d2) by computed.
  exists d1, d2. split; [exact H1|]. split; [exact H2|].
  exact (cohort_selection_idempotent PROGRAM cohort_table d1 d2 H1 H2).
Defined.

(** ** Stable sorting *)

Module SortFacts.

Section Sort.
Context {A : Type} (le : A → A → bool).
Implicit Types (l : list A) (x y : A).

Lemma insert_sorted_perm x l : insert_sorted le x l ≡ₚ x :: l.
Proof.
  induction l as [|y l IH]; simpl; [done|].
  destruct (le x y); [done|]. rewrite IH. apply Permutation_swap.
Qed.

Lemma stable_sort_perm l : stable_sort le l ≡ₚ l.
Proof.
  induction l as [|x l IH]; simpl; [done|].
  by rewrite insert_sorted_perm, IH.
Qed.

Lemma elem_of_stable_sort l x : x ∈ stable_sort le l ↔ x ∈ l.
Proof. by rewrite stable_sort_perm. Qed.

(** Elements that the order does not separate keep their relative order. *)
Lemma insert_sorted_filter (P : A → Prop) `{∀ x, Decision (P x)} x l :
  (P x → ∀ y, y ∈ l → P y → le x y = true) →
  filter P (insert_sorted le x l) = filter P (x :: l).
Proof.
  induction l as [|y l IH]; intros Hle; simpl; [done|].
  destruct (le x y) eqn:Hxy; [done|].
  rewrite filter_cons, IH by (intros; apply Hle; [|apply elem_of_cons|]; auto).
  rewrite !filter_cons.
  destruct (decide (P x)) as [Hx|Hx], (decide (P y)) as [Hy|Hy]; try done.
  rewrite Hle in Hxy; [done|done|apply elem_of_cons; by left|done].
Qed.

Lemma stable_sort_filter (P : A → Prop) `{∀ x, Decision (P x)} l :
  (∀ x y, P x → P y → le x y = true) →
  filter P (stable_sort le l) = filter P l.
Proof.
  intros Hle. induction l as [|x l IH]; simpl; [done|].
  rewrite insert_sorted_filter by auto.
  by rewrite !filter_cons, IH.
Qed.

(** One pass of a sort on the last key first: a list in order for [L] comes
    out in order for [le], and in order for [L] where [le] does not
    separate. *)
Section Pass.
Hypothesis le_total : ∀ x y, le x y = true ∨ le y x = true.
Hypothesis le_trans : ∀ x y z, le x y = true → le y z = true → le x z = true.
Variable L : A → A → Prop.

Lemma insert_sorted_refined x l :
  StronglySorted (refined le L) l → Forall (L x) l →
  StronglySorted (refined le L) (insert_sorted le x l).
Proof.
  induction 1 as [|y l Hl IH Hy]; intros HL; simpl.
  - repeat constructor.
  - apply Forall_cons in HL as [HLy HLl].
    destruct (le x y) eqn:Hxy.
    + constructor; [by constructor|].
      constructor; [by split|].
      rewrite Forall_forall in Hy, HLl |- *. intros z Hz.
      destruct (Hy z Hz) as [Hyz _]. split; eauto.
    + constructor; [auto|].
      rewrite insert_sorted_perm. constructor; [|done].
      destruct (le_total x y) as [Hc|Hc]; [congruence|].
      split; [done|]. congruence.
Qed.

Lemma stable_sort_refined l :
  StronglySorted L l → StronglySorted (refined le L) (stable_sort le l).
Proof.
  induction 1 as [|x l Hl IH Hx]; simpl; [constructor|].
  apply insert_sorted_refined; [done|].
  by rewrite stable_sort_perm.
Qed.

End Pass.
End Sort.

Lemma StronglySorted_impl {A} (R R' : A → A → Prop) (l : list A) :
  (∀ x y, R x y → R' x y) → StronglySorted R l → StronglySorted R' l.
Proof.
  intros HR. induction 1 as [|x l Hl IH Hx]; constructor; [done|].
  eapply Forall_impl; eauto.
Qed.

End SortFacts.

Import SortFacts.

(** ** The order of cells *)

Module OrderFacts.

Lemma ascii_compare_refl c : Ascii.compare c c = Eq.
Proof. unfold Ascii.compare. apply N.compare_refl. Qed.

Lemma string_compare_refl s : String.compare s s = Eq.
Proof.
  induction s as [|c s IH]; simpl; [done|]. by rewrite ascii_compare_refl.
Qed.

Lemma string_compare_trans s t u :
  String.compare s t ≠ Gt → String.compare t u ≠ Gt → String.compare s u ≠ Gt.
Proof.
  revert t u. induction s as [|a s IH]; intros [|b t] [|c u]; simpl; try done.
  unfold Ascii.compare.
  destruct (N.compare_spec (N_of_ascii a) (N_of_ascii b)) as [Hab|Hab|Hab];
    destruct (N.compare_spec (N_of_ascii b) (N_of_ascii c)) as [Hbc|Hbc|Hbc];
    destruct (N.compare_spec (N_of_ascii a) (N_of_ascii c)) as [Hac|Hac|Hac];
    try done; try lia.
  apply IH.
Qed.

Lemma value_cmp_refl a : value_cmp a a = Eq.
Proof.
  destruct a; simpl; [done|apply string_compare_refl|apply Z.compare_refl].
Qed.

Lemma value_cmp_antisym a b : value_cmp b a = CompOpp (value_cmp a b).
Proof.
  destruct a, b; simpl; try done.
  - apply String.compare_antisym.
  - apply Z.compare_antisym.
Qed.

Lemma value_cmp_eq a b : value_cmp a b = Eq → a = b.
Proof.
  destruct a, b; simpl; try done.
  - by intros ->%String.compare_eq_iff.
  - by intros ->%Z.compare_eq.
Qed.

Lemma value_leb_refl a : value_leb a a = true.
Proof. unfold value_leb. by rewrite value_cmp_refl. Qed.

Lemma value_leb_total a b : value_leb a b = true ∨ value_leb b a = true.
Proof.
  unfold value_leb. rewrite (value_cmp_antisym a b).
  destruct (value_cmp a b); simpl; auto.
Qed.

Lemma value_leb_trans a b c :
  value_leb a b = true → value_leb b c = true → value_leb a c = true.
Proof.
  unfold value_leb.
  destruct a as [|s|x], b as [|t|y], c as [|u|z]; simpl; try done.
  - pose proof (string_compare_trans s t u).
    destruct (String.compare s t), (String.compare t u), (String.compare s u);
      naive_solver.
  - destruct (Z.compare_spec x y), (Z.compare_spec y z), (Z.compare_spec x z);
      try done; lia.
Qed.

(** The lexicographic order on keys, one column at a time. *)
Lemma key_leb_cons a b k1 k2 :
  key_leb (a :: k1) (b :: k2) = true ↔
  value_leb a b = true ∧ (value_leb b a = true → key_leb k1 k2 = true).
Proof.
  unfold key_leb, value_leb. simpl. rewrite (value_cmp_antisym a b).
  destruct (value_cmp a b); simpl; naive_solver.
Qed.

End OrderFacts.

Import OrderFacts.

(** ** The final sort *)

Lemma sort_passes_sorted cols (l : list Row) :
  StronglySorted (key_le cols) (foldr sort_column l cols).
Proof.
  induction cols as [|c cols IH]; simpl.
  - induction l as [|r l IHl]; constructor; [done|].
    by apply Forall_forall.
  - unfold sort_column at 1.
    eapply StronglySorted_impl; [|apply stable_sort_refined, IH].
    + intros r1 r2 [H1 H2]. unfold key_le. simpl. by apply key_leb_cons.
    + intros r1 r2. apply value_leb_total.
    + intros r1 r2 r3. apply value_leb_trans.
Qed.

Lemma sort_passes_perm cols (l : list Row) : foldr sort_column l cols ≡ₚ l.
Proof.
  induction cols as [|c cols IH]; simpl; [done|].
  unfold sort_column at 1. by rewrite stable_sort_perm.
Qed.

Lemma sort_passes_stable cols cols' (k : list value) (l : list Row) :
  cols' ⊆ cols →
  filter (λ r, group_key cols r = k) (foldr sort_column l cols')
  = filter (λ r, group_key cols r = k) l.
Proof.
  induction cols' as [|c cols' IH]; intros Hsub; simpl; [done|].
  unfold sort_column at 1. rewrite stable_sort_filter.
  - apply IH. set_solver.
  - intros r1 r2 H1 H2.
    assert (Hc : c ∈ cols) by set_solver.
    assert (r1 !!! c = r2 !!! c) as ->; [|apply value_leb_refl].
    rewrite <-H2 in H1. clear -H1 Hc. unfold group_key in H1.
    induction cols as [|c' cols IH]; [by apply elem_of_nil in Hc|].
    simpl in H1. injection H1 as H1 H1'.
    apply elem_of_cons in Hc as [->|Hc]; auto.
Qed.

Lemma sort_rows_Ok df out :
  sort_rows df = Ok out → rows out = foldr sort_column (rows df) sort_key.
Proof.
  unfold sort_rows, sort_values. intros H. inv_ok H. by subst out.
Qed.

Lemma sort_rows_perm df out : sort_rows df = Ok out → rows out ≡ₚ rows df.
Proof. intros ->%sort_rows_Ok. apply sort_passes_perm. Qed.

Lemma sort_rows_returns df :
  STUDY_NUMBER ∈ columns df → COURSE_NUMBER ∈ columns df →
  SEMESTER_END ∈ columns df →
  sort_rows df
  = Ok {| columns := columns df;
          rows := foldr sort_column (rows df) sort_key |}.
Proof.
  intros H1 H2 H3. unfold sort_rows, sort_values, sort_key.
  rewrite !mapM_cons.
  by rewrite (require_in _ _ H1), (require_in _ _ H2), (require_in _ _ H3).
Qed.

(** C8: on a table that has the three key columns the final sort returns,
    and it returns the rows of the table in non-decreasing order of the key
    (student, course code, semester end date), compared column by column in
    this order: every row is at most every row further down; the rows are
    those of the input, and rows with equal keys come in the order they had
    before the sort. *)
Theorem sort_rows_stable (df : DataFrame) :
  STUDY_NUMBER ∈ columns df →
  COURSE_NUMBER ∈ columns df →
  SEMESTER_END ∈ columns df →
  ∃ out : DataFrame,
    sort_rows df = Ok out ∧
    StronglySorted (key_le [STUDY_NUMBER; COURSE_NUMBER; SEMESTER_END])
                   (rows out) ∧
    rows out ≡ₚ rows df ∧
    ∀ k : list value,
      filter (λ r, group_key [STUDY_NUMBER; COURSE_NUMBER; SEMESTER_END] r = k)
             (rows out)
      = filter (λ r, group_key [STUDY_NUMBER; COURSE_NUMBER; SEMESTER_END] r = k)
               (rows df).
Proof.
  intros H1 H2 H3. eexists. split; [by apply sort_rows_returns|]. cbn [rows].
  split; [exact (sort_passes_sorted sort_key _)|].
  split; [exact (sort_passes_perm sort_key _)|].
  intros k. by apply (sort_passes_stable sort_key sort_key).
Qed.

(** ** Dates *)

Module DateFacts.
Import Text Dates.

Lemma digit_char_cases n :
  ∃ k, 0 ≤ k < 10 ∧ n mod 10 = k ∧ digit_char n = chr (48 + k).
Proof.
  exists (n mod 10). split; [apply Z.mod_pos_bound; lia|done].
Qed.

Ltac digit_cases k Hk :=
  assert (k = 0 ∨ k = 1 ∨ k = 2 ∨ k = 3 ∨ k = 4 ∨ k = 5 ∨ k = 6 ∨ k = 7
          ∨ k = 8 ∨ k = 9) as Hk by lia;
  repeat (destruct Hk as [->|Hk]); [..|subst k].

Lemma digit_digit_char n : digit (digit_char n) = Some (n mod 10).
Proof.
  destruct (digit_char_cases n) as (k & Hk & -> & ->).
  digit_cases k Hk'; vm_compute; reflexivity.
Qed.

Lemma digit_char_not_dash n : digit_char n ≠ "-"%char.
Proof.
  destruct (digit_char_cases n) as (k & Hk & _ & ->).
  digit_cases k Hk'; vm_compute; discriminate.
Qed.

Lemma parse_2_pad2 n : 0 ≤ n < 100 → parse_2 (pad2 n) = Some n.
Proof.
  intros Hn. unfold parse_2, pad2. rewrite !digit_digit_char.
  f_equal. Z.to_euclidean_division_equations. lia.
Qed.

Lemma parse_Y_pad4 n : 0 ≤ n < 10000 → parse_Y (pad4 n) = Some n.
Proof.
  intros Hn. unfold parse_Y, pad4, pad2. rewrite !digit_digit_char.
  f_equal. Z.to_euclidean_division_equations. lia.
Qed.

Lemma split_cons_ne sep c s :
  c ≠ sep →
  split sep (String c s)
  = match split sep s with
    | t :: ts => String c t :: ts
    | [] => [String c EmptyString]
    end.
Proof. intros H. simpl. by rewrite bool_decide_eq_false_2. Qed.

Lemma split_cons_eq sep s : split sep (String sep s) = EmptyString :: split sep s.
Proof. simpl. by rewrite bool_decide_eq_true_2. Qed.

Lemma split_strftime d :
  split "-" (strftime d) = [pad4 (year d); pad2 (month d); pad2 (day d)].
Proof.
  unfold strftime, pad4, pad2. cbv [String.append].
  repeat first
    [ rewrite split_cons_eq
    | rewrite split_cons_ne by apply digit_char_not_dash ].
  reflexivity.
Qed.

Lemma valid_date_bounds d :
  valid_date d = true →
  1677 ≤ year d ≤ 2262 ∧ 1 ≤ month d ≤ 12 ∧ 1 ≤ day d ≤ 31.
Proof.
  unfold valid_date, date_ord, days_in_month.
  destruct d as [y m dd]. simpl. intros H.
  repeat (apply andb_true_iff in H as [H ?]).
  assert (dd ≤ 31).
  { repeat (destruct (_ =? _) || destruct (is_leap _) || simpl in * ); lia. }
  lia.
Qed.

Lemma checked_Some d d' : checked d = Some d' → d' = d ∧ valid_date d = true.
Proof. unfold checked. destruct (valid_date d); naive_solver. Qed.

(** What [strftime] writes is read back by the ISO parser. *)
Lemma parse_iso_strftime d :
  valid_date d = true → parse_iso (strftime d) = Some d.
Proof.
  intros Hv. pose proof (valid_date_bounds d Hv) as (Hy & Hm & Hd).
  unfold parse_iso. rewrite split_strftime.
  rewrite parse_Y_pad4, !parse_2_pad2 by lia. simpl.
  unfold checked. destruct d. simpl in *. by rewrite Hv.
Qed.

Lemma parse_dmy_valid s d : parse_dmy s = Some d → valid_date d = true.
Proof.
  unfold parse_dmy. intros H.
  repeat (case_match; try discriminate).
  repeat (apply bind_Some in H as (? & ? & H)).
  by apply checked_Some in H as [-> ?].
Qed.

Lemma parse_dmy_nat_strings s : s ∈ nat_strings → parse_dmy s = None.
Proof.
  unfold nat_strings. rewrite !elem_of_cons, elem_of_nil.
  intros H. repeat (destruct H as [->|H]); try done.
Qed.

Lemma strftime_not_nat d : strftime d ∉ nat_strings.
Proof.
  unfold nat_strings, strftime, pad4, pad2. cbv [String.append].
  rewrite !elem_of_cons, elem_of_nil.
  intros H. repeat (destruct H as [H|H]); try done; discriminate.
Qed.

Lemma to_datetime_strftime d :
  valid_date d = true → to_datetime parse_iso (Str (strftime d)) = Ok (Some d).
Proof.
  intros Hv. unfold to_datetime.
  rewrite bool_decide_eq_false_2 by apply strftime_not_nat.
  by rewrite parse_iso_strftime.
Qed.

Lemma get_semester_strftime d :
  valid_date d = true → get_semester (Str (strftime d)) = Ok (label d).
Proof.
  intros Hv. unfold get_semester. by rewrite to_datetime_strftime.
Qed.

Lemma str_int_inj x y : str_int x = str_int y → x = y.
Proof.
  unfold str_int. intros H. apply DecimalZ.to_int_inj.
  assert (Hp : ∀ z, NilZero.int_of_string (NilZero.string_of_int (Z.to_int z))
                    = Some (Z.to_int z)).
  { intros z. apply NilZero.isi; destruct z; simpl; try discriminate;
      intros [= Hz]; by apply DecimalPos.Unsigned.to_uint_nonnil in Hz. }
  apply (f_equal NilZero.int_of_string) in H. rewrite !Hp in H. congruence.
Qed.

Lemma label_inj d d' :
  label d = label d' → is_fall d = is_fall d' ∧ year d = year d'.
Proof.
  unfold label. destruct (is_fall d), (is_fall d');
    cbv [String.append]; intros [= H]; by apply str_int_inj in H.
Qed.



Lemma prefix_cons a s1 b s2 :
  String.prefix (String a s1) (String b s2)
  = if ascii_dec a b then String.prefix s1 s2 else false.
Proof. reflexivity. Qed.



End DateFacts.

Import DateFacts.

(** ** Grouping *)

Module GroupFacts.

Lemma elem_of_concat {A} (x : A) (ls : list (list A)) :
  x ∈ concat ls ↔ ∃ l, l ∈ ls ∧ x ∈ l.
Proof.
  induction ls as [|l ls IH]; simpl.
  - split; [by intros ?%elem_of_nil|]. by intros (l & ?%elem_of_nil & _).
  - rewrite elem_of_app, IH. split.
    + intros [H|(l' & H1 & H2)]; [exists l|exists l'];
        rewrite elem_of_cons; auto.
    + intros (l' & [->|H1]%elem_of_cons & H2); eauto.
Qed.

Lemma elem_of_group_keys cols (l : list Row) k :
  k ∈ group_keys cols l ↔ ∃ r, r ∈ l ∧ grouped cols r ∧ group_key cols r = k.
Proof.
  unfold group_keys.
  rewrite elem_of_stable_sort, elem_of_unique, list_elem_of_fmap.
  setoid_rewrite list_elem_of_filter. naive_solver.
Qed.

Lemma NoDup_group_keys cols (l : list Row) : NoDup (group_keys cols l).
Proof.
  unfold group_keys. rewrite stable_sort_perm. apply NoDup_unique.
Qed.

Lemma elem_of_group cols k (l : list Row) r :
  r ∈ group cols k l ↔ group_key cols r = k ∧ r ∈ l.
Proof. unfold group. by rewrite list_elem_of_filter. Qed.

Lemma group_nonempty cols k (l : list Row) :
  k ∈ group_keys cols l → group cols k l ≠ [].
Proof.
  intros (r & Hr & _ & Hk)%elem_of_group_keys Hnil.
  assert (r ∈ group cols k l) as Hin by by apply elem_of_group.
  rewrite Hnil in Hin. by apply elem_of_nil in Hin.
Qed.

(** The rows a grouped [apply] returns come from the groups, and every
    group is passed to the function. *)
Lemma groupby_apply_Ok cols f (l l' : list Row) :
  groupby_apply cols f l = Ok l' →
  ∃ groups,
    Forall2 (λ k g, f (group cols k l) = Ok g) (group_keys cols l) groups ∧
    l' = concat groups.
Proof.
  unfold groupby_apply. intros H. inv_ok H.
  eexists. split; [by apply mapM_Ok|done].
Qed.

Lemma groupby_apply_elem cols f (l l' : list Row) r :
  groupby_apply cols f l = Ok l' → r ∈ l' →
  ∃ k g, k ∈ group_keys cols l ∧ f (group cols k l) = Ok g ∧ r ∈ g.
Proof.
  intros (groups & HF & ->)%groupby_apply_Ok (g & Hg & Hr)%elem_of_concat.
  apply list_elem_of_lookup in Hg as [i Hi].
  destruct (Forall2_lookup_r _ _ _ _ _ HF Hi) as (k & Hk & Hf).
  exists k, g. split; [|done]. apply list_elem_of_lookup. eauto.
Qed.

Lemma groupby_apply_group cols f (l l' : list Row) k :
  groupby_apply cols f l = Ok l' → k ∈ group_keys cols l →
  ∃ g, f (group cols k l) = Ok g ∧ ∀ r, r ∈ g → r ∈ l'.
Proof.
  intros (groups & HF & ->)%groupby_apply_Ok [i Hi]%list_elem_of_lookup.
  destruct (Forall2_lookup_l _ _ _ _ _ HF Hi) as (g & Hg & Hf).
  exists g. split; [done|]. intros r Hr. apply elem_of_concat.
  exists g. split; [|done]. apply list_elem_of_lookup. eauto.
Qed.

End GroupFacts.

Import GroupFacts.

(** ** Column updates row by row *)

Module StageFacts.

Lemma to_iso_Ok df df1 :
  to_iso df = Ok df1 →
  Forall2 (λ r r1, ∃ v, iso_date (r !!! GRADING_DATE) = Ok v ∧
                        r1 = <[GRADING_DATE := v]> r)
          (rows df) (rows df1).
Proof.
  unfold to_iso. intros H. inv_ok H. subst df1. simpl.
  eapply Forall2_impl; [by apply mapM_Ok|].
  intros r r1 Hr. simpl in Hr. inv_ok Hr. eauto.
Qed.

Lemma add_semester_Ok df df1 :
  add_semester df = Ok df1 →
  Forall2 (λ r r1, ∃ s, get_semester (r !!! GRADING_DATE) = Ok s ∧
                        r1 = <[SEMESTER := Str s]> r)
          (rows df) (rows df1).
Proof.
  unfold add_semester. intros H. inv_ok H. subst df1. simpl.
  eapply Forall2_impl; [by apply mapM_Ok|].
  intros r r1 Hr. simpl in Hr. inv_ok Hr. eauto.
Qed.

Lemma iso_date_parsed s d :
  Dates.parse_dmy s = Some d → iso_date (Str s) = Ok (Str (Dates.strftime d)).
Proof.
  intros Hp. unfold iso_date, Dates.to_datetime.
  rewrite bool_decide_eq_false_2.
  - by rewrite Hp.
  - intros Hn%parse_dmy_nat_strings. congruence.
Qed.

(** The label is the one of the date that the date column holds. *)
Lemma get_semester_Ok v s :
  get_semester v = Ok s →
  ∃ o, Dates.to_datetime Dates.parse_iso v = Ok o ∧
       s = match o with Some d => label d | None => "Spring nan"%string end.
Proof.
  unfold get_semester. intros H. inv_ok H. exists x. split; [done|].
  subst s. by destruct x.
Qed.

End StageFacts.

Import StageFacts.

(** ** The semester labeler *)

(** C6: for every record whose grading date is a text in day/month/year
    form, the date normalizer writes the date in ISO form and the semester
    labeler then labels the record "Fall <year>" when the month is 10-12 or
    1-4 and "Spring <year>" when the month is 5-9, with the date's own year;
    on such a date both functions return; the record dated "15/01/2023"
    gets "2023-01-15" and "Fall 2023". *)
Theorem semester_label_of_grading_date (df df1 df2 : DataFrame) :
  to_iso df = Ok df1 →
  add_semester df1 = Ok df2 →
  (∀ (i : nat) (r : Row) (s : string) (d : date),
     rows df !! i = Some r →
     r !!! GRADING_DATE = Str s →
     Dates.parse_dmy s = Some d →
     ∃ r2 : Row,
       rows df2 !! i = Some r2 ∧
       r2 !!! GRADING_DATE = Str (Dates.strftime d) ∧
       1 ≤ month d ≤ 12 ∧
       (10 ≤ month d ≤ 12 ∨ 1 ≤ month d ≤ 4 →
        r2 !!! SEMESTER = Str ("Fall " +:+ Dates.str_int (year d))) ∧
       (5 ≤ month d ≤ 9 →
        r2 !!! SEMESTER = Str ("Spring " +:+ Dates.str_int (year d)))) ∧
  (∀ (s : string) (d : date),
     Dates.parse_dmy s = Some d →
     iso_date (Str s) = Ok (Str (Dates.strftime d)) ∧
     ∃ lbl : string, get_semester (Str (Dates.strftime d)) = Ok lbl) ∧
  iso_date (Str "15/01/2023") = Ok (Str "2023-01-15") ∧
  get_semester (Str "2023-01-15") = Ok "Fall 2023"%string.
Proof.
  intros H1%to_iso_Ok H2%add_semester_Ok.
  split; [|split; [|split; vm_compute; reflexivity]].
  2:{ intros s d Hd. split; [by apply iso_date_parsed|].
      eexists. apply get_semester_strftime. by eapply parse_dmy_valid. }
  intros i r s d Hi Hs Hd.
  destruct (Forall2_lookup_l _ _ _ _ _ H1 Hi) as (r1 & Hi1 & v & Hv & ->).
  destruct (Forall2_lookup_l _ _ _ _ _ H2 Hi1) as (r2 & Hi2 & lbl & Hl & ->).
  rewrite Hs, (iso_date_parsed _ _ Hd) in Hv. injection Hv as <-.
  rewrite lookup_total_insert_eq in Hl.
  pose proof (parse_dmy_valid _ _ Hd) as Hvalid.
  rewrite (get_semester_strftime _ Hvalid) in Hl. injection Hl as <-.
  pose proof (valid_date_bounds _ Hvalid) as (_ & Hm & _).
  exists (<[SEMESTER := Str (label d)]> (<[GRADING_DATE := Str (Dates.strftime d)]> r)).
  split; [done|].
  rewrite lookup_total_insert_ne, !lookup_total_insert_eq by done.
  split; [done|]. split; [done|].
  unfold label, is_fall. split; intros Hmonth.
  - rewrite (proj2 (orb_true_iff _ _)); [done|]. lia.
  - rewrite (proj2 (orb_false_iff _ _)); [done|]. lia.
Qed.

Lemma semester_label_of_grading_date_witness :
  ∃ df1 df2,
    to_iso cohort_table = Ok df1 ∧
    add_semester df1 = Ok df2 ∧
    ((∀ (i : nat) (r : Row) (s : string) (d : date),
       rows cohort_table !! i = Some r →
       r !!! GRADING_DATE = Str s →
       Dates.parse_dmy s = Some d →
       ∃ r2 : Row,
         rows df2 !! i = Some r2 ∧
         r2 !!! GRADING_DATE = Str (Dates.strftime d) ∧
         1 ≤ month d ≤ 12 ∧
         (10 ≤ month d ≤ 12 ∨ 1 ≤ month d ≤ 4 →
          r2 !!! SEMESTER = Str ("Fall " +:+ Dates.str_int (year d))) ∧
         (5 ≤ month d ≤ 9 →
          r2 !!! SEMESTER = Str ("Spring " +:+ Dates.str_int (year d)))) ∧
     (∀ (s : string) (d : date),
        Dates.parse_dmy s = Some d →
        iso_date (Str s) = Ok (Str (Dates.strftime d)) ∧
        ∃ lbl : string, get_semester (Str (Dates.strftime d)) = Ok lbl) ∧
     iso_date (Str "15/01/2023") = Ok (Str "2023-01-15") ∧
     get_semester (Str "2023-01-15") = Ok "Fall 2023"%string).
Proof.
  set (d1 := returned cohort_table (to_iso cohort_table)).
  set (d2 := returned cohort_table (add_semester d1)).
  assert (H1 : to_iso cohort_table = Ok d1) by computed.
  assert (H2 : add_semester d1 = Ok d2) by computed.
  exists d1, d2. split; [exact H1|]. split; [exact H2|].
  exact (semester_label_of_grading_date cohort_table d1 d2 H1 H2).
Defined.

(** ** The semester-date aligner *)

Module AlignFacts.
Import Dates.

Lemma Timestamp_Ok y m d t : Timestamp y m d = Ok t → t = mkDate y m d.
Proof.
  unfold Timestamp. destruct (calendar_date _); [|discriminate].
  by intros [= <-].
Qed.

Lemma set_semester_Ok first rest g :
  set_semester_grading_dates (first :: rest) = Ok g →
  ∃ lbl ds d0,
    first !!! SEMESTER = Str lbl ∧
    Forall2 (λ r d, to_datetime parse_iso (r !!! GRADING_DATE) = Ok (Some d))
            (first :: rest) ds ∧
    head ds = Some d0 ∧
    g = (λ r, <[SEMESTER_END :=
                  Str (strftime (mkDate (year d0)
                         (if Text.contains "Spring" lbl then 6 else 12) 1))]> r)
        <$> (first :: rest).
Proof.
  unfold set_semester_grading_dates. intros H.
  apply bind_Ok in H as (dates & Hdates%mapM_Ok & H).
  destruct (first !!! SEMESTER) as [|lbl|] eqn:Hlbl; try discriminate.
  destruct (mapM id dates) as [[|d0 ds]|] eqn:Hds; try discriminate.
  apply bind_Ok in H as (new_date & Hnew & [= <-]).
  exists lbl, (d0 :: ds), d0. split; [done|]. split; [|split; [done|]].
  - apply mapM_Some in Hds. clear -Hdates Hds.
    revert Hds. generalize (d0 :: ds). clear d0 ds.
    induction Hdates as [|r o l k Hr Hl IH]; intros ds Hds.
    + inversion Hds. constructor.
    + inversion Hds as [|? d ? ds' Ho Hk]; subst. simpl in Ho. subst o.
      constructor; auto.
  - destruct (Text.contains "Spring" lbl);
      by apply Timestamp_Ok in Hnew as ->.
Qed.

Lemma align_rows df df' :
  align df = Ok df' →
  groupby_apply semester_key set_semester_grading_dates (rows df)
  = Ok (rows df').
Proof.
  unfold align. intros H. inv_ok H.
  case_bool_decide as Hk.
  - apply ret_Ok in H. subst df'. unfold groupby_apply. by rewrite Hk.
  - inv_ok H. subst df'. done.
Qed.

(** A row of the aligned table is a row of the input with the end date of
    its group, which is computed from the first row of the group. *)
Lemma align_elem df df' r :
  align df = Ok df' → r ∈ rows df' →
  ∃ r0 first lbl d d0,
    r0 ∈ rows df ∧ first ∈ rows df ∧
    group_key semester_key r0 = group_key semester_key first ∧
    first !!! SEMESTER = Str lbl ∧
    to_datetime parse_iso (r0 !!! GRADING_DATE) = Ok (Some d) ∧
    to_datetime parse_iso (first !!! GRADING_DATE) = Ok (Some d0) ∧
    r = <[SEMESTER_END :=
            Str (strftime (mkDate (year d0)
                   (if Text.contains "Spring" lbl then 6 else 12) 1))]> r0.
Proof.
  intros Ha%align_rows Hr.
  destruct (groupby_apply_elem _ _ _ _ _ Ha Hr) as (k & g & Hk & Hg & Hrg).
  pose proof (group_nonempty _ _ _ Hk) as Hne.
  destruct (group semester_key k (rows df)) as [|first rest] eqn:Hgroup; [done|].
  apply set_semester_Ok in Hg as (lbl & ds & d0 & Hlbl & Hds & Hd0 & ->).
  apply list_elem_of_fmap in Hrg as (r0 & -> & Hr0).
  assert (Hfirst : first ∈ group semester_key k (rows df))
    by (rewrite Hgroup; apply elem_of_cons; by left).
  rewrite <-Hgroup in Hr0.
  apply elem_of_group in Hr0 as [Hk0 Hr0], Hfirst as [Hk1 Hfirst].
  assert (Hr0g : r0 ∈ first :: rest).
  { rewrite <-Hgroup. by apply elem_of_group. }
  apply list_elem_of_lookup in Hr0g as [i Hi].
  destruct (Forall2_lookup_l _ _ _ _ _ Hds Hi) as (d & _ & Hd).
  inversion Hds as [|? d0' ? ? Hfd]; subst. simpl in Hd0. injection Hd0 as ->.
  exists r0, first, lbl, d, d0. repeat split; try done; congruence.
Qed.

Lemma add_semester_elem df df' r :
  add_semester df = Ok df' → r ∈ rows df' →
  ∃ s, get_semester (r !!! GRADING_DATE) = Ok s ∧ r !!! SEMESTER = Str s.
Proof.
  intros H%add_semester_Ok [i Hi]%list_elem_of_lookup.
  destruct (Forall2_lookup_r _ _ _ _ _ H Hi) as (r' & _ & s & Hs & ->).
  exists s. by rewrite lookup_total_insert_ne, lookup_total_insert_eq.
Qed.

Lemma labelled df df' r d :
  add_semester df = Ok df' → r ∈ rows df' →
  to_datetime parse_iso (r !!! GRADING_DATE) = Ok (Some d) →
  get_semester (r !!! GRADING_DATE) = Ok (label d) ∧
  r !!! SEMESTER = Str (label d).
Proof.
  intros H Hr Hd. destruct (add_semester_elem _ _ _ H Hr) as (s & Hs & Hl).
  destruct (get_semester_Ok _ _ Hs) as (o & Ho & ->).
  rewrite Hd in Ho. injection Ho as <-. done.
Qed.

End AlignFacts.

Import AlignFacts.

(** What the aligner has written when it returns. *)
Lemma aligned_rows (df1 df2 df3 : DataFrame) :
  add_semester df1 = Ok df2 →
  align df2 = Ok df3 →
  (∀ r : Row, r ∈ rows df3 →
     ∃ (d : date) (lbl : string),
       Dates.to_datetime Dates.parse_iso (r !!! GRADING_DATE) = Ok (Some d) ∧
       get_semester (r !!! GRADING_DATE) = Ok lbl ∧
       r !!! SEMESTER = Str lbl ∧
       r !!! SEMESTER_END
       = Str (Dates.strftime
                (mkDate (year d)
                        (if Text.contains "Spring" lbl then 6 else 12) 1))) ∧
  (∀ r r' : Row, r ∈ rows df3 → r' ∈ rows df3 →
     r !!! STUDY_NUMBER = r' !!! STUDY_NUMBER →
     r !!! SEMESTER = r' !!! SEMESTER →
     r !!! SEMESTER_END = r' !!! SEMESTER_END) ∧
  (∀ r2 : Row, r2 ∈ rows df2 → r2 !!! STUDY_NUMBER ≠ NaN →
     ∃ v : value, <[SEMESTER_END := v]> r2 ∈ rows df3).
Proof.
  intros Hs Ha.
  assert (Hrow : ∀ r, r ∈ rows df3 →
    ∃ d, Dates.to_datetime Dates.parse_iso (r !!! GRADING_DATE) = Ok (Some d) ∧
         get_semester (r !!! GRADING_DATE) = Ok (label d) ∧
         r !!! SEMESTER = Str (label d) ∧
         r !!! SEMESTER_END
         = Str (Dates.strftime
                  (mkDate (year d)
                     (if Text.contains "Spring" (label d) then 6 else 12) 1))).
  { intros r Hr.
    destruct (align_elem _ _ _ Ha Hr)
      as (r0 & first & lbl & d & d0 & Hr0 & Hf & Hk & Hlbl & Hd & Hd0 & ->).
    destruct (labelled _ _ _ _ Hs Hr0 Hd) as [Hg0 Hl0].
    destruct (labelled _ _ _ _ Hs Hf Hd0) as [_ Hl1].
    rewrite Hlbl in Hl1. injection Hl1 as ->.
    unfold group_key, semester_key in Hk. simpl in Hk.
    injection Hk as _ Hk. rewrite Hl0, Hlbl in Hk. injection Hk as Hk.
    apply label_inj in Hk as Hy. destruct Hy as [_ Hy].
    exists d.
    rewrite !lookup_total_insert_ne, lookup_total_insert_eq by done.
    by rewrite <-Hk, <-Hy. }
  split; [|split].
  - intros r Hr. destruct (Hrow r Hr) as (d & H1 & H2 & H3 & H4).
    by exists d, (label d).
  - intros r r' Hr Hr' _ Hsem.
    destruct (Hrow r Hr) as (d & _ & _ & H3 & H4).
    destruct (Hrow r' Hr') as (d' & _ & _ & H3' & H4').
    rewrite H3, H3' in Hsem. injection Hsem as Hsem.
    apply label_inj in Hsem as Hy. destruct Hy as [_ Hy].
    by rewrite H4, H4', Hsem, Hy.
  - intros r2 Hr2 Hstudent.
    destruct (add_semester_elem _ _ _ Hs Hr2) as (s & _ & Hsem).
    assert (Hk : group_key semester_key r2 ∈ group_keys semester_key (rows df2)).
    { apply elem_of_group_keys. exists r2. split; [done|]. split; [|done].
      unfold grouped, group_key, semester_key. simpl.
      rewrite !elem_of_cons, elem_of_nil, Hsem. naive_solver. }
    apply align_rows in Ha.
    destruct (groupby_apply_group _ _ _ _ _ Ha Hk) as (g & Hg & Hin).
    assert (Hr2g : r2 ∈ group semester_key (group_key semester_key r2) (rows df2))
      by by apply elem_of_group.
    destruct (group semester_key _ (rows df2)) as [|first rest];
      [by apply elem_of_nil in Hr2g|].
    apply set_semester_Ok in Hg as (lbl & ds & d0 & _ & _ & _ & ->).
    eexists. apply Hin. apply list_elem_of_fmap. exists r2. split; [reflexivity|done].
Qed.

(** ** The attempt counter *)

Module AttemptFacts.

Section Count.
Context `{EqDecision A}.
Implicit Types (l : list A) (x y : A).

Lemma count_nil x : count x [] = O.
Proof. done. Qed.

Lemma count_cons x y l :
  count x (y :: l) = ((if decide (y = x) then 1 else 0) + count x l)%nat.
Proof. unfold count. rewrite filter_cons. by destruct (decide (y = x)). Qed.

Lemma count_app x l1 l2 : count x (l1 ++ l2) = (count x l1 + count x l2)%nat.
Proof. unfold count. by rewrite filter_app, length_app. Qed.

Lemma count_not_elem x l : x ∉ l → count x l = O.
Proof.
  intros Hx. unfold count. rewrite filter_none; [done|].
  apply Forall_forall. by intros y Hy ->.
Qed.

Lemma count_elem x l : x ∈ l → (0 < count x l)%nat.
Proof.
  intros (l1 & l2 & ->)%list_elem_of_split.
  rewrite count_app, count_cons, decide_True by done. lia.
Qed.

Lemma count_perm x l1 l2 : l1 ≡ₚ l2 → count x l1 = count x l2.
Proof. unfold count. by intros ->. Qed.

Lemma count_fmap {B} (f : B → A) x (l : list B) :
  count x (f <$> l) = length (filter (λ b, f b = x) l).
Proof.
  unfold count. induction l as [|b l IH]; [done|].
  rewrite fmap_cons, !filter_cons.
  destruct (decide (f b = x)); simpl; by rewrite IH.
Qed.

End Count.

Lemma length_cumcount cols seen (l : list Row) :
  length (cumcount cols seen l) = length l.
Proof.
  revert seen. induction l as [|r l IH]; intros seen; simpl; [done|].
  by rewrite IH.
Qed.

(** The counter of a row is the number of rows of its group above it. *)
Lemma cumcount_lookup cols seen (l : list Row) i r :
  l !! i = Some r → NaN ∉ group_key cols r →
  cumcount cols seen l !! i
  = Some (Int (Z.of_nat (count (group_key cols r) seen
                         + count (group_key cols r)
                                 (group_key cols <$> take i l)))).
Proof.
  revert seen i. induction l as [|r0 l IH]; intros seen [|i] Hi Hk;
    simpl in *; try done.
  - injection Hi as ->. rewrite bool_decide_eq_false_2 by done.
    do 3 f_equal. change (count (group_key cols r) []) with O. lia.
  - rewrite (IH _ _ Hi Hk), !count_cons. do 3 f_equal.
    change (list_fmap _ _ ?f ?k) with (f <$> k).
    destruct (decide (group_key cols r0 = group_key cols r)); lia.
Qed.

Lemma count_take_lt `{EqDecision A} (l : list A) i j x :
  (i < j)%nat → l !! i = Some x → (count x (take i l) < count x (take j l))%nat.
Proof.
  intros Hij (l1 & l2 & -> & ->)%list_elem_of_split_length.
  rewrite take_app_length, take_app_ge by lia.
  replace (j - length l1)%nat with (S (j - length l1 - 1)) by lia.
  rewrite firstn_cons, count_app, count_cons, decide_True by done. lia.
Qed.

Lemma attempt_key_insert (r : Row) v :
  group_key attempt_key (<[ATTEMPT := v]> r) = group_key attempt_key r.
Proof.
  unfold group_key, attempt_key. simpl.
  by rewrite !lookup_total_insert_ne by done.
Qed.

Lemma add_attempt_lookup df out i r' :
  add_attempt df = Ok out → rows out !! i = Some r' →
  ∃ r v, rows df !! i = Some r ∧
         (add_one <$> cumcount attempt_key [] (rows df)) !! i = Some v ∧
         r' = <[ATTEMPT := v]> r.
Proof.
  unfold add_attempt. intros H Hi. inv_ok H. subst out. simpl in Hi.
  apply lookup_zip_with_Some in Hi as (r & v & -> & Hr & Hv). eauto.
Qed.

End AttemptFacts.

Import AttemptFacts.

(** C3, as stated, fails: in [retake_table] student s1 has two records of
    course 02132; the one graded in June 2021 comes out as attempt 2 and the
    one graded in December 2022 as attempt 1. *)
Lemma attempts_not_chronological :
  (pipeline retake_table ≫= λ out,
     mret ((λ r, (r !!! COURSE_NUMBER, r !!! GRADING_DATE, r !!! ATTEMPT))
           <$> rows out))
  = Ok [(Str "01005", Str "2023-01-15", Int 1);
        (Str "02132", Str "2021-06-01", Int 2);
        (Str "02132", Str "2022-12-15", Int 1)] ∧
  ¬ (∀ out r1 r2,
       pipeline retake_table = Ok out →
       r1 ∈ rows out → r2 ∈ rows out →
       r1 !!! STUDY_NUMBER = r2 !!! STUDY_NUMBER →
       r1 !!! COURSE_NUMBER = r2 !!! COURSE_NUMBER →
       value_cmp (r1 !!! GRADING_DATE) (r2 !!! GRADING_DATE) = Lt →
       value_cmp (r1 !!! ATTEMPT) (r2 !!! ATTEMPT) = Lt).
Proof.
  split; [computed|]. intros H.
  set (out := returned retake_table (pipeline retake_table)).
  assert (Hout : pipeline retake_table = Ok out) by computed.
  assert (H1 : bool_decide (rows out !!! 1%nat ∈ rows out) = true) by computed.
  assert (H2 : bool_decide (rows out !!! 2%nat ∈ rows out) = true) by computed.
  apply bool_decide_eq_true_1 in H1, H2.
  specialize (H out _ _ Hout H1 H2).
  assert (Hc : value_cmp ((rows out !!! 1%nat) !!! ATTEMPT)
                         ((rows out !!! 2%nat) !!! ATTEMPT) = Gt) by computed.
  rewrite H in Hc; [discriminate|computed..].
Qed.

(** C3 (amended): the attempt counter numbers the records of every
    (student, course code) group 1, 2, 3, ... in the row order the table has
    when the counter runs: the attempt number of a record is one more than
    the number of records of its group above it, so of two records of a
    group the one higher in the table has the lower number.  Grading dates
    are not consulted. *)
Theorem attempts_follow_row_order (df out : DataFrame) :
  add_attempt df = Ok out →
  (∀ (i : nat) (r : Row),
     rows df !! i = Some r →
     NaN ∉ group_key attempt_key r →
     rows out !! i
     = Some (<[ATTEMPT :=
                 Int (1 + Z.of_nat
                        (length (filter
                           (λ r0, group_key attempt_key r0
                                  = group_key attempt_key r)
                           (take i (rows df)))))]> r)) ∧
  (∀ (i j : nat) (r1 r2 : Row),
     (i < j)%nat →
     rows out !! i = Some r1 → rows out !! j = Some r2 →
     group_key attempt_key r1 = group_key attempt_key r2 →
     NaN ∉ group_key attempt_key r1 →
     ∃ a b : Z,
       r1 !!! ATTEMPT = Int a ∧ r2 !!! ATTEMPT = Int b ∧ 1 ≤ a < b).
Proof.
  intros Hadd.
  assert (Hrow : ∀ i r, rows df !! i = Some r →
    NaN ∉ group_key attempt_key r →
    rows out !! i
    = Some (<[ATTEMPT :=
                Int (1 + Z.of_nat (count (group_key attempt_key r)
                         (group_key attempt_key <$> take i (rows df))))]> r)).
  { intros i r Hi Hk. pose proof Hadd as H. unfold add_attempt in H.
    inv_ok H. subst out. cbn [rows with_column].
    apply lookup_zip_with_Some. eexists r, _.
    split; [reflexivity|]. split; [done|].
    rewrite list_lookup_fmap, (cumcount_lookup _ _ _ _ _ Hi Hk).
    change (count (group_key attempt_key r) []) with O.
    cbn [fmap option_fmap option_map add_one]. do 2 f_equal. lia. }
  split.
  - intros i r Hi Hk. rewrite (Hrow i r Hi Hk). by rewrite count_fmap.
  - intros i j r1 r2 Hij Hi Hj Hkey Hk.
    destruct (add_attempt_lookup _ _ _ _ Hadd Hi) as (r1' & v1 & Hi' & _ & ->).
    destruct (add_attempt_lookup _ _ _ _ Hadd Hj) as (r2' & v2 & Hj' & _ & ->).
    rewrite !attempt_key_insert in Hkey. rewrite attempt_key_insert in Hk.
    rewrite (Hrow i r1' Hi' Hk) in Hi.
    rewrite (Hrow j r2' Hj') in Hj by by rewrite <-Hkey.
    apply (inj Some) in Hi, Hj. rewrite <-Hi, <-Hj.
    rewrite !lookup_total_insert_eq. eexists _, _.
    split; [reflexivity|]. split; [reflexivity|].
    rewrite <-Hkey.
    assert (Hlt := count_take_lt (group_key attempt_key <$> rows df) i j
                     (group_key attempt_key r1') Hij).
    rewrite list_lookup_fmap, Hi' in Hlt. specialize (Hlt eq_refl).
    rewrite <-!fmap_take in Hlt. lia.
Qed.

Lemma attempts_follow_row_order_witness :
  ∃ df out,
    add_attempt df = Ok out ∧
    (∀ (i : nat) (r : Row),
       rows df !! i = Some r →
       NaN ∉ group_key attempt_key r →
       rows out !! i
       = Some (<[ATTEMPT :=
                   Int (1 + Z.of_nat
                          (length (filter
                             (λ r0, group_key attempt_key r0
                                    = group_key attempt_key r)
                             (take i (rows df)))))]> r)) ∧
    (∀ (i j : nat) (r1 r2 : Row),
       (i < j)%nat →
       rows out !! i = Some r1 → rows out !! j = Some r2 →
       group_key attempt_key r1 = group_key attempt_key r2 →
       NaN ∉ group_key attempt_key r1 →
       ∃ a b : Z,
         r1 !!! ATTEMPT = Int a ∧ r2 !!! ATTEMPT = Int b ∧ 1 ≤ a < b).
Proof.
  set (df := returned retake_table
               ((to_iso retake_table ≫= add_semester) ≫= align)).
  set (out := returned retake_table (add_attempt df)).
  assert (H : add_attempt df = Ok out) by computed.
  exists df, out. split; [exact H|].
  exact (attempts_follow_row_order df out H).
Defined.

Lemma sort_rows_stable_witness :
  ∃ df,
    STUDY_NUMBER ∈ columns df ∧
    COURSE_NUMBER ∈ columns df ∧
    SEMESTER_END ∈ columns df ∧
    ∃ out : DataFrame,
      sort_rows df = Ok out ∧
      StronglySorted (key_le [STUDY_NUMBER; COURSE_NUMBER; SEMESTER_END])
                     (rows out) ∧
      rows out ≡ₚ rows df ∧
      ∀ k : list value,
        filter (λ r, group_key [STUDY_NUMBER; COURSE_NUMBER; SEMESTER_END] r = k)
               (rows out)
        = filter (λ r, group_key [STUDY_NUMBER; COURSE_NUMBER; SEMESTER_END] r = k)
                 (rows df).
Proof.
  set (df := returned retake_table
               (((to_iso retake_table ≫= add_semester) ≫= align)
                ≫= add_attempt)).
  assert (H1 : STUDY_NUMBER ∈ columns df)
    by (apply (bool_decide_eq_true_1 (STUDY_NUMBER ∈ columns df)); computed).
  assert (H2 : COURSE_NUMBER ∈ columns df)
    by (apply (bool_decide_eq_true_1 (COURSE_NUMBER ∈ columns df)); computed).
  assert (H3 : SEMESTER_END ∈ columns df)
    by (apply (bool_decide_eq_true_1 (SEMESTER_END ∈ columns df)); computed).
  exists df. split; [exact H1|]. split; [exact H2|]. split; [exact H3|].
  exact (sort_rows_stable df H1 H2 H3).
Defined.

(** ** The course-code canonicalizer *)

Module CanonFacts.





Lemma elem_of_dropna col v : v ∈ dropna col ↔ v ≠ NaN ∧ v ∈ col.
Proof. unfold dropna. by rewrite list_elem_of_filter. Qed.

Lemma elem_of_value_counts col p :
  p ∈ value_counts col ↔ ∃ v, p = (v, count v col) ∧ v ≠ NaN ∧ v ∈ col.
Proof.
  unfold value_counts.
  rewrite elem_of_stable_sort, list_elem_of_fmap.
  setoid_rewrite elem_of_unique. setoid_rewrite elem_of_dropna. done.
Qed.


Lemma nunique_le_1 col x y :
  (nunique col ≤ 1)%nat → x ∈ col → y ∈ col → x ≠ NaN → y ≠ NaN → x = y.
Proof.
  unfold nunique. intros Hn Hx Hy Hx' Hy'.
  assert (Hxu : x ∈ unique (dropna col))
    by by apply elem_of_unique, elem_of_dropna.
  assert (Hyu : y ∈ unique (dropna col))
    by by apply elem_of_unique, elem_of_dropna.
  destruct (unique (dropna col)) as [|z [|z' u]]; simpl in Hn; [| |lia].
  - by apply elem_of_nil in Hxu.
  - apply list_elem_of_singleton in Hxu, Hyu. congruence.
Qed.

Lemma nunique_pos col : (0 < nunique col)%nat → ∃ x, x ∈ col.
Proof.
  unfold nunique. destruct (unique (dropna col)) as [|x u] eqn:E; simpl; [lia|].
  intros _. exists x.
  assert (Hx : x ∈ unique (dropna col)) by (rewrite E; apply elem_of_cons; by left).
  by apply elem_of_unique, elem_of_dropna in Hx as [_ ?].
Qed.

Lemma elem_of_group_codes k (l : list Row) c :
  c ∈ group_codes k l ↔
  ∃ r, r ∈ l ∧ group_key course_key r = k ∧ r !!! COURSE_NUMBER = c.
Proof.
  unfold group_codes. rewrite list_elem_of_fmap.
  setoid_rewrite elem_of_group. naive_solver.
Qed.

Lemma elem_of_duplicate_keys (l : list Row) k :
  k ∈ duplicate_keys l ↔
  k ∈ group_keys course_key l ∧ (1 < nunique (group_codes k l))%nat.
Proof. unfold duplicate_keys. by rewrite list_elem_of_filter, (comm and). Qed.

(** A key without missing cell whose group holds two distinct codes is a
    duplicate key. *)
Lemma duplicate_key_intro (l : list Row) k :
  NaN ∉ k → (1 < nunique (group_codes k l))%nat → k ∈ duplicate_keys l.
Proof.
  intros Hk Hn. apply elem_of_duplicate_keys. split; [|done].
  destruct (nunique_pos (group_codes k l)) as [c Hc]; [lia|].
  apply elem_of_group_codes in Hc as (r & Hr & <- & _).
  apply elem_of_group_keys. by exists r.
Qed.

Lemma course_key_insert (r : Row) v :
  group_key course_key (<[COURSE_NUMBER := v]> r) = group_key course_key r.
Proof.
  unfold group_key, course_key. simpl.
  by rewrite !lookup_total_insert_ne by done.
Qed.

Section Dict.
Context {K V : Type} `{EqDecision K}.

Lemma dict_get_fmap_in (f : K → V) (ks : list K) k d :
  k ∈ ks → dict_get ((λ k, (k, f k)) <$> ks) k d = f k.
Proof.
  induction ks as [|k0 ks IH]; [by intros ?%elem_of_nil|].
  intros Hk. simpl. case_bool_decide as E; [by subst|].
  apply elem_of_cons in Hk as [->|Hk]; [done|auto].
Qed.

Lemma dict_get_fmap_not_in (f : K → V) (ks : list K) k d :
  k ∉ ks → dict_get ((λ k, (k, f k)) <$> ks) k d = d.
Proof.
  induction ks as [|k0 ks IH]; [done|].
  intros Hk. apply not_elem_of_cons in Hk as [Hne Hk]. simpl.
  rewrite bool_decide_eq_false_2 by done. auto.
Qed.

End Dict.

Lemma canonical_codes_Ok (l : list Row) canonical k :
  canonical_codes l = Ok canonical → k ∈ group_keys course_key l →
  idxmax (value_counts (group_codes k l)) = Ok (dict_get canonical k NaN).
Proof.
  unfold canonical_codes. intros H%mapM_Ok.
  induction H as [|k0 kc ks kcs Hk0 Hks IH]; [by intros ?%elem_of_nil|].
  apply bind_Ok in Hk0 as (c & Hc & [= <-]). simpl.
  case_bool_decide as E; [by subst|].
  intros [->|Hk]%elem_of_cons; [done|auto].
Qed.

Lemma canonicalize_Ok df out :
  canonicalize df = Ok out →
  (duplicate_keys (rows df) = [] ∧ out = df) ∨
  (duplicate_keys (rows df) ≠ [] ∧
   ∃ canonical,
     canonical_codes (rows df) = Ok canonical ∧
     columns out = columns df ∧
     rows out
     = drop_duplicates
         ((λ r, <[COURSE_NUMBER := new_code (rows df) canonical r]> r)
          <$> rows df)).
Proof.
  unfold canonicalize. intros H. inv_ok H.
  case_bool_decide as Hd.
  - right. split; [intros Hnil; rewrite Hnil in Hd; simpl in Hd; lia|].
    inv_ok H. subst out. eauto.
  - left. apply ret_Ok in H. split; [|done].
    destruct (duplicate_keys (rows df)); [done|]. simpl in Hd. lia.
Qed.

Section Rewrite.
Variables (l : list Row) (canonical : list (list value * value)).
Hypothesis Hcanonical : canonical_codes l = Ok canonical.

Lemma new_code_duplicate r :
  group_key course_key r ∈ duplicate_keys l →
  idxmax (value_counts (group_codes (group_key course_key r) l))
  = Ok (new_code l canonical r).
Proof.
  intros Hk. unfold new_code.
  rewrite (dict_get_fmap_in (λ k, dict_get canonical k NaN)) by done.
  apply canonical_codes_Ok; [done|].
  by apply elem_of_duplicate_keys in Hk as [? _].
Qed.

Lemma new_code_other r :
  group_key course_key r ∉ duplicate_keys l →
  new_code l canonical r = r !!! COURSE_NUMBER.
Proof.
  intros Hk. unfold new_code.
  by rewrite (dict_get_fmap_not_in (λ k, dict_get canonical k NaN)).
Qed.


End Rewrite.

End CanonFacts.

Import CanonFacts.




(** ** The rows of a student through the stages *)

Module ColumnFacts.

Lemma image_Forall2 {B} (g : Row → B) (l l' : list Row) :
  Forall2 (λ r r', g r' = g r) l l' → g <$> l' = g <$> l.
Proof.
  induction 1 as [|r r' l l' Hr Hl IH]; [done|].
  by rewrite !fmap_cons, Hr, IH.
Qed.

Lemma column_Forall2 c (l l' : list Row) :
  Forall2 (λ r r', r' !!! c = r !!! c) l l' →
  (λ r : Row, r !!! c) <$> l' = (λ r : Row, r !!! c) <$> l.
Proof. apply image_Forall2. Qed.

Lemma image_zip_insert {B} (g : Row → B) c' (l : list Row) (vs : list value) :
  (∀ r v, g (<[c' := v]> r) = g r) → (length l ≤ length vs)%nat →
  g <$> zip_with (λ r v, <[c' := v]> r) l vs = g <$> l.
Proof.
  intros Hg. revert vs. induction l as [|r l IH]; intros [|v vs] Hlen;
    simpl in *; try done; try lia.
  rewrite Hg. f_equal. apply IH. lia.
Qed.

(** A filter on the cell of a column keeps or drops all the rows with a
    given cell together. *)
Lemma count_column_filter c (P : value → Prop)
    `{∀ r : Row, Decision (P (r !!! c))} (l : list Row) s :
  P s →
  count s ((λ r : Row, r !!! c) <$> filter (λ r, P (r !!! c)) l)
  = count s ((λ r : Row, r !!! c) <$> l).
Proof.
  intros Hs. rewrite !count_fmap, list_filter_filter. f_equal.
  apply list_filter_iff. intros r. naive_solver.
Qed.

Lemma length_unique `{EqDecision A} (l : list A) :
  (length (unique l) ≤ length l)%nat.
Proof.
  induction l as [|x l IH]; simpl; [lia|].
  pose proof (length_filter (λ y, y ≠ x) (unique l)). lia.
Qed.

Lemma count_column_unique c (l : list Row) s :
  (count s ((λ r : Row, r !!! c) <$> unique l)
   ≤ count s ((λ r : Row, r !!! c) <$> l))%nat.
Proof. rewrite !count_fmap, <-unique_filter. apply length_unique. Qed.

Lemma filter_or_perm {A} (P Q : A → Prop)
    `{∀ x, Decision (P x), ∀ x, Decision (Q x)} (l : list A) :
  (∀ x, P x → Q x → False) →
  filter P l ++ filter Q l ≡ₚ filter (λ x, P x ∨ Q x) l.
Proof.
  intros Hdis. induction l as [|x l IH]; [done|].
  rewrite !filter_cons.
  destruct (decide (P x)) as [HP|HP], (decide (Q x)) as [HQ|HQ].
  - by destruct (Hdis x).
  - rewrite decide_True by auto. simpl. by rewrite IH.
  - rewrite decide_True by auto. rewrite <-Permutation_middle. by rewrite IH.
  - rewrite decide_False by tauto. done.
Qed.

Lemma filter_ext_elem {A} (P Q : A → Prop)
    `{∀ x, Decision (P x), ∀ x, Decision (Q x)} (l : list A) :
  (∀ x, x ∈ l → P x ↔ Q x) → filter P l = filter Q l.
Proof.
  induction l as [|x l IH]; intros HPQ; [done|].
  rewrite !filter_cons, IH by (intros y Hy; apply HPQ, elem_of_cons; auto).
  assert (P x ↔ Q x) by (apply HPQ, elem_of_cons; auto).
  destruct (decide (P x)), (decide (Q x)); tauto.
Qed.

(** The groups, one after the other, hold the rows that take part in the
    grouping. *)
Lemma concat_keys_perm cols (l : list Row) (ks : list (list value)) :
  NoDup ks →
  concat ((λ k, group cols k l) <$> ks)
  ≡ₚ filter (λ r, group_key cols r ∈ ks) l.
Proof.
  induction 1 as [|k ks Hk Hks IH]; simpl.
  - rewrite filter_none; [done|]. apply Forall_forall.
    intros r _. apply not_elem_of_nil.
  - rewrite IH. unfold group. etrans.
    + apply filter_or_perm. intros r <- Hin. done.
    + erewrite list_filter_iff; [done|].
      intros r. rewrite elem_of_cons. naive_solver.
Qed.

Lemma concat_groups_perm cols (l : list Row) :
  concat ((λ k, group cols k l) <$> group_keys cols l)
  ≡ₚ filter (grouped cols) l.
Proof.
  rewrite concat_keys_perm by apply NoDup_group_keys.
  erewrite filter_ext_elem; [done|].
  intros r Hr. rewrite elem_of_group_keys. split.
  - intros (r' & _ & Hg & Hk). unfold grouped in *. by rewrite <-Hk.
  - intros Hg. by exists r.
Qed.

Lemma set_semester_image {B} (g : Row → B) (rs rs' : list Row) :
  set_semester_grading_dates rs = Ok rs' →
  (∀ r v, g (<[SEMESTER_END := v]> r) = g r) →
  g <$> rs' = g <$> rs.
Proof.
  destruct rs as [|first rest]; [by intros [= <-]|].
  intros (lbl & ds & d0 & _ & _ & _ & ->)%set_semester_Ok Hg.
  rewrite <-list_fmap_compose. apply list_fmap_ext.
  intros i r _. simpl. by rewrite Hg.
Qed.

Lemma align_image {B} (g : Row → B) df df' :
  align df = Ok df' →
  (∀ r v, g (<[SEMESTER_END := v]> r) = g r) →
  g <$> rows df' ≡ₚ g <$> filter (grouped semester_key) (rows df).
Proof.
  intros Ha%align_rows Hg.
  destruct (groupby_apply_Ok _ _ _ _ Ha) as (groups & HF & Hrows).
  rewrite Hrows, <-concat_groups_perm.
  assert (g <$> concat groups
          = g <$> concat ((λ k, group semester_key k (rows df))
                          <$> group_keys semester_key (rows df))) as ->; [|done].
  clear Ha Hrows. induction HF as [|k rs ks gs Hrs Hgs IH]; [done|].
  rewrite fmap_cons. simpl. rewrite !fmap_app, IH.
  by rewrite (set_semester_image _ _ _ Hrs Hg).
Qed.

Lemma activity_filter_Ok df df' :
  activity_filter df = Ok df' →
  rows df'
  = filter (λ r, r !!! STUDY_NUMBER ≠ NaN ∧
                 (2 < count (r !!! STUDY_NUMBER) (column STUDY_NUMBER df))%nat)
           (rows df).
Proof.
  unfold activity_filter. intros H. inv_ok H. subst df'. simpl.
  apply list_filter_iff. intros r.
  rewrite list_elem_of_fmap. setoid_rewrite list_elem_of_filter.
  setoid_rewrite elem_of_value_counts. unfold column. split.
  - intros ([v n] & Hv & Hn & v' & [= -> ->] & Hnan & _). simpl in *.
    by rewrite Hv.
  - intros [Hnan Hn]. eexists (_, _). split; [reflexivity|]. split; [done|].
    eexists. split; [done|]. split; [done|].
    destruct (decide (r !!! STUDY_NUMBER
                      ∈ (λ r0 : Row, r0 !!! STUDY_NUMBER) <$> rows df));
      [done|].
    rewrite count_not_elem in Hn by done. lia.
Qed.

Lemma normalize_course_text_column c df df' :
  normalize_course_text df = Ok df' → c ≠ COURSE_TEXT →
  column c df' = column c df.
Proof.
  unfold normalize_course_text. intros H Hc. inv_ok H. subst df'.
  apply column_Forall2. eapply Forall2_impl; [by apply mapM_Ok|].
  intros r r' Hr. simpl in Hr. inv_ok Hr. subst r'.
  by rewrite lookup_total_insert_ne.
Qed.

(** After the filters every student of the table has more than two rows. *)
Lemma clean_students df d s :
  clean df = Ok d → s ∈ column STUDY_NUMBER d →
  s ≠ NaN ∧ (2 < count s (column STUDY_NUMBER d))%nat.
Proof.
  unfold clean. intros H.
  apply bind_Ok in H as (d1 & E & H).
  apply bind_Ok in H as (d2 & E0 & H).
  apply bind_Ok in H as (d3 & E1 & H).
  rewrite (normalize_course_text_column _ _ _ H) by done.
  clear H E. apply activity_filter_Ok in E0.
  unfold institute_filter in E1. inv_ok E1. subst d3.
  unfold column, keep. cbn [rows]. rewrite E0.
  set (inst := unique _).
  set (Pact := λ v : value, v ≠ NaN ∧
                 (2 < count v (column STUDY_NUMBER d1))%nat).
  intros (r & -> & [Hinst [[Hnan Hn] Hr]%list_elem_of_filter]%list_elem_of_filter)
    %list_elem_of_fmap.
  split; [done|].
  rewrite (count_column_filter STUDY_NUMBER (λ v, v ∉ inst)) by done.
  by rewrite (count_column_filter STUDY_NUMBER Pact).
Qed.

Lemma canonicalize_students d d' s :
  canonicalize d = Ok d' →
  (count s (column STUDY_NUMBER d') ≤ count s (column STUDY_NUMBER d))%nat.
Proof.
  intros [[_ ->]|(_ & canonical & _ & _ & Hrows)]%canonicalize_Ok; [done|].
  unfold column. rewrite Hrows. unfold drop_duplicates.
  etrans; [apply count_column_unique|].
  rewrite <-list_fmap_compose.
  erewrite (list_fmap_ext _ (λ r : Row, r !!! STUDY_NUMBER)); [done|].
  intros i r _. simpl. by rewrite lookup_total_insert_ne.
Qed.

(** The stages after the canonicalizer keep, up to the order of the rows,
    whatever is read off a row without looking at the columns they write. *)
Lemma derive_image {B} (g : Row → B) d out :
  derive d = Ok out →
  (∀ r : Row, r ∈ rows d → r !!! STUDY_NUMBER ≠ NaN) →
  (∀ c r v, c ∈ [GRADING_DATE; SEMESTER; SEMESTER_END; ATTEMPT] →
            g (<[c := v]> r) = g r) →
  g <$> rows out ≡ₚ g <$> rows d.
Proof.
  unfold derive. intros H Hstudents Hg.
  apply bind_Ok in H as (d1 & E & H).
  apply bind_Ok in H as (d2 & E0 & H).
  apply bind_Ok in H as (d3 & E1 & H).
  apply bind_Ok in H as (d4 & E2 & H).
  assert (Hg1 : ∀ r v, g (<[GRADING_DATE := v]> r) = g r)
    by (intros; apply Hg; set_solver).
  assert (Hg2 : ∀ r v, g (<[SEMESTER := v]> r) = g r)
    by (intros; apply Hg; set_solver).
  assert (Hg3 : ∀ r v, g (<[SEMESTER_END := v]> r) = g r)
    by (intros; apply Hg; set_solver).
  assert (Hg4 : ∀ r v, g (<[ATTEMPT := v]> r) = g r)
    by (intros; apply Hg; set_solver).
  apply sort_rows_perm in H. rewrite H. clear H.
  (* the attempt counter *)
  assert (g <$> rows d4 = g <$> rows d3) as ->.
  { unfold add_attempt in E2. inv_ok E2. subst d4. cbn [rows with_column].
    apply image_zip_insert; [done|].
    by rewrite length_fmap, length_cumcount. }
  (* the aligner *)
  rewrite (align_image _ _ _ E1) by done.
  pose proof (to_iso_Ok _ _ E) as H1. pose proof (add_semester_Ok _ _ E0) as H2.
  rewrite filter_all.
  - erewrite (image_Forall2 g (rows d1)), (image_Forall2 g (rows d));
      [done| |].
    + eapply Forall2_impl; [exact H1|]. by intros r r' (v & _ & ->).
    + eapply Forall2_impl; [exact H2|]. by intros r r' (v & _ & ->).
  - apply Forall_forall. intros r2 [i Hi]%list_elem_of_lookup.
    destruct (Forall2_lookup_r _ _ _ _ _ H2 Hi) as (r1 & Hi1 & lbl & _ & ->).
    destruct (Forall2_lookup_r _ _ _ _ _ H1 Hi1) as (r0 & Hi0 & v & _ & ->).
    unfold grouped, group_key, semester_key. simpl.
    rewrite lookup_total_insert_eq, !lookup_total_insert_ne by done.
    rewrite !elem_of_cons, elem_of_nil.
    intros [H|[H|[]]]; [|done].
    symmetry in H. revert H. apply Hstudents, list_elem_of_lookup. eauto.
Qed.

Lemma derive_column c d out :
  derive d = Ok out →
  (∀ r : Row, r ∈ rows d → r !!! STUDY_NUMBER ≠ NaN) →
  c ∉ [GRADING_DATE; SEMESTER; SEMESTER_END; ATTEMPT] →
  column c out ≡ₚ column c d.
Proof.
  intros H Hs Hc. apply (derive_image (λ r, r !!! c)); [done..|].
  intros c' r v Hc'. apply lookup_total_insert_ne. by intros ->.
Qed.

(** The table that leaves the canonicalizer in a run has no row without a
    student. *)
Lemma canonicalized_students df d d' r :
  clean df = Ok d → canonicalize d = Ok d' → r ∈ rows d' →
  r !!! STUDY_NUMBER ≠ NaN.
Proof.
  intros Hclean Hcanon Hr.
  assert (Hin : r !!! STUDY_NUMBER ∈ column STUDY_NUMBER d').
  { apply list_elem_of_fmap. eauto. }
  apply count_elem in Hin.
  pose proof (canonicalize_students _ _ (r !!! STUDY_NUMBER) Hcanon) as Hle.
  destruct (decide (r !!! STUDY_NUMBER ∈ column STUDY_NUMBER d)) as [Hd|Hd].
  - by destruct (clean_students _ _ _ Hclean Hd).
  - rewrite (count_not_elem _ _ Hd) in Hle. lia.
Qed.

Lemma pipeline_Ok df d d' out :
  clean df = Ok d → canonicalize d = Ok d' → pipeline df = Ok out →
  derive d' = Ok out.
Proof. unfold pipeline. intros -> Hc. simpl. by rewrite Hc. Qed.

End ColumnFacts.

Import ColumnFacts.

(** ** The minimum-activity invariant *)

(** C4, as stated, fails on [repeated_row_table]: student s1 passes the
    activity filter with three rows; the canonicalizer rewrites the code of
    the third and drops the repeated first row, so that the output holds
    two rows of s1. *)
Lemma output_student_with_two_rows :
  (pipeline repeated_row_table ≫= λ out, mret (column STUDY_NUMBER out))
  = Ok [Str "s1"; Str "s1"] ∧
  ¬ (∀ out s,
       pipeline repeated_row_table = Ok out →
       s ∈ column STUDY_NUMBER out →
       (2 < count s (column STUDY_NUMBER out))%nat).
Proof.
  split; [computed|]. intros H.
  set (out := returned repeated_row_table (pipeline repeated_row_table)).
  assert (Hout : pipeline repeated_row_table = Ok out) by computed.
  assert (Hs : bool_decide (Str "s1" ∈ column STUDY_NUMBER out) = true)
    by computed.
  apply bool_decide_eq_true_1 in Hs.
  specialize (H out (Str "s1") Hout Hs).
  assert (Hc : count (Str "s1") (column STUDY_NUMBER out) = 2%nat) by computed.
  lia.
Qed.

(** C4 (amended): for every student appearing in the final output, the
    number of that student's rows in the table that enters the
    canonicalizer (after the three filters and the text normalizer) is
    strictly greater than 2.  The output holds as many rows of the student
    as the canonicalizer leaves, which is at least one and at most that
    number; it is strictly greater than 2 whenever no (course text,
    credits) group has more than one distinct code, the case in which the
    canonicalizer drops no row. *)
Theorem activity_invariant_before_deduplication
    (df d d' out : DataFrame) (s : value) :
  clean df = Ok d →
  canonicalize d = Ok d' →
  pipeline df = Ok out →
  s ∈ column STUDY_NUMBER out →
  (2 < count s (column STUDY_NUMBER d))%nat ∧
  count s (column STUDY_NUMBER out) = count s (column STUDY_NUMBER d') ∧
  (1 ≤ count s (column STUDY_NUMBER d') ≤ count s (column STUDY_NUMBER d))%nat ∧
  (duplicate_keys (rows d) = [] →
   (2 < count s (column STUDY_NUMBER out))%nat).
Proof.
  intros Hclean Hcanon Hpipe Hs.
  pose proof (pipeline_Ok _ _ _ _ Hclean Hcanon Hpipe) as Hderive.
  assert (Hperm : column STUDY_NUMBER out ≡ₚ column STUDY_NUMBER d').
  { apply derive_column; [done| |set_solver].
    intros r. by apply (canonicalized_students df d d'). }
  pose proof (count_perm s _ _ Hperm) as Hcount.
  pose proof (canonicalize_students _ _ s Hcanon) as Hle.
  apply count_elem in Hs as Hpos.
  assert (Hd : s ∈ column STUDY_NUMBER d).
  { destruct (decide (s ∈ column STUDY_NUMBER d)) as [|Hout]; [done|].
    rewrite (count_not_elem _ _ Hout) in Hle. lia. }
  destruct (clean_students _ _ _ Hclean Hd) as [_ Hgt].
  split; [done|]. split; [done|]. split; [lia|].
  intros Hnil.
  destruct (canonicalize_Ok _ _ Hcanon) as [[_ ->]|[Hne _]]; [lia|done].
Qed.

Lemma activity_invariant_before_deduplication_witness :
  ∃ d d' out,
    clean repeated_row_table = Ok d ∧
    canonicalize d = Ok d' ∧
    pipeline repeated_row_table = Ok out ∧
    Str "s1" ∈ column STUDY_NUMBER out ∧
    (2 < count (Str "s1") (column STUDY_NUMBER d))%nat ∧
    count (Str "s1") (column STUDY_NUMBER out)
    = count (Str "s1") (column STUDY_NUMBER d') ∧
    (1 ≤ count (Str "s1") (column STUDY_NUMBER d')
       ≤ count (Str "s1") (column STUDY_NUMBER d))%nat ∧
    (duplicate_keys (rows d) = [] →
     (2 < count (Str "s1") (column STUDY_NUMBER out))%nat).
Proof.
  set (d := returned repeated_row_table (clean repeated_row_table)).
  set (d' := returned repeated_row_table (canonicalize d)).
  set (out := returned repeated_row_table (pipeline repeated_row_table)).
  assert (H1 : clean repeated_row_table = Ok d) by computed.
  assert (H2 : canonicalize d = Ok d') by computed.
  assert (H3 : pipeline repeated_row_table = Ok out) by computed.
  assert (H4 : Str "s1" ∈ column STUDY_NUMBER out).
  { apply (bool_decide_eq_true_1 (Str "s1" ∈ column STUDY_NUMBER out)).
    computed. }
  exists d, d', out. split; [exact H1|]. split; [exact H2|].
  split; [exact H3|]. split; [exact H4|].
  exact (activity_invariant_before_deduplication
           repeated_row_table d d' out (Str "s1") H1 H2 H3 H4).
Defined.

(** ** Duplicate removal *)

(** C10: the canonicalizer removes rows only when some (course text,
    credits) group holds more than one distinct code.  When every group has
    a single distinct code the canonicalizer returns its table as it is,
    exact duplicate rows included, and these rows reach the output: read on
    any columns that the later stages do not write, the rows of the output
    are the rows of that table, each as many times, and the output has as
    many rows. *)
Theorem duplicates_removed_only_with_duplicate_codes
    (df d d' out : DataFrame) :
  clean df = Ok d →
  canonicalize d = Ok d' →
  pipeline df = Ok out →
  (∀ r : Row,
     (count r (rows d') < count r (rows d))%nat →
     ∃ k : list value,
       k ∈ group_keys course_key (rows d) ∧
       (1 < nunique (group_codes k (rows d)))%nat) ∧
  ((∀ k : list value,
      k ∈ group_keys course_key (rows d) →
      (nunique (group_codes k (rows d)) ≤ 1)%nat) →
   d' = d ∧
   length (rows out) = length (rows d) ∧
   ∀ cols : list string,
     (∀ c, c ∈ cols →
           c ∉ [GRADING_DATE; SEMESTER; SEMESTER_END; ATTEMPT]) →
     group_key cols <$> rows out ≡ₚ group_key cols <$> rows d).
Proof.
  intros Hclean Hcanon Hpipe.
  pose proof (pipeline_Ok _ _ _ _ Hclean Hcanon Hpipe) as Hderive.
  destruct (canonicalize_Ok _ _ Hcanon) as [[Hnil ->]|[Hne _]].
  - split; [intros r; lia|]. intros _. split; [done|].
    assert (Himage : ∀ cols : list string,
      (∀ c, c ∈ cols →
            c ∉ [GRADING_DATE; SEMESTER; SEMESTER_END; ATTEMPT]) →
      group_key cols <$> rows out ≡ₚ group_key cols <$> rows d).
    { intros cols Hcols. apply derive_image; [done| |].
      - intros r. by apply (canonicalized_students df d d).
      - intros c r v Hc. unfold group_key. apply list_fmap_ext.
        intros i c' Hc'%list_elem_of_lookup_2.
        apply lookup_total_insert_ne. intros ->. by apply (Hcols c'). }
    split; [|done].
    specialize (Himage [] ltac:(by intros c ?%elem_of_nil)).
    apply Permutation_length in Himage. by rewrite !length_fmap in Himage.
  - assert (Hk : ∃ k, k ∈ duplicate_keys (rows d)).
    { destruct (duplicate_keys (rows d)) as [|k ks]; [done|].
      exists k. apply elem_of_cons. by left. }
    destruct Hk as [k [Hk Hn]%elem_of_duplicate_keys].
    split; [by exists k|]. intros Hall. specialize (Hall k Hk). lia.
Qed.

Lemma duplicates_removed_only_with_duplicate_codes_witness :
  ∃ d d' out,
    clean identical_rows_table = Ok d ∧
    canonicalize d = Ok d' ∧
    pipeline identical_rows_table = Ok out ∧
    (∀ k : list value,
       k ∈ group_keys course_key (rows d) →
       (nunique (group_codes k (rows d)) ≤ 1)%nat) ∧
    (∃ r : Row, count r (rows d) = 3%nat ∧ count r (rows d') = 3%nat) ∧
    length (rows out) = 3%nat ∧
    d' = d ∧
    length (rows out) = length (rows d) ∧
    ∀ cols : list string,
      (∀ c, c ∈ cols →
            c ∉ [GRADING_DATE; SEMESTER; SEMESTER_END; ATTEMPT]) →
      group_key cols <$> rows out ≡ₚ group_key cols <$> rows d.
Proof.
  set (d := returned identical_rows_table (clean identical_rows_table)).
  set (d' := returned identical_rows_table (canonicalize d)).
  set (out := returned identical_rows_table (pipeline identical_rows_table)).
  assert (H1 : clean identical_rows_table = Ok d) by computed.
  assert (H2 : canonicalize d = Ok d') by computed.
  assert (H3 : pipeline identical_rows_table = Ok out) by computed.
  assert (H4 : ∀ k : list value,
     k ∈ group_keys course_key (rows d) →
     (nunique (group_codes k (rows d)) ≤ 1)%nat).
  { apply Forall_forall.
    apply (bool_decide_eq_true_1
             (Forall (λ k, (nunique (group_codes k (rows d)) ≤ 1)%nat)
                     (group_keys course_key (rows d)))).
    computed. }
  assert (H5 : ∃ r : Row, count r (rows d) = 3%nat ∧ count r (rows d') = 3%nat).
  { exists (rows d !!! 0%nat). split; computed. }
  assert (H6 : length (rows out) = 3%nat) by computed.
  exists d, d', out. split; [exact H1|]. split; [exact H2|].
  split; [exact H3|]. split; [exact H4|]. split; [exact H5|].
  split; [exact H6|].
  exact (proj2 (duplicates_removed_only_with_duplicate_codes
                  identical_rows_table d d' out H1 H2 H3) H4).
Defined.

(** ** Missing course texts *)

Lemma normalize_course_text_missing df r :
  COURSE_TEXT ∈ columns df → r ∈ rows df → r !!! COURSE_TEXT = NaN →
  normalize_course_text df = Raise AttributeError.
Proof.
  intros Hc Hr Hnan. unfold normalize_course_text.
  rewrite (require_in _ _ Hc). simpl.
  erewrite mapM_Raise; [done|exact Hr|by rewrite Hnan|].
  intros r' e H. destruct (r' !!! COURSE_TEXT); by inversion H.
Qed.

(** C7 on [missing_text_table]: the institute check does not match the
    missing text and the institute filter keeps the three rows of the
    student, but the run then dies in the text normalizer, which calls
    [upper] on the missing cell. *)
Lemma missing_text_aborts_run :
  str_contains "institut" NaN = false ∧
  (((cohort_filter PROGRAM missing_text_table ≫= activity_filter)
    ≫= institute_filter) ≫= λ d, mret (column COURSE_TEXT d))
  = Ok [Str "Database systems"; Str "Matematik 1"; NaN] ∧
  pipeline missing_text_table = Raise AttributeError.
Proof. repeat split; computed. Qed.

(** ** The shape of a normalized text *)

Module ShapeFacts.

Lemma slen_length s : slen s = String.length s.
Proof. induction s as [|c s IH]; simpl; [done|]. by rewrite IH. Qed.

Lemma slen_upper s : slen (upper s) = slen s.
Proof. induction s as [|c s IH]; simpl; [done|]. by rewrite IH. Qed.

Lemma lstrip_digits_len s : (slen (lstrip_digits s) ≤ slen s)%nat.
Proof.
  induction s as [|c s IH]; simpl; [lia|].
  destruct (is_digit c); simpl; lia.
Qed.

Lemma upper_idem s : upper (upper s) = upper s.
Proof. apply upper_fixed, upper_no_lower. Qed.

(** A text found in a text with characters removed at its two ends is found
    in the text itself. *)
Lemma contains_tail sub c s :
  contains sub s = true → contains sub (String c s) = true.
Proof. intros H. cbn [contains]. rewrite H. apply orb_true_r. Qed.

Lemma contains_lstrip_digits sub s :
  contains sub (lstrip_digits s) = true → contains sub s = true.
Proof.
  induction s as [|c s IH]; [done|]. cbn [lstrip_digits].
  destruct (is_digit c); [|done]. intros H. by apply contains_tail, IH.
Qed.

Lemma contains_lstrip sub s :
  contains sub (lstrip s) = true → contains sub s = true.
Proof.
  induction s as [|c s IH]; [done|]. cbn [lstrip].
  destruct (is_space c); [|done]. intros H. by apply contains_tail, IH.
Qed.

Lemma prefix_nil s : String.prefix EmptyString s = true.
Proof. by destruct s. Qed.

Lemma prefix_rstrip sub s :
  String.prefix sub (rstrip s) = true → String.prefix sub s = true.
Proof.
  revert sub. induction s as [|c s IH]; intros sub; [done|].
  destruct sub as [|a sub]; [done|].
  rewrite rstrip_cons, prefix_cons.
  destruct (rstrip s) as [|d t] eqn:E.
  - destruct (is_space c); [done|]. rewrite prefix_cons.
    destruct (ascii_dec a c); [|done].
    destruct sub; [|done]. intros _. apply prefix_nil.
  - rewrite prefix_cons. destruct (ascii_dec a c); [|done]. apply IH.
Qed.

Lemma contains_nil s : contains EmptyString s = true.
Proof. destruct s; cbn [contains]; by rewrite prefix_nil. Qed.

Lemma contains_rstrip sub s :
  contains sub (rstrip s) = true → contains sub s = true.
Proof.
  destruct sub as [|a sub]; [intros _; apply contains_nil|].
  induction s as [|c s IH]; [done|].
  rewrite rstrip_cons. destruct (rstrip s) as [|d t] eqn:E.
  - destruct (is_space c) eqn:Ec; [done|].
    cbn [contains]. rewrite orb_false_r. intros H.
    rewrite (prefix_rstrip (String a sub) (String c s)); [done|].
    by rewrite rstrip_cons, E, Ec.
  - cbn [contains]. intros [H|H]%orb_true_iff.
    + rewrite (prefix_rstrip (String a sub) (String c s)); [done|].
      by rewrite rstrip_cons, E.
    + rewrite (IH H). apply orb_true_r.
Qed.

Lemma contains_normalize_text sub x :
  contains sub (normalize_text x) = true → contains sub (upper x) = true.
Proof.
  unfold normalize_text, unidecode, strip. intros H.
  by apply contains_lstrip_digits, contains_lstrip, contains_rstrip.
Qed.

(** The marker check on a normalized text. *)
Lemma str_contains_normalize_text pat s :
  str_contains pat (Str (normalize_text s)) = true →
  str_contains pat (Str s) = true.
Proof.
  unfold str_contains.
  rewrite (upper_fixed _ (normalize_text_no_lower s)).
  apply contains_normalize_text.
Qed.

End ShapeFacts.

Import ShapeFacts.

(** ** The normalizer over a library *)

Module LibraryFacts.

Lemma all_chars_app p s t :
  all_chars p (s +:+ t) = all_chars p s && all_chars p t.
Proof.
  induction s as [|c s IH]; simpl; [done|]. by rewrite IH, andb_assoc.
Qed.

Lemma upper_char_ascii c : is_ascii c = true → is_ascii (upper_char c) = true.
Proof.
  destruct c as [[] [] [] [] [] [] [] []]; vm_compute; congruence.
Qed.

Lemma upper_ascii s :
  all_chars is_ascii s = true → all_chars is_ascii (upper s) = true.
Proof.
  induction s as [|c s IH]; simpl; [done|].
  intros [Hc Hs]%andb_true_iff. by rewrite upper_char_ascii, IH.
Qed.

Lemma upper_char_digit c : is_digit (upper_char c) = is_digit c.
Proof.
  destruct c as [[] [] [] [] [] [] [] []]; vm_compute; reflexivity.
Qed.

Lemma starts_with_digit_upper s :
  starts_with_digit (upper s) = starts_with_digit s.
Proof. destruct s as [|c s]; simpl; [done|]. apply upper_char_digit. Qed.

(** A text that one pass of the ASCII normalizer leaves as it is has no
    lower-case letter and no leading digit. *)
Lemma normalize_text_fixed y :
  normalize_text y = y →
  all_chars not_lower y = true ∧ starts_with_digit y = false.
Proof.
  intros Hy. split; [rewrite <-Hy; apply normalize_text_no_lower|].
  destruct (starts_with_digit y) eqn:Hd; [|done].
  rewrite <-starts_with_digit_upper in Hd.
  apply lstrip_digits_shorter in Hd.
  pose proof (strip_len (lstrip_digits (upper y))) as Hl.
  pose proof (slen_upper y) as Hu.
  assert (slen (normalize_text y) < slen y)%nat as Hlt
    by (cbv beta zeta delta [normalize_text unidecode]; lia).
  rewrite Hy in Hlt. lia.
Qed.

Section Lawful.
Context (L : library) (HL : lawful L).

Lemma normalize_text_in_is_ascii x :
  all_chars is_ascii (normalize_text_in L x) = true.
Proof.
  destruct HL as (_ & _ & _ & H4). unfold normalize_text_in.
  apply strip_all, H4.
Qed.

(** On ASCII text the normalizer over a lawful library is the normalizer
    of the stages. *)
Lemma normalize_text_in_ascii x :
  all_chars is_ascii x = true → normalize_text_in L x = normalize_text x.
Proof.
  destruct HL as (H1 & H2 & H3 & _). intros Hx.
  cbv beta zeta delta [normalize_text_in normalize_text].
  pose proof (upper_ascii _ Hx) as Hu.
  pose proof (lstrip_digits_all _ _ Hu) as Hd.
  by rewrite (H1 _ Hx), (H2 _ Hu), (H3 _ Hd).
Qed.

Lemma normalize_text_in_strip x :
  strip (normalize_text_in L x) = normalize_text_in L x.
Proof. unfold normalize_text_in. apply strip_idem. Qed.

Lemma str_contains_in_ascii pat s :
  all_chars is_ascii pat = true → all_chars is_ascii s = true →
  str_contains_in L pat (Str s) = str_contains pat (Str s).
Proof.
  destruct HL as (H1 & _). intros Hp Hs. simpl. by rewrite !H1.
Qed.

End Lawful.

(** The sample library is lawful. *)
Lemma find_prefix_elem table s k v :
  find_prefix table s = Some (k, v) → (k, v) ∈ table.
Proof.
  induction table as [|[k' v'] table IH]; simpl; [done|].
  destruct (String.prefix k' s).
  - intros [= -> ->]. apply elem_of_cons. by left.
  - intros H. apply elem_of_cons. right. by apply IH.
Qed.

Lemma recode_upper table keep s :
  all_chars is_ascii s = true → recode upper_char table keep O s = upper s.
Proof.
  induction s as [|c s IH]; simpl; [done|].
  intros [-> Hs]%andb_true_iff. by rewrite IH.
Qed.

Lemma recode_id table keep s :
  all_chars is_ascii s = true → recode id table keep O s = s.
Proof.
  induction s as [|c s IH]; simpl; [done|].
  intros [-> Hs]%andb_true_iff. by rewrite IH.
Qed.

Lemma recode_is_ascii table skip s :
  Forall (λ kv : string * string, all_chars is_ascii kv.2 = true) table →
  all_chars is_ascii (recode id table false skip s) = true.
Proof.
  intros Ht. revert skip. induction s as [|c s IH]; intros skip; [done|].
  cbn [recode]. destruct skip as [|n]; [|apply IH].
  destruct (is_ascii c) eqn:Hc.
  - simpl. unfold id at 1. by rewrite Hc, IH.
  - destruct (find_prefix table (String c s)) as [[k v]|] eqn:E; [|apply IH].
    apply find_prefix_elem in E. rewrite Forall_forall in Ht.
    rewrite all_chars_app, IH, andb_true_r. exact (Ht _ E).
Qed.

Lemma sample_library_lawful : lawful sample_library.
Proof.
  split; [|split; [|split]]; simpl.
  - intros s. apply recode_upper.
  - done.
  - intros s. apply recode_id.
  - intros s. apply recode_is_ascii.
    apply (bool_decide_eq_true_1 (Forall _ unidecode_table)). computed.
Qed.

End LibraryFacts.

Import LibraryFacts.

(** C2 (amended): a second pass of the normalizer leaves [normalize(x)]
    unchanged exactly when [normalize(x)] holds no lower-case letter and
    does not begin with a digit.  The text [normalize(x)] is ASCII, since it
    comes out of [unidecode]; it can hold lower-case letters that
    [unidecode] wrote, which the second pass upper-cases, and it can begin
    with digits that the first pass left behind white space, which the
    second pass removes.  This is for texts of any kind and every lawful
    library.  When [x] is ASCII, [normalize(x)] holds no lower-case letter,
    and the second pass leaves it unchanged exactly when it does not begin
    with a digit. *)
Theorem normalize_text_idempotent_iff (L : library) (x : string) :
  lawful L →
  (normalize_text_in L (normalize_text_in L x) = normalize_text_in L x
   ↔ all_chars not_lower (normalize_text_in L x) = true ∧
     starts_with_digit (normalize_text_in L x) = false) ∧
  (all_chars is_ascii x = true →
   (normalize_text_in L (normalize_text_in L x) = normalize_text_in L x
    ↔ starts_with_digit (normalize_text_in L x) = false)).
Proof.
  intros HL.
  assert (Hiff :
    normalize_text_in L (normalize_text_in L x) = normalize_text_in L x
    ↔ all_chars not_lower (normalize_text_in L x) = true ∧
      starts_with_digit (normalize_text_in L x) = false).
  { set (y := normalize_text_in L x).
    rewrite (normalize_text_in_ascii L HL y)
      by apply (normalize_text_in_is_ascii L HL).
    split; [apply normalize_text_fixed|]. intros [Hl Hd].
    cbv beta zeta delta [normalize_text unidecode].
    rewrite (upper_fixed _ Hl), (lstrip_digits_fixed _ Hd).
    apply (normalize_text_in_strip L). }
  split; [exact Hiff|]. intros Hx. rewrite Hiff.
  split; [by intros [_ Hd]|]. intros Hd. split; [|exact Hd].
  rewrite (normalize_text_in_ascii L HL x Hx). apply normalize_text_no_lower.
Qed.

Lemma normalize_text_idempotent_iff_witness :
  lawful sample_library ∧
  normalize_text_in sample_library "北京" = "Bei Jing"%string ∧
  normalize_text_in sample_library (normalize_text_in sample_library "北京")
  = "BEI JING"%string ∧
  (normalize_text_in sample_library (normalize_text_in sample_library "北京")
   = normalize_text_in sample_library "北京"
   ↔ all_chars not_lower (normalize_text_in sample_library "北京") = true ∧
     starts_with_digit (normalize_text_in sample_library "北京") = false) ∧
  normalize_text_in sample_library "01005 Matematik på Ærø "
  = "MATEMATIK PA AERO"%string ∧
  (normalize_text_in sample_library
     (normalize_text_in sample_library "01005 Matematik på Ærø ")
   = normalize_text_in sample_library "01005 Matematik på Ærø "
   ↔ all_chars not_lower
       (normalize_text_in sample_library "01005 Matematik på Ærø ") = true ∧
     starts_with_digit
       (normalize_text_in sample_library "01005 Matematik på Ærø ") = false) ∧
  all_chars is_ascii "02132 Database systems" = true ∧
  normalize_text_in sample_library "02132 Database systems"
  = "DATABASE SYSTEMS"%string ∧
  (normalize_text_in sample_library
     (normalize_text_in sample_library "02132 Database systems")
   = normalize_text_in sample_library "02132 Database systems"
   ↔ starts_with_digit
       (normalize_text_in sample_library "02132 Database systems") = false).
Proof.
  assert (Hx : all_chars is_ascii "02132 Database systems" = true)
    by reflexivity.
  split; [exact sample_library_lawful|].
  split; [computed|]. split; [computed|].
  split; [exact (proj1 (normalize_text_idempotent_iff sample_library "北京"
                          sample_library_lawful))|].
  split; [computed|].
  split; [exact (proj1 (normalize_text_idempotent_iff sample_library
                          "01005 Matematik på Ærø " sample_library_lawful))|].
  split; [exact Hx|]. split; [computed|].
  exact (proj2 (normalize_text_idempotent_iff sample_library
                  "02132 Database systems" sample_library_lawful) Hx).
Defined.

(** X1: the shape of a normalized text.  Over a lawful library, what the
    normalizer returns is ASCII text without white space at either end;
    and on an ASCII text it returns what the normalizer of the stages
    returns, a text in upper case that is not longer than the text it was
    given. *)
Theorem normalize_text_shape (L : library) (x : string) :
  lawful L →
  all_chars is_ascii (normalize_text_in L x) = true ∧
  Text.strip (normalize_text_in L x) = normalize_text_in L x ∧
  (all_chars is_ascii x = true →
   normalize_text_in L x = normalize_text x ∧
   Text.upper (normalize_text_in L x) = normalize_text_in L x ∧
   (String.length (normalize_text_in L x) ≤ String.length x)%nat).
Proof.
  intros HL. split; [by apply normalize_text_in_is_ascii|].
  split; [by apply normalize_text_in_strip|]. intros Hx.
  rewrite (normalize_text_in_ascii L HL x Hx). split; [done|].
  split; [apply upper_fixed, normalize_text_no_lower|].
  rewrite <-(slen_length x), <-(slen_length (normalize_text x)).
  cbv beta zeta delta [normalize_text unidecode].
  pose proof (strip_len (lstrip_digits (upper x))).
  pose proof (lstrip_digits_len (upper x)).
  pose proof (slen_upper x). lia.
Qed.

Lemma normalize_text_shape_witness :
  lawful sample_library ∧
  all_chars is_ascii " 02132 Database systems " = true ∧
  all_chars is_ascii
    (normalize_text_in sample_library " 02132 Database systems ") = true ∧
  Text.strip (normalize_text_in sample_library " 02132 Database systems ")
  = normalize_text_in sample_library " 02132 Database systems " ∧
  normalize_text_in sample_library " 02132 Database systems "
  = normalize_text " 02132 Database systems " ∧
  Text.upper (normalize_text_in sample_library " 02132 Database systems ")
  = normalize_text_in sample_library " 02132 Database systems " ∧
  (String.length (normalize_text_in sample_library " 02132 Database systems ")
   ≤ String.length " 02132 Database systems ")%nat.
Proof.
  assert (Hx : all_chars is_ascii " 02132 Database systems " = true)
    by reflexivity.
  destruct (normalize_text_shape sample_library " 02132 Database systems "
              sample_library_lawful) as (H1 & H2 & H3).
  split; [exact sample_library_lawful|]. split; [exact Hx|].
  split; [exact H1|]. split; [exact H2|]. exact (H3 Hx).
Defined.

(** X2: the institute check on ASCII text.  Over a lawful library, for an
    ASCII marker and an ASCII cell, the check is the check of the stages; it
    does not look at the case of the letters, in the cell or in the marker;
    and normalizing the cell cannot make it match: a normalized text matches
    only if the text it was made from matched. *)
Theorem str_contains_ignores_case (L : library) (pat s : string) :
  lawful L →
  all_chars is_ascii pat = true →
  all_chars is_ascii s = true →
  str_contains_in L pat (Str s) = str_contains pat (Str s) ∧
  str_contains_in L pat (Str (upper_of L s)) = str_contains_in L pat (Str s) ∧
  str_contains_in L (upper_of L pat) (Str s) = str_contains_in L pat (Str s) ∧
  (str_contains_in L pat (Str (normalize_text_in L s)) = true →
   str_contains_in L pat (Str s) = true).
Proof.
  intros HL Hp Hs. pose proof HL as (H1 & _).
  pose proof (upper_ascii _ Hp) as Hup. pose proof (upper_ascii _ Hs) as Hus.
  split; [by apply str_contains_in_ascii|].
  split; [|split].
  - simpl. by rewrite (H1 s Hs), (H1 _ Hus), upper_idem.
  - simpl. by rewrite (H1 pat Hp), (H1 _ Hup), upper_idem.
  - rewrite (normalize_text_in_ascii L HL s Hs).
    rewrite !(str_contains_in_ascii L HL) by auto using normalize_text_ascii.
    apply str_contains_normalize_text.
Qed.

Lemma str_contains_ignores_case_witness :
  lawful sample_library ∧
  all_chars is_ascii "institut" = true ∧
  all_chars is_ascii " Kursus ved INSTITUT for Datalogi" = true ∧
  str_contains_in sample_library "institut"
    (Str " Kursus ved INSTITUT for Datalogi") = true ∧
  str_contains_in sample_library "institut"
    (Str " Kursus ved INSTITUT for Datalogi")
  = str_contains "institut" (Str " Kursus ved INSTITUT for Datalogi") ∧
  str_contains_in sample_library "institut"
    (Str (upper_of sample_library " Kursus ved INSTITUT for Datalogi"))
  = str_contains_in sample_library "institut"
      (Str " Kursus ved INSTITUT for Datalogi") ∧
  str_contains_in sample_library (upper_of sample_library "institut")
    (Str " Kursus ved INSTITUT for Datalogi")
  = str_contains_in sample_library "institut"
      (Str " Kursus ved INSTITUT for Datalogi") ∧
  (str_contains_in sample_library "institut"
     (Str (normalize_text_in sample_library
             " Kursus ved INSTITUT for Datalogi")) = true →
   str_contains_in sample_library "institut"
     (Str " Kursus ved INSTITUT for Datalogi") = true).
Proof.
  assert (Hp : all_chars is_ascii "institut" = true) by reflexivity.
  assert (Hs : all_chars is_ascii " Kursus ved INSTITUT for Datalogi" = true)
    by reflexivity.
  split; [exact sample_library_lawful|]. split; [exact Hp|].
  split; [exact Hs|]. split; [computed|].
  exact (str_contains_ignores_case sample_library "institut"
           " Kursus ved INSTITUT for Datalogi" sample_library_lawful Hp Hs).
Defined.

(** ** The filters *)

Module FilterFacts.

Lemma cohort_filter_Ok target df out :
  cohort_filter target df = Ok out →
  EDUCATION ∈ columns df ∧
  columns out = filter (λ c, c ≠ EDUCATION) (columns df) ∧
  rows out
  = delete EDUCATION
    <$> filter (λ r : Row, r !!! EDUCATION = Str target) (rows df).
Proof.
  unfold cohort_filter. intros H.
  apply bind_Ok in H as (d & [Hc ->]%select_program_Ok & H).
  unfold drop_column in H. inv_ok H. by subst out.
Qed.

Lemma activity_filter_columns df out :
  activity_filter df = Ok out →
  STUDY_NUMBER ∈ columns df ∧ columns out = columns df.
Proof.
  unfold activity_filter. intros H. inv_ok H. subst out.
  split; [by eapply require_Ok|done].
Qed.

Lemma activity_filter_returns df :
  STUDY_NUMBER ∈ columns df → ∃ out, activity_filter df = Ok out.
Proof.
  intros H. unfold activity_filter. rewrite (require_in _ _ H).
  eexists. reflexivity.
Qed.

Lemma institute_filter_Ok df out :
  institute_filter df = Ok out →
  columns out = columns df ∧
  rows out
  = filter (λ r : Row, r !!! STUDY_NUMBER ∉
        unique ((λ r1 : Row, r1 !!! STUDY_NUMBER) <$>
                filter (λ r1 : Row,
                          str_contains "institut" (r1 !!! COURSE_TEXT) = true)
                       (rows df))) (rows df).
Proof. unfold institute_filter. intros H. inv_ok H. by subst out. Qed.

(** A row passes the institute filter when no row of its student matches
    the marker. *)
Lemma elem_of_institute_filter df out r :
  institute_filter df = Ok out →
  r ∈ rows out ↔
  r ∈ rows df ∧
  ∀ r' : Row, r' ∈ rows df →
    r' !!! STUDY_NUMBER = r !!! STUDY_NUMBER →
    str_contains "institut" (r' !!! COURSE_TEXT) = false.
Proof.
  intros [_ ->]%institute_filter_Ok.
  rewrite list_elem_of_filter, elem_of_unique, list_elem_of_fmap.
  setoid_rewrite list_elem_of_filter. split.
  - intros [Hn Hr]. split; [done|]. intros r' Hr' Hs.
    destruct (str_contains "institut" (r' !!! COURSE_TEXT)) eqn:Hm; [|done].
    destruct Hn. exists r'. by rewrite Hs.
  - intros [Hr Hall]. split; [|done]. intros (r' & Hs & Hm & Hr').
    rewrite (Hall r' Hr') in Hm by done. discriminate.
Qed.

End FilterFacts.

Import FilterFacts.

(** X3: the institute filter keeps the columns and removes whole students:
    a row is kept exactly when no row of the table with the same student
    matches the marker; the rows kept stay in their order, and none of them
    matches. *)
Theorem institute_filter_removes_students (df out : DataFrame) :
  institute_filter df = Ok out →
  columns out = columns df ∧
  rows out `sublist_of` rows df ∧
  (∀ r : Row,
     r ∈ rows out ↔
     r ∈ rows df ∧
     ∀ r' : Row, r' ∈ rows df →
       r' !!! STUDY_NUMBER = r !!! STUDY_NUMBER →
       str_contains "institut" (r' !!! COURSE_TEXT) = false) ∧
  (∀ r : Row, r ∈ rows out →
     str_contains "institut" (r !!! COURSE_TEXT) = false).
Proof.
  intros H. pose proof (institute_filter_Ok _ _ H) as [Hcols Hrows].
  split; [done|]. split; [rewrite Hrows; apply sublist_filter|].
  split; [intros r; by apply elem_of_institute_filter|].
  intros r [Hr Hall]%(elem_of_institute_filter _ _ _ H). by apply Hall.
Qed.

Lemma institute_filter_removes_students_witness :
  ∃ df out,
    institute_filter df = Ok out ∧
    columns out = columns df ∧
    rows out `sublist_of` rows df ∧
    (∀ r : Row,
       r ∈ rows out ↔
       r ∈ rows df ∧
       ∀ r' : Row, r' ∈ rows df →
         r' !!! STUDY_NUMBER = r !!! STUDY_NUMBER →
         str_contains "institut" (r' !!! COURSE_TEXT) = false) ∧
    (∀ r : Row, r ∈ rows out →
       str_contains "institut" (r !!! COURSE_TEXT) = false).
Proof.
  set (df := returned institute_table
               (cohort_filter PROGRAM institute_table ≫= activity_filter)).
  set (out := returned institute_table (institute_filter df)).
  assert (H : institute_filter df = Ok out) by computed.
  exists df, out. split; [exact H|].
  exact (institute_filter_removes_students df out H).
Defined.

(** X4: the activity filter keeps the columns and keeps exactly the rows of
    the students that are present and have more than two rows in the table;
    such a student keeps all its rows, so a second application of the filter
    removes nothing. *)
Theorem activity_filter_idempotent (df out : DataFrame) :
  activity_filter df = Ok out →
  columns out = columns df ∧
  (∀ r : Row,
     r ∈ rows out ↔
     r ∈ rows df ∧ r !!! STUDY_NUMBER ≠ NaN ∧
     (2 < count (r !!! STUDY_NUMBER) (column STUDY_NUMBER df))%nat) ∧
  (∀ s : value, s ∈ column STUDY_NUMBER out →
     count s (column STUDY_NUMBER out) = count s (column STUDY_NUMBER df)) ∧
  activity_filter out = Ok out.
Proof.
  intros H. pose proof (activity_filter_columns _ _ H) as [Hc Hcols].
  pose proof (activity_filter_Ok _ _ H) as Hrows.
  unfold column in *.
  set (P := λ v : value,
         v ≠ NaN ∧
         (2 < count v ((λ r : Row, r !!! STUDY_NUMBER) <$> rows df))%nat).
  assert (Hcount : ∀ s, s ∈ (λ r : Row, r !!! STUDY_NUMBER) <$> rows out →
            P s ∧
            count s ((λ r : Row, r !!! STUDY_NUMBER) <$> rows out)
            = count s ((λ r : Row, r !!! STUDY_NUMBER) <$> rows df)).
  { intros s. rewrite Hrows.
    intros (r & -> & [Hr _]%list_elem_of_filter)%list_elem_of_fmap.
    split; [done|]. by apply (count_column_filter STUDY_NUMBER P). }
  split; [done|]. split; [|split].
  - intros r. rewrite Hrows, list_elem_of_filter. tauto.
  - intros s Hs. by apply Hcount.
  - destruct (activity_filter_returns out) as [out' Hout']; [by rewrite Hcols|].
    rewrite Hout'. f_equal.
    pose proof (activity_filter_columns _ _ Hout') as [_ Hcols'].
    pose proof (activity_filter_Ok _ _ Hout') as Hrows'.
    rewrite filter_all in Hrows'.
    + destruct out, out'. simpl in *. by subst.
    + apply Forall_forall. intros r Hr.
      assert (Hs : r !!! STUDY_NUMBER
                   ∈ (λ r : Row, r !!! STUDY_NUMBER) <$> rows out).
      { apply list_elem_of_fmap. eauto. }
      destruct (Hcount _ Hs) as [[Hnan Hn] Heq]. split; [done|].
      unfold column. by rewrite Heq.
Qed.

Lemma activity_filter_idempotent_witness :
  ∃ df out,
    activity_filter df = Ok out ∧
    columns out = columns df ∧
    (∀ r : Row,
       r ∈ rows out ↔
       r ∈ rows df ∧ r !!! STUDY_NUMBER ≠ NaN ∧
       (2 < count (r !!! STUDY_NUMBER) (column STUDY_NUMBER df))%nat) ∧
    (∀ s : value, s ∈ column STUDY_NUMBER out →
       count s (column STUDY_NUMBER out) = count s (column STUDY_NUMBER df)) ∧
    activity_filter out = Ok out.
Proof.
  set (df := returned institute_table (cohort_filter PROGRAM institute_table)).
  set (out := returned institute_table (activity_filter df)).
  assert (H : activity_filter df = Ok out) by computed.
  exists df, out. split; [exact H|].
  exact (activity_filter_idempotent df out H).
Defined.

(** ** The canonicalizer as an operation on tables *)

Module RewriteFacts.

Lemma unique_sublist `{EqDecision A} (l : list A) : unique l `sublist_of` l.
Proof.
  induction l as [|x l IH]; simpl; [done|].
  apply sublist_skip. etrans; [apply sublist_filter|done].
Qed.

Lemma unique_nonempty `{EqDecision A} (l : list A) : l ≠ [] → unique l ≠ [].
Proof. by destruct l. Qed.

Lemma nunique_le_1_intro col :
  (∀ x y, x ∈ col → y ∈ col → x ≠ NaN → y ≠ NaN → x = y) →
  (nunique col ≤ 1)%nat.
Proof.
  intros Hall. unfold nunique.
  pose proof (NoDup_unique (dropna col)) as Hnd.
  destruct (unique (dropna col)) as [|x [|y u]] eqn:E; simpl; [lia..|].
  assert (Hx : x ∈ unique (dropna col)) by (rewrite E; set_solver).
  assert (Hy : y ∈ unique (dropna col)) by (rewrite E; set_solver).
  apply elem_of_unique, elem_of_dropna in Hx as [Hx Hxc], Hy as [Hy Hyc].
  apply NoDup_cons in Hnd as [Hxy _]. destruct Hxy.
  rewrite (Hall x y) by done. set_solver.
Qed.

Lemma canonicalize_columns df out :
  canonicalize df = Ok out →
  COURSE_TEXT ∈ columns df ∧ ECTS ∈ columns df ∧ COURSE_NUMBER ∈ columns df ∧
  columns out = columns df.
Proof.
  intros H. pose proof (canonicalize_Ok _ _ H) as Hout.
  unfold canonicalize in H.
  apply bind_Ok in H as (u1 & H1%require_Ok & H).
  apply bind_Ok in H as (u2 & H2%require_Ok & H).
  apply bind_Ok in H as (u3 & H3%require_Ok & H).
  repeat split; try done.
  by destruct Hout as [[_ ->]|(_ & canonical & _ & -> & _)].
Qed.

(** A row of the canonicalized table is a row of the input with its code
    cell written anew. *)
Lemma canonicalize_elem df out r :
  canonicalize df = Ok out → r ∈ rows out →
  (duplicate_keys (rows df) = [] ∧ r ∈ rows df) ∨
  ∃ canonical r0,
    canonical_codes (rows df) = Ok canonical ∧ r0 ∈ rows df ∧
    r = <[COURSE_NUMBER := new_code (rows df) canonical r0]> r0.
Proof.
  intros [[Hnil ->]|(Hne & canonical & Hcodes & _ & Hrows)]%canonicalize_Ok Hr;
    [by left|right].
  rewrite Hrows in Hr. unfold drop_duplicates in Hr.
  apply elem_of_unique, list_elem_of_fmap in Hr as (r0 & -> & Hr0). eauto.
Qed.

(** The canonicalizer keeps, in the order of the table, whatever is read
    off a row without looking at the code. *)
Lemma canonicalize_image {B} (g : Row → B) d d' :
  canonicalize d = Ok d' →
  (∀ r v, g (<[COURSE_NUMBER := v]> r) = g r) →
  (g <$> rows d') `sublist_of` (g <$> rows d).
Proof.
  intros [[_ ->]|(_ & canonical & _ & _ & Hrows)]%canonicalize_Ok Hg; [done|].
  rewrite Hrows. unfold drop_duplicates.
  etrans; [apply fmap_sublist, unique_sublist|].
  rewrite <-list_fmap_compose.
  erewrite (list_fmap_ext _ g); [done|]. intros i r _. apply Hg.
Qed.

(** Two present codes of one group of the input that is not rewritten are
    equal. *)
Lemma single_code (l : list Row) r1 r2 :
  r1 ∈ l → r2 ∈ l →
  group_key course_key r1 = group_key course_key r2 →
  NaN ∉ group_key course_key r1 →
  group_key course_key r1 ∉ duplicate_keys l →
  r1 !!! COURSE_NUMBER ≠ NaN → r2 !!! COURSE_NUMBER ≠ NaN →
  r1 !!! COURSE_NUMBER = r2 !!! COURSE_NUMBER.
Proof.
  intros H1 H2 Hk Hna Hnd Hc1 Hc2.
  apply (nunique_le_1 (group_codes (group_key course_key r1) l)); try done.
  - destruct (decide (1 < nunique (group_codes (group_key course_key r1) l))%nat)
      as [Hn|Hn]; [|lia].
    destruct Hnd. by apply duplicate_key_intro.
  - apply elem_of_group_codes. by exists r1.
  - apply elem_of_group_codes. by exists r2.
Qed.

Lemma canonicalize_codes_agree df out r1 r2 :
  canonicalize df = Ok out → r1 ∈ rows out → r2 ∈ rows out →
  group_key course_key r1 = group_key course_key r2 →
  NaN ∉ group_key course_key r1 →
  r1 !!! COURSE_NUMBER ≠ NaN → r2 !!! COURSE_NUMBER ≠ NaN →
  r1 !!! COURSE_NUMBER = r2 !!! COURSE_NUMBER.
Proof.
  intros Hcan H1 H2.
  destruct (canonicalize_elem _ _ _ Hcan H1)
    as [[Hnil H1']|(canonical & r1' & Hcodes & H1' & ->)].
  - destruct (canonicalize_Ok _ _ Hcan) as [[_ ->]|[Hne _]]; [|done].
    intros Hk Hna. apply (single_code (rows df)); try done.
    rewrite Hnil. apply not_elem_of_nil.
  - destruct (canonicalize_elem _ _ _ Hcan H2)
      as [[Hnil _]|(canonical' & r2' & Hcodes' & H2' & ->)].
    { destruct (canonicalize_Ok _ _ Hcan) as [[_ ->]|[Hne _]]; [|done].
      intros Hk Hna. apply (single_code (rows df)); try done.
      rewrite Hnil. apply not_elem_of_nil. }
    assert (canonical' = canonical) as -> by congruence.
    rewrite !course_key_insert, !lookup_total_insert_eq. intros Hk Hna.
    destruct (decide (group_key course_key r1' ∈ duplicate_keys (rows df)))
      as [Hd|Hd].
    + intros _ _.
      pose proof (new_code_duplicate _ _ Hcodes r1' Hd) as Hn1.
      rewrite Hk in Hd.
      pose proof (new_code_duplicate _ _ Hcodes r2' Hd) as Hn2.
      rewrite Hk in Hn1. congruence.
    + rewrite (new_code_other _ _ r1') by done.
      rewrite (new_code_other _ _ r2') by by rewrite <-Hk.
      by apply (single_code (rows df)).
Qed.

(** The most frequent code of a column exists exactly when the column holds
    a present code. *)
Lemma max_attained (s : list (value * nat)) :
  s ≠ [] → ∃ p, p ∈ s ∧ snd p = foldr Nat.max O (snd <$> s).
Proof.
  induction s as [|p s IH]; [done|]. intros _.
  destruct s as [|q s].
  - exists p. split; [set_solver|]. simpl. lia.
  - destruct IH as (p' & Hp' & Hmax); [done|].
    destruct (decide (foldr Nat.max O (snd <$> q :: s) ≤ snd p)%nat) as [Hle|Hgt].
    + exists p. split; [set_solver|].
      change (snd <$> p :: q :: s) with (snd p :: (snd <$> q :: s)).
      cbn [foldr]. lia.
    + exists p'. split; [set_solver|].
      change (snd <$> p :: q :: s) with (snd p :: (snd <$> q :: s)).
      cbn [foldr]. lia.
Qed.

Lemma idxmax_returns (s : list (value * nat)) :
  s ≠ [] → ∃ c, idxmax s = Ok c.
Proof.
  intros (p & Hp & Hmax)%max_attained. unfold idxmax.
  destruct (filter _ s) as [|p0 t] eqn:E; [|by eexists].
  assert (Hin : p ∈ filter (λ p, snd p = foldr Nat.max O (snd <$> s)) s)
    by by apply list_elem_of_filter.
  rewrite E in Hin. by apply elem_of_nil in Hin.
Qed.

Lemma value_counts_nil col :
  value_counts col = [] ↔ ∀ c, c ∈ col → c = NaN.
Proof.
  split.
  - intros Hnil c Hc. destruct (decide (c = NaN)) as [|Hn]; [done|].
    assert (Hin : (c, count c col) ∈ value_counts col)
      by (apply elem_of_value_counts; eauto).
    rewrite Hnil in Hin. by apply elem_of_nil in Hin.
  - intros Hall. destruct (value_counts col) as [|p s] eqn:E; [done|].
    assert (Hin : p ∈ value_counts col) by (rewrite E; set_solver).
    apply elem_of_value_counts in Hin as (v & _ & Hv & Hc).
    by destruct Hv, (Hall v).
Qed.

Lemma canonical_codes_returns (l : list Row) :
  (∀ k, k ∈ group_keys course_key l →
        ∃ c, c ∈ group_codes k l ∧ c ≠ NaN) →
  ∃ canonical, canonical_codes l = Ok canonical.
Proof.
  unfold canonical_codes. induction (group_keys course_key l) as [|k ks IH].
  - intros _. by eexists.
  - intros Hall. rewrite mapM_cons.
    destruct (Hall k) as (c & Hc & Hn); [set_solver|].
    destruct (idxmax_returns (value_counts (group_codes k l))) as [c' ->].
    { intros Hnil. by apply (proj1 (value_counts_nil _)) with (c := c) in Hnil. }
    destruct IH as [canonical ->]; [intros k' Hk'; apply Hall; set_solver|].
    by eexists.
Qed.

Lemma canonical_codes_raises (l : list Row) k :
  k ∈ group_keys course_key l →
  (∀ c, c ∈ group_codes k l → c = NaN) →
  canonical_codes l = Raise ValueError.
Proof.
  intros Hk Hall. unfold canonical_codes.
  apply (mapM_Raise _ _ k); [done| |].
  - by rewrite (proj2 (value_counts_nil _) Hall).
  - intros k' e H. destruct (idxmax _) as [c|e'] eqn:E; [discriminate|].
    injection H as <-. revert E. unfold idxmax.
    destruct (filter _ _); [by intros [= <-]|discriminate].
Qed.

Lemma canonicalize_returns d :
  COURSE_TEXT ∈ columns d → ECTS ∈ columns d → COURSE_NUMBER ∈ columns d →
  (∀ k, k ∈ group_keys course_key (rows d) →
        ∃ c, c ∈ group_codes k (rows d) ∧ c ≠ NaN) →
  ∃ d', canonicalize d = Ok d'.
Proof.
  intros H1 H2 H3 [canonical Hc]%canonical_codes_returns. unfold canonicalize.
  rewrite !require_in by done. cbn [mbind result_bind]. rewrite Hc.
  case_bool_decide; by eexists.
Qed.

End RewriteFacts.

Import RewriteFacts.

(** X5: the canonicalizer is idempotent: on the table it returns no group
    of (course text, credits) holds two distinct codes any more, so a second
    application returns that table as it is. *)
Theorem canonicalize_idempotent (df out : DataFrame) :
  canonicalize df = Ok out →
  duplicate_keys (rows out) = [] ∧ canonicalize out = Ok out.
Proof.
  intros H.
  destruct (canonicalize_columns _ _ H) as (H1 & H2 & H3 & Hcols).
  assert (Hnil : duplicate_keys (rows out) = []).
  { unfold duplicate_keys. apply filter_none, Forall_forall.
    intros k (r & Hr & Hg & Hk)%elem_of_group_keys Hn.
    assert (nunique (group_codes k (rows out)) ≤ 1)%nat; [|lia].
    apply nunique_le_1_intro.
    intros x y (r1 & Hr1 & Hk1 & <-)%elem_of_group_codes
               (r2 & Hr2 & Hk2 & <-)%elem_of_group_codes.
    apply (canonicalize_codes_agree df out); try done; [congruence|].
    unfold grouped in Hg. congruence. }
  split; [done|]. unfold canonicalize.
  rewrite !require_in by by rewrite Hcols.
  cbn [mbind result_bind]. by rewrite Hnil.
Qed.

Lemma canonicalize_idempotent_witness :
  ∃ out,
    canonicalize canonical_table = Ok out ∧
    duplicate_keys (rows out) = [] ∧ canonicalize out = Ok out.
Proof.
  set (out := returned canonical_table (canonicalize canonical_table)).
  assert (H : canonicalize canonical_table = Ok out) by computed.
  exists out. split; [exact H|].
  exact (canonicalize_idempotent canonical_table out H).
Defined.

(** X6: the canonicalizer writes no column but the code column and adds no
    row: it keeps the columns of the table; read on columns other than the
    code column, the rows it returns are rows of the input, in the order of
    the input; and when it has rewritten codes no row occurs twice in its
    result. *)
Theorem canonicalize_only_rewrites_codes (df out : DataFrame) :
  canonicalize df = Ok out →
  columns out = columns df ∧
  (length (rows out) ≤ length (rows df))%nat ∧
  (∀ cols : list string,
     COURSE_NUMBER ∉ cols →
     (group_key cols <$> rows out) `sublist_of` (group_key cols <$> rows df)) ∧
  (duplicate_keys (rows df) ≠ [] → NoDup (rows out)).
Proof.
  intros H. destruct (canonicalize_columns _ _ H) as (_ & _ & _ & Hcols).
  split; [done|].
  assert (Hsub : ∀ cols : list string,
    COURSE_NUMBER ∉ cols →
    (group_key cols <$> rows out) `sublist_of` (group_key cols <$> rows df)).
  { intros cols Hc. apply canonicalize_image; [done|].
    intros r v. unfold group_key. apply list_fmap_ext.
    intros j c Hj%list_elem_of_lookup_2.
    apply lookup_total_insert_ne. by intros <-. }
  split; [|split; [done|]].
  - specialize (Hsub [] ltac:(apply not_elem_of_nil)).
    apply sublist_length in Hsub. by rewrite !length_fmap in Hsub.
  - intros Hne.
    destruct (canonicalize_Ok _ _ H)
      as [[Hnil _]|(_ & canonical & _ & _ & Hrows)]; [done|].
    rewrite Hrows. apply NoDup_unique.
Qed.

Lemma canonicalize_only_rewrites_codes_witness :
  ∃ out,
    canonicalize canonical_table = Ok out ∧
    columns out = columns canonical_table ∧
    (length (rows out) ≤ length (rows canonical_table))%nat ∧
    (∀ cols : list string,
       COURSE_NUMBER ∉ cols →
       (group_key cols <$> rows out)
       `sublist_of` (group_key cols <$> rows canonical_table)) ∧
    (duplicate_keys (rows canonical_table) ≠ [] → NoDup (rows out)).
Proof.
  set (out := returned canonical_table (canonicalize canonical_table)).
  assert (H : canonicalize canonical_table = Ok out) by computed.
  exists out. split; [exact H|].
  exact (canonicalize_only_rewrites_codes canonical_table out H).
Defined.

(** X7: when the table has the three columns the canonicalizer reads, it
    returns unless it has to choose a code for a group without any: it
    returns the table as it is when no group holds two distinct codes, it
    returns when every group of (course text, credits) holds a present
    code, and it dies of ValueError when some group holds two distinct codes
    and some group only missing ones. *)
Theorem canonicalize_fails_on_group_without_code (df : DataFrame) :
  COURSE_TEXT ∈ columns df → ECTS ∈ columns df → COURSE_NUMBER ∈ columns df →
  (duplicate_keys (rows df) = [] → canonicalize df = Ok df) ∧
  ((∀ k, k ∈ group_keys course_key (rows df) →
         ∃ c, c ∈ group_codes k (rows df) ∧ c ≠ NaN) →
   ∃ out, canonicalize df = Ok out) ∧
  (∀ k, duplicate_keys (rows df) ≠ [] →
        k ∈ group_keys course_key (rows df) →
        (∀ c, c ∈ group_codes k (rows df) → c = NaN) →
        canonicalize df = Raise ValueError).
Proof.
  intros H1 H2 H3. split; [|split].
  - intros Hnil. unfold canonicalize.
    rewrite !require_in by done. cbn [mbind result_bind]. by rewrite Hnil.
  - by apply canonicalize_returns.
  - intros k Hne Hk Hall. unfold canonicalize.
    rewrite !require_in by done. cbn [mbind result_bind].
    rewrite bool_decide_eq_true_2.
    + by rewrite (canonical_codes_raises _ k).
    + destruct (duplicate_keys (rows df)); [done|]. simpl. lia.
Qed.

Lemma canonicalize_fails_on_group_without_code_witness :
  COURSE_TEXT ∈ columns canonical_table ∧
  ECTS ∈ columns canonical_table ∧
  COURSE_NUMBER ∈ columns canonical_table ∧
  (duplicate_keys (rows canonical_table) = [] →
   canonicalize canonical_table = Ok canonical_table) ∧
  ((∀ k, k ∈ group_keys course_key (rows canonical_table) →
         ∃ c, c ∈ group_codes k (rows canonical_table) ∧ c ≠ NaN) →
   ∃ out, canonicalize canonical_table = Ok out) ∧
  (∀ k, duplicate_keys (rows canonical_table) ≠ [] →
        k ∈ group_keys course_key (rows canonical_table) →
        (∀ c, c ∈ group_codes k (rows canonical_table) → c = NaN) →
        canonicalize canonical_table = Raise ValueError).
Proof.
  assert (H1 : COURSE_TEXT ∈ columns canonical_table)
    by (apply (bool_decide_eq_true_1 (COURSE_TEXT ∈ columns canonical_table));
        computed).
  assert (H2 : ECTS ∈ columns canonical_table)
    by (apply (bool_decide_eq_true_1 (ECTS ∈ columns canonical_table));
        computed).
  assert (H3 : COURSE_NUMBER ∈ columns canonical_table)
    by (apply (bool_decide_eq_true_1 (COURSE_NUMBER ∈ columns canonical_table));
        computed).
  split; [exact H1|]. split; [exact H2|]. split; [exact H3|].
  exact (canonicalize_fails_on_group_without_code canonical_table H1 H2 H3).
Defined.

(** ** Reading and writing dates *)

Module FormatFacts.
Import Dates.

Lemma digit_char_not_slash n : digit_char n ≠ "/"%char.
Proof.
  destruct (digit_char_cases n) as (k & Hk & _ & ->).
  digit_cases k Hk'; vm_compute; discriminate.
Qed.

Lemma split_dmy_text d :
  split "/" (dmy_text d) = [pad2 (day d); pad2 (month d); pad4 (year d)].
Proof.
  unfold dmy_text, pad4, pad2. cbv [String.append].
  repeat first
    [ rewrite split_cons_eq
    | rewrite split_cons_ne by apply digit_char_not_slash ].
  reflexivity.
Qed.

Lemma split_strftime_slash d : split "/" (strftime d) = [strftime d].
Proof.
  unfold strftime, pad4, pad2. cbv [String.append].
  repeat rewrite split_cons_ne by (apply digit_char_not_slash || discriminate).
  reflexivity.
Qed.

Lemma parse_d_pad2 n : 1 ≤ n ≤ 31 → parse_d (pad2 n) = Some n.
Proof.
  intros Hn.
  assert (H : n = 1 ∨ n = 2 ∨ n = 3 ∨ n = 4 ∨ n = 5 ∨ n = 6 ∨ n = 7 ∨ n = 8
    ∨ n = 9 ∨ n = 10 ∨ n = 11 ∨ n = 12 ∨ n = 13 ∨ n = 14 ∨ n = 15 ∨ n = 16
    ∨ n = 17 ∨ n = 18 ∨ n = 19 ∨ n = 20 ∨ n = 21 ∨ n = 22 ∨ n = 23 ∨ n = 24
    ∨ n = 25 ∨ n = 26 ∨ n = 27 ∨ n = 28 ∨ n = 29 ∨ n = 30 ∨ n = 31) by lia.
  repeat (destruct H as [->|H]); [..|subst n]; vm_compute; reflexivity.
Qed.

Lemma parse_m_pad2 n : 1 ≤ n ≤ 12 → parse_m (pad2 n) = Some n.
Proof.
  intros Hn.
  assert (H : n = 1 ∨ n = 2 ∨ n = 3 ∨ n = 4 ∨ n = 5 ∨ n = 6 ∨ n = 7 ∨ n = 8
    ∨ n = 9 ∨ n = 10 ∨ n = 11 ∨ n = 12) by lia.
  repeat (destruct H as [->|H]); [..|subst n]; vm_compute; reflexivity.
Qed.

Lemma parse_dmy_dmy_text d : valid_date d = true → parse_dmy (dmy_text d) = Some d.
Proof.
  intros Hv. pose proof (valid_date_bounds d Hv) as (Hy & Hm & Hd).
  unfold parse_dmy. rewrite split_dmy_text.
  rewrite parse_d_pad2, parse_m_pad2, parse_Y_pad4 by lia. simpl.
  unfold checked. destruct d. simpl in *. by rewrite Hv.
Qed.

Lemma parse_dmy_strftime d : parse_dmy (strftime d) = None.
Proof. unfold parse_dmy. by rewrite split_strftime_slash. Qed.

(** What the date normalizer writes in a cell. *)
Lemma iso_date_Ok v w :
  iso_date v = Ok w →
  (w = NaN ∧ (v = NaN ∨ ∃ s, v = Str s ∧ s ∈ nat_strings)) ∨
  (∃ s d, v = Str s ∧ (s ∉ nat_strings) ∧ parse_dmy s = Some d ∧
          w = Str (strftime d)).
Proof.
  unfold iso_date, to_datetime. destruct v as [|s|z]; [| |discriminate].
  - intros [= <-]. left. auto.
  - case_bool_decide as Hn.
    + intros [= <-]. left. eauto.
    + destruct (parse_dmy s) as [d|] eqn:Hd; [|discriminate].
      intros [= <-]. right. eauto 10.
Qed.

Lemma iso_date_missing v :
  v = NaN ∨ (∃ s, v = Str s ∧ s ∈ nat_strings) → iso_date v = Ok NaN.
Proof.
  unfold iso_date, to_datetime. intros [->|(s & -> & Hs)]; [done|].
  by rewrite bool_decide_eq_true_2.
Qed.

Lemma iso_date_raises v e : iso_date v = Raise e → e = ValueError.
Proof.
  unfold iso_date, to_datetime. destruct v as [|s|z]; [discriminate| |by intros [= <-]].
  case_bool_decide; [discriminate|].
  destruct (parse_dmy s); [discriminate|by intros [= <-]].
Qed.

Lemma get_semester_written w :
  w = NaN ∨ (∃ d, valid_date d = true ∧ w = Str (strftime d)) →
  ∃ lbl, get_semester w = Ok lbl.
Proof.
  intros [->|(d & Hv & ->)]; [by eexists|].
  eexists. by apply get_semester_strftime.
Qed.

Lemma mapM_returns {A B} (f : A → result B) (l : list A) :
  (∀ x, x ∈ l → ∃ y, f x = Ok y) → ∃ l', mapM f l = Ok l'.
Proof.
  induction l as [|x l IH]; intros Hall; [by eexists|].
  rewrite mapM_cons. destruct (Hall x) as [y ->]; [set_solver|].
  destruct IH as [l' ->]; [intros z Hz; apply Hall; set_solver|].
  by eexists.
Qed.

Lemma with_column_present c df l :
  c ∈ columns df → columns (with_column c df l) = columns df.
Proof. intros H. unfold with_column. simpl. by rewrite bool_decide_eq_true_2. Qed.

Lemma to_iso_columns df df1 :
  to_iso df = Ok df1 → GRADING_DATE ∈ columns df ∧ columns df1 = columns df.
Proof.
  unfold to_iso. intros H.
  apply bind_Ok in H as (u & Hc%require_Ok & H). inv_ok H. subst df1.
  split; [done|]. by apply with_column_present.
Qed.

Lemma add_semester_returns df d1 :
  to_iso df = Ok d1 → ∃ d2, add_semester d1 = Ok d2.
Proof.
  intros H. pose proof (to_iso_columns _ _ H) as [Hc Hcols].
  pose proof (to_iso_Ok _ _ H) as H1.
  unfold add_semester. rewrite require_in by by rewrite Hcols.
  cbn [mbind result_bind].
  destruct (mapM_returns
    (λ r : Row, s ← get_semester (r !!! GRADING_DATE);
                mret (<[SEMESTER := Str s]> r)) (rows d1)) as [l' ->];
    [|by eexists].
  intros r1 [i Hi]%list_elem_of_lookup.
  destruct (Forall2_lookup_r _ _ _ _ _ H1 Hi) as (r & _ & v & Hv & ->).
  rewrite lookup_total_insert_eq.
  destruct (get_semester_written v) as [lbl ->]; [|by eexists].
  apply iso_date_Ok in Hv as [[-> _]|(s & d & _ & _ & Hd & ->)]; [by left|].
  right. exists d. split; [|done]. by eapply parse_dmy_valid.
Qed.

End FormatFacts.

Import FormatFacts.

(** X8: the two date formats of the script fit together.  A calendar date
    that a Timestamp can hold, written as day/month/year, is read by the
    date normalizer and written back in ISO form; the ISO text is read back
    to the same date by the parser of the semester labeler; and the ISO text
    is not a day/month/year text, so the date normalizer dies of ValueError
    on a cell that it has written itself. *)
Theorem date_formats_round_trip (d : date) :
  Dates.valid_date d = true →
  Dates.parse_dmy (dmy_text d) = Some d ∧
  iso_date (Str (dmy_text d)) = Ok (Str (Dates.strftime d)) ∧
  Dates.parse_iso (Dates.strftime d) = Some d ∧
  get_semester (Str (Dates.strftime d)) = Ok (label d) ∧
  iso_date (Str (Dates.strftime d)) = Raise ValueError.
Proof.
  intros Hv. pose proof (parse_dmy_dmy_text d Hv) as Hp.
  split; [done|]. split; [by apply iso_date_parsed|].
  split; [by apply parse_iso_strftime|].
  split; [by apply get_semester_strftime|].
  unfold iso_date, Dates.to_datetime.
  rewrite bool_decide_eq_false_2 by apply strftime_not_nat.
  by rewrite parse_dmy_strftime.
Qed.

Lemma date_formats_round_trip_witness :
  Dates.valid_date (mkDate 2023 1 15) = true ∧
  Dates.parse_dmy (dmy_text (mkDate 2023 1 15)) = Some (mkDate 2023 1 15) ∧
  iso_date (Str (dmy_text (mkDate 2023 1 15)))
  = Ok (Str (Dates.strftime (mkDate 2023 1 15))) ∧
  Dates.parse_iso (Dates.strftime (mkDate 2023 1 15)) = Some (mkDate 2023 1 15) ∧
  get_semester (Str (Dates.strftime (mkDate 2023 1 15)))
  = Ok (label (mkDate 2023 1 15)) ∧
  iso_date (Str (Dates.strftime (mkDate 2023 1 15))) = Raise ValueError.
Proof.
  split; [reflexivity|].
  apply (date_formats_round_trip (mkDate 2023 1 15)). reflexivity.
Defined.

(** X9: on a table with a grading-date column the date normalizer returns
    when every cell of the column is missing or a text in day/month/year
    form of a date a Timestamp can hold; it then keeps the columns and the
    number of rows.  One cell that holds another text makes the whole stage
    die of ValueError. *)
Theorem to_iso_fails_on_malformed_date (df : DataFrame) :
  GRADING_DATE ∈ columns df →
  ((∀ r : Row, r ∈ rows df →
      r !!! GRADING_DATE = NaN ∨
      ∃ s : string, r !!! GRADING_DATE = Str s ∧
        (s ∈ Dates.nat_strings ∨ is_Some (Dates.parse_dmy s))) →
   ∃ out : DataFrame,
     to_iso df = Ok out ∧ columns out = columns df ∧
     length (rows out) = length (rows df)) ∧
  ((∃ (r : Row) (s : string),
      r ∈ rows df ∧ r !!! GRADING_DATE = Str s ∧
      (s ∉ Dates.nat_strings) ∧ Dates.parse_dmy s = None) →
   to_iso df = Raise ValueError).
Proof.
  intros Hc. split.
  - intros Hall.
    destruct (mapM_returns
      (λ r : Row, v ← iso_date (r !!! GRADING_DATE);
                  mret (<[GRADING_DATE := v]> r)) (rows df)) as [l' Hl'].
    { intros r Hr. destruct (Hall r Hr) as [Hv|(s & Hv & [Hs|[d Hd]])].
      - rewrite iso_date_missing by auto. by eexists.
      - rewrite iso_date_missing by eauto. by eexists.
      - rewrite Hv, (iso_date_parsed _ _ Hd). by eexists. }
    assert (Hout : to_iso df = Ok (with_column GRADING_DATE df l')).
    { unfold to_iso. rewrite (require_in _ _ Hc). cbn [mbind result_bind].
      by rewrite Hl'. }
    eexists. split; [exact Hout|]. split; [by apply with_column_present|].
    apply to_iso_Ok, Forall2_length in Hout. done.
  - intros (r & s & Hr & Hv & Hs & Hp). unfold to_iso.
    rewrite (require_in _ _ Hc). cbn [mbind result_bind].
    erewrite mapM_Raise; [done|exact Hr| |].
    + rewrite Hv. unfold iso_date, Dates.to_datetime.
      rewrite bool_decide_eq_false_2 by done. by rewrite Hp.
    + intros r' e H.
      destruct (iso_date (r' !!! GRADING_DATE)) as [v|e'] eqn:E; [discriminate|].
      injection H as <-. by apply iso_date_raises in E.
Qed.

Lemma to_iso_fails_on_malformed_date_witness :
  GRADING_DATE ∈ columns cohort_table ∧
  ((∀ r : Row, r ∈ rows cohort_table →
      r !!! GRADING_DATE = NaN ∨
      ∃ s : string, r !!! GRADING_DATE = Str s ∧
        (s ∈ Dates.nat_strings ∨ is_Some (Dates.parse_dmy s))) →
   ∃ out : DataFrame,
     to_iso cohort_table = Ok out ∧ columns out = columns cohort_table ∧
     length (rows out) = length (rows cohort_table)) ∧
  ((∃ (r : Row) (s : string),
      r ∈ rows cohort_table ∧ r !!! GRADING_DATE = Str s ∧
      (s ∉ Dates.nat_strings) ∧ Dates.parse_dmy s = None) →
   to_iso cohort_table = Raise ValueError).
Proof.
  assert (H : GRADING_DATE ∈ columns cohort_table).
  { apply (bool_decide_eq_true_1 (GRADING_DATE ∈ columns cohort_table)).
    computed. }
  split; [exact H|].
  exact (to_iso_fails_on_malformed_date cohort_table H).
Defined.

(** X10: the semester labeler cannot fail after the date normalizer: on the
    table that the date normalizer returns it returns, with one row per row;
    a record without a grading date (a missing cell or one of the texts read
    as missing) still has none after the date normalizer and gets the label
    "Spring nan". *)
Theorem add_semester_after_to_iso (df d1 : DataFrame) :
  to_iso df = Ok d1 →
  ∃ d2 : DataFrame,
    add_semester d1 = Ok d2 ∧
    length (rows d2) = length (rows df) ∧
    ∀ (i : nat) (r : Row),
      rows df !! i = Some r →
      (r !!! GRADING_DATE = NaN ∨
       ∃ s : string, r !!! GRADING_DATE = Str s ∧ s ∈ Dates.nat_strings) →
      ∃ r2 : Row,
        rows d2 !! i = Some r2 ∧
        r2 !!! GRADING_DATE = NaN ∧
        r2 !!! SEMESTER = Str "Spring nan".
Proof.
  intros H. pose proof (to_iso_Ok _ _ H) as H1.
  destruct (add_semester_returns _ _ H) as [d2 Hout].
  pose proof (add_semester_Ok _ _ Hout) as H2.
  exists d2. split; [exact Hout|]. split.
  - apply Forall2_length in H1, H2. congruence.
  - intros i r Hi Hmiss.
    destruct (Forall2_lookup_l _ _ _ _ _ H1 Hi) as (r1 & Hi1 & v & Hv & ->).
    destruct (Forall2_lookup_l _ _ _ _ _ H2 Hi1) as (r2 & Hi2 & lbl & Hl & ->).
    rewrite (iso_date_missing _ Hmiss) in Hv. injection Hv as <-.
    rewrite lookup_total_insert_eq in Hl. injection Hl as <-.
    eexists. split; [exact Hi2|].
    by rewrite lookup_total_insert_ne, !lookup_total_insert_eq.
Qed.

Lemma add_semester_after_to_iso_witness :
  ∃ d1,
    to_iso missing_date_table = Ok d1 ∧
    ∃ d2 : DataFrame,
      add_semester d1 = Ok d2 ∧
      length (rows d2) = length (rows missing_date_table) ∧
      ∀ (i : nat) (r : Row),
        rows missing_date_table !! i = Some r →
        (r !!! GRADING_DATE = NaN ∨
         ∃ s : string, r !!! GRADING_DATE = Str s ∧ s ∈ Dates.nat_strings) →
        ∃ r2 : Row,
          rows d2 !! i = Some r2 ∧
          r2 !!! GRADING_DATE = NaN ∧
          r2 !!! SEMESTER = Str "Spring nan".
Proof.
  set (d1 := returned missing_date_table (to_iso missing_date_table)).
  assert (H1 : to_iso missing_date_table = Ok d1) by computed.
  exists d1. split; [exact H1|].
  exact (add_semester_after_to_iso missing_date_table d1 H1).
Defined.

(** X11: a record of a known student without a grading date stops the run
    in the aligner: its group cannot be given an end date, because the years
    of a group with a missing date are floats, and the grouped apply
    raises. *)
Theorem missing_date_aborts_alignment (d1 d2 : DataFrame) (r : Row) :
  add_semester d1 = Ok d2 →
  r ∈ rows d1 →
  r !!! GRADING_DATE = NaN →
  r !!! STUDY_NUMBER ≠ NaN →
  ∃ e : exn, align d2 = Raise e.
Proof.
  intros Hs [i Hi]%list_elem_of_lookup Hdate Hstudent.
  destruct (align d2) as [d3|e] eqn:Ha; [exfalso|by eexists].
  pose proof (add_semester_Ok _ _ Hs) as H2.
  destruct (Forall2_lookup_l _ _ _ _ _ H2 Hi) as (r2 & Hi2 & lbl & _ & ->).
  set (r2 := <[SEMESTER := Str lbl]> r) in *.
  assert (Hr2 : r2 ∈ rows d2) by (apply list_elem_of_lookup; eauto).
  assert (Hk : group_key semester_key r2 ∈ group_keys semester_key (rows d2)).
  { apply elem_of_group_keys. exists r2. split; [done|]. split; [|done].
    unfold grouped, group_key, semester_key, r2. simpl.
    rewrite lookup_total_insert_eq, lookup_total_insert_ne by done.
    rewrite !elem_of_cons, elem_of_nil. naive_solver. }
  apply align_rows in Ha.
  destruct (groupby_apply_group _ _ _ _ _ Ha Hk) as (g & Hg & _).
  assert (Hin : r2 ∈ group semester_key (group_key semester_key r2) (rows d2))
    by by apply elem_of_group.
  destruct (group semester_key _ (rows d2)) as [|first rest];
    [by apply elem_of_nil in Hin|].
  apply set_semester_Ok in Hg as (lbl' & ds & d0 & _ & Hds & _ & _).
  apply list_elem_of_lookup in Hin as [j Hj].
  destruct (Forall2_lookup_l _ _ _ _ _ Hds Hj) as (d & _ & Hd).
  unfold r2 in Hd. rewrite lookup_total_insert_ne, Hdate in Hd by done.
  discriminate.
Qed.

Lemma missing_date_aborts_alignment_witness :
  ∃ d1 d2 r,
    add_semester d1 = Ok d2 ∧
    r ∈ rows d1 ∧
    r !!! GRADING_DATE = NaN ∧
    r !!! STUDY_NUMBER ≠ NaN ∧
    ∃ e : exn, align d2 = Raise e.
Proof.
  set (d1 := returned missing_date_table (to_iso missing_date_table)).
  set (d2 := returned missing_date_table (add_semester d1)).
  set (r := rows d1 !!! 2%nat).
  assert (H1 : add_semester d1 = Ok d2) by computed.
  assert (H2 : r ∈ rows d1)
    by (apply (bool_decide_eq_true_1 (r ∈ rows d1)); computed).
  assert (H3 : r !!! GRADING_DATE = NaN) by computed.
  assert (H4 : r !!! STUDY_NUMBER ≠ NaN)
    by (apply (bool_decide_eq_true_1 (r !!! STUDY_NUMBER ≠ NaN)); computed).
  exists d1, d2, r. split; [exact H1|]. split; [exact H2|].
  split; [exact H3|]. split; [exact H4|].
  exact (missing_date_aborts_alignment d1 d2 r H1 H2 H3 H4).
Defined.

(** ** The attempt numbers of a group *)

Module NumberingFacts.

Lemma zip_attempt_cons (r : Row) l v vs :
  zip_with (λ (r : Row) (v : value), <[ATTEMPT := v]> r) (r :: l) (v :: vs)
  = <[ATTEMPT := v]> r
    :: zip_with (λ (r : Row) (v : value), <[ATTEMPT := v]> r) l vs.
Proof. reflexivity. Qed.

Lemma cumcount_cons cols seen (r : Row) l :
  cumcount cols seen (r :: l)
  = (if bool_decide (NaN ∈ group_key cols r) then NaN
     else Int (Z.of_nat (count (group_key cols r) seen)))
    :: cumcount cols (group_key cols r :: seen) l.
Proof. reflexivity. Qed.

(** The numbers given to the rows of one group, in table order. *)
Lemma attempts_of_group seen (l : list Row) k :
  NaN ∉ k →
  (λ r : Row, r !!! ATTEMPT) <$>
    filter (λ r, group_key attempt_key r = k)
      (zip_with (λ (r : Row) (v : value), <[ATTEMPT := v]> r) l
                (add_one <$> cumcount attempt_key seen l))
  = (λ i : nat, Int (Z.of_nat i))
    <$> seq (S (count k seen)) (length (group attempt_key k l)).
Proof.
  intros Hk. revert seen. induction l as [|r l IH]; intros seen; [done|].
  rewrite cumcount_cons, fmap_cons, zip_attempt_cons.
  unfold group. rewrite !filter_cons, attempt_key_insert.
  destruct (decide (group_key attempt_key r = k)) as [Hr|Hr].
  - rewrite fmap_cons, lookup_total_insert_eq, IH.
    rewrite Hr, bool_decide_eq_false_2 by done.
    rewrite count_cons, decide_True by done.
    cbn [length seq fmap list_fmap add_one]. f_equal.
    f_equal. lia.
  - rewrite IH. by rewrite count_cons, decide_False.
Qed.

Lemma attempts_of_missing_key seen (l : list Row) r :
  r ∈ zip_with (λ (r : Row) (v : value), <[ATTEMPT := v]> r) l
               (add_one <$> cumcount attempt_key seen l) →
  NaN ∈ group_key attempt_key r → r !!! ATTEMPT = NaN.
Proof.
  revert seen. induction l as [|r0 l IH]; intros seen; [by intros ?%elem_of_nil|].
  rewrite cumcount_cons, fmap_cons, zip_attempt_cons.
  intros [->|Hr]%elem_of_cons; [|by eapply IH].
  rewrite attempt_key_insert, lookup_total_insert_eq. intros Hk.
  by rewrite bool_decide_eq_true_2.
Qed.

End NumberingFacts.

Import NumberingFacts.

(** X12: the attempt numbers of a (student, course code) group are
    1, 2, ..., n without gap or repeat, n the number of rows of the group:
    the counter hands them out in this order down the table, and the sorted
    table holds each of them once in the group.  A row whose student or code
    is missing is in no group and gets no number. *)
Theorem attempts_contiguous (df out sorted : DataFrame) :
  add_attempt df = Ok out →
  sort_rows out = Ok sorted →
  (∀ k : list value,
     NaN ∉ k →
     (λ r : Row, r !!! ATTEMPT) <$> group attempt_key k (rows out)
     = (λ i : nat, Int (Z.of_nat i))
       <$> seq 1 (length (group attempt_key k (rows df))) ∧
     (λ r : Row, r !!! ATTEMPT) <$> group attempt_key k (rows sorted)
     ≡ₚ (λ i : nat, Int (Z.of_nat i))
        <$> seq 1 (length (group attempt_key k (rows df)))) ∧
  (∀ r : Row, r ∈ rows sorted →
     NaN ∈ group_key attempt_key r → r !!! ATTEMPT = NaN).
Proof.
  intros Hadd Hsort. pose proof (sort_rows_perm _ _ Hsort) as Hperm.
  unfold add_attempt in Hadd. inv_ok Hadd. subst out.
  cbn [rows with_column] in *. split.
  - intros k Hk.
    assert (Hout := attempts_of_group [] (rows df) k Hk).
    change (count k []) with O in Hout.
    split; [exact Hout|].
    rewrite <-Hout. unfold group. by rewrite Hperm.
  - intros r Hr Hk. rewrite Hperm in Hr.
    by apply (attempts_of_missing_key [] (rows df)).
Qed.

Lemma attempts_contiguous_witness :
  ∃ df out sorted,
    add_attempt df = Ok out ∧
    sort_rows out = Ok sorted ∧
    (∀ k : list value,
       NaN ∉ k →
       (λ r : Row, r !!! ATTEMPT) <$> group attempt_key k (rows out)
       = (λ i : nat, Int (Z.of_nat i))
         <$> seq 1 (length (group attempt_key k (rows df))) ∧
       (λ r : Row, r !!! ATTEMPT) <$> group attempt_key k (rows sorted)
       ≡ₚ (λ i : nat, Int (Z.of_nat i))
          <$> seq 1 (length (group attempt_key k (rows df)))) ∧
    (∀ r : Row, r ∈ rows sorted →
       NaN ∈ group_key attempt_key r → r !!! ATTEMPT = NaN).
Proof.
  set (df := returned retake_table
               ((to_iso retake_table ≫= add_semester) ≫= align)).
  set (out := returned retake_table (add_attempt df)).
  set (sorted := returned retake_table (sort_rows out)).
  assert (H1 : add_attempt df = Ok out) by computed.
  assert (H2 : sort_rows out = Ok sorted) by computed.
  exists df, out, sorted. split; [exact H1|]. split; [exact H2|].
  exact (attempts_contiguous df out sorted H1 H2).
Defined.

(** ** A row from the input to the output *)

Module TraceFacts.

Lemma normalize_course_text_Ok df out :
  normalize_course_text df = Ok out →
  columns out = columns df ∧
  Forall2 (λ r r' : Row, ∃ t, r !!! COURSE_TEXT = Str t ∧
                              r' = <[COURSE_TEXT := Str (normalize_text t)]> r)
          (rows df) (rows out).
Proof.
  unfold normalize_course_text. intros H.
  apply bind_Ok in H as (u & Hc%require_Ok & H). inv_ok H. subst out.
  split; [by apply with_column_present|]. cbn [rows with_column].
  eapply Forall2_impl; [by apply mapM_Ok|].
  intros r r' Hr. simpl in Hr.
  destruct (r !!! COURSE_TEXT) as [|t|z]; try discriminate.
  injection Hr as <-. eauto.
Qed.

(** A row that leaves the filters and the text normalizer is a row of
    the target program with the program cell removed and the course text
    normalized. *)
Lemma clean_elem df d r :
  clean df = Ok d → r ∈ rows d →
  ∃ (r0 : Row) (t : string),
    r0 ∈ rows df ∧ r0 !!! EDUCATION = Str PROGRAM ∧
    r0 !!! STUDY_NUMBER ≠ NaN ∧ r0 !!! COURSE_TEXT = Str t ∧
    str_contains "institut" (Str t) = false ∧
    r = <[COURSE_TEXT := Str (normalize_text t)]> (delete EDUCATION r0).
Proof.
  unfold clean. intros H [i Hi]%list_elem_of_lookup.
  apply bind_Ok in H as (d1 & (_ & _ & H1)%cohort_filter_Ok & H).
  apply bind_Ok in H as (d2 & H2%activity_filter_Ok & H).
  apply bind_Ok in H as (d3 & H3 & H).
  apply normalize_course_text_Ok in H as [_ H4].
  destruct (Forall2_lookup_r _ _ _ _ _ H4 Hi) as (r3 & Hi3 & t & Ht & ->).
  apply list_elem_of_lookup_2 in Hi3.
  apply (elem_of_institute_filter _ _ _ H3) in Hi3 as [Hr2 Hinst].
  specialize (Hinst r3 Hr2 eq_refl). rewrite Ht in Hinst.
  rewrite H2 in Hr2. apply list_elem_of_filter in Hr2 as [[Hnan _] Hr1].
  rewrite H1 in Hr1.
  apply list_elem_of_fmap in Hr1 as (r0 & -> & [Hp Hr0]%list_elem_of_filter).
  rewrite lookup_total_delete_ne in Hnan, Ht by done.
  exists r0, t. done.
Qed.

(** The filters and the text normalizer keep, in the order of the table,
    whatever is read off a row of the target program without looking at the
    program and the course text. *)
Lemma clean_image {B} (g : Row → B) df d :
  clean df = Ok d →
  (∀ r, g (delete EDUCATION r) = g r) →
  (∀ r v, g (<[COURSE_TEXT := v]> r) = g r) →
  (g <$> rows d)
  `sublist_of` (g <$> filter (λ r : Row, r !!! EDUCATION = Str PROGRAM) (rows df)).
Proof.
  unfold clean. intros H Hg1 Hg2.
  apply bind_Ok in H as (d1 & (_ & _ & H1)%cohort_filter_Ok & H).
  apply bind_Ok in H as (d2 & H2%activity_filter_Ok & H).
  apply bind_Ok in H as (d3 & [_ H3]%institute_filter_Ok & H).
  apply normalize_course_text_Ok in H as [_ H4].
  rewrite (image_Forall2 g (rows d3) (rows d)).
  2:{ eapply Forall2_impl; [exact H4|]. by intros r r' (t & _ & ->). }
  assert (g <$> rows d1
          = g <$> filter (λ r : Row, r !!! EDUCATION = Str PROGRAM) (rows df))
    as <-.
  { rewrite H1, <-list_fmap_compose. apply list_fmap_ext. intros j r _. apply Hg1. }
  apply fmap_sublist. rewrite H3, H2.
  etrans; apply sublist_filter.
Qed.

Lemma pipeline_stages df out :
  pipeline df = Ok out →
  ∃ d d', clean df = Ok d ∧ canonicalize d = Ok d' ∧ derive d' = Ok out.
Proof.
  unfold pipeline. intros H.
  apply bind_Ok in H as (d & Hd & H). apply bind_Ok in H as (d' & Hd' & H).
  eauto.
Qed.

(** Through the whole run. *)
Lemma pipeline_image {B} (g : Row → B) df out :
  pipeline df = Ok out →
  (∀ r, g (delete EDUCATION r) = g r) →
  (∀ c r v, c ∈ [COURSE_TEXT; COURSE_NUMBER; GRADING_DATE; SEMESTER;
                 SEMESTER_END; ATTEMPT] →
            g (<[c := v]> r) = g r) →
  g <$> rows out
  ⊆+ g <$> filter (λ r : Row, r !!! EDUCATION = Str PROGRAM) (rows df).
Proof.
  intros (d & d' & Hd & Hd' & Hout)%pipeline_stages Hg1 Hg2.
  apply submseteq_sublist_r. exists (g <$> rows d'). split.
  - apply derive_image; [done| |].
    + intros r. by apply (canonicalized_students df d d').
    + intros c r v Hc. apply Hg2. set_solver.
  - etrans; [apply canonicalize_image|apply clean_image]; try done.
    + intros r v. apply Hg2. set_solver.
    + intros r v. apply Hg2. set_solver.
Qed.



Lemma add_semester_columns d d' :
  add_semester d = Ok d' →
  columns d' = if bool_decide (SEMESTER ∈ columns d) then columns d
               else columns d ++ [SEMESTER].
Proof. unfold add_semester. intros H. inv_ok H. by subst d'. Qed.

Lemma align_columns d d' :
  align d = Ok d' →
  columns d' = columns d ∨
  columns d' = if bool_decide (SEMESTER_END ∈ columns d) then columns d
               else columns d ++ [SEMESTER_END].
Proof.
  unfold align. intros H. inv_ok H.
  case_bool_decide.
  - apply ret_Ok in H. subst d'. by left.
  - inv_ok H. subst d'. by right.
Qed.

Lemma add_attempt_columns d d' :
  add_attempt d = Ok d' →
  columns d' = if bool_decide (ATTEMPT ∈ columns d) then columns d
               else columns d ++ [ATTEMPT].
Proof. unfold add_attempt. intros H. inv_ok H. by subst d'. Qed.

Lemma clean_columns df d :
  clean df = Ok d →
  columns d = filter (λ c, c ≠ EDUCATION) (columns df) ∧
  STUDY_NUMBER ∈ columns d ∧ COURSE_TEXT ∈ columns d.
Proof.
  unfold clean. intros Hd.
  apply bind_Ok in Hd as (c1 & (_ & E1 & _)%cohort_filter_Ok & Hd).
  apply bind_Ok in Hd as (c2 & [Hs E2]%activity_filter_columns & Hd).
  apply bind_Ok in Hd as (c3 & [E3 _]%institute_filter_Ok & Hd).
  pose proof (normalize_course_text_Ok _ _ Hd) as [E4 _].
  unfold normalize_course_text in Hd.
  apply bind_Ok in Hd as (u & Ht%require_Ok & _).
  split; [congruence|]. split; [congruence|].
  by rewrite E4.
Qed.

Lemma sort_rows_key_columns d out :
  sort_rows d = Ok out →
  STUDY_NUMBER ∈ columns d ∧ COURSE_NUMBER ∈ columns d ∧
  SEMESTER_END ∈ columns d ∧ columns out = columns d.
Proof.
  unfold sort_rows, sort_values, sort_key. rewrite !mapM_cons. intros H.
  apply bind_Ok in H as (us & H1 & H).
  apply bind_Ok in H1 as (u1 & Hc1%require_Ok & H1).
  apply bind_Ok in H1 as (us1 & H2 & _).
  apply bind_Ok in H2 as (u2 & Hc2%require_Ok & H2).
  apply bind_Ok in H2 as (us2 & H3 & _).
  apply bind_Ok in H3 as (u3 & Hc3%require_Ok & _).
  apply ret_Ok in H. by subst out.
Qed.

End TraceFacts.

Import TraceFacts.

(** X13: the columns of the output are the columns of the input without
    the program column, in their order, followed by the three columns the
    script adds, in the order in which it adds them (the input is assumed
    not to have columns of these three names). *)
Theorem pipeline_columns (df out : DataFrame) :
  SEMESTER ∉ columns df → SEMESTER_END ∉ columns df → ATTEMPT ∉ columns df →
  pipeline df = Ok out →
  columns out
  = filter (λ c, c ≠ EDUCATION) (columns df)
    ++ [SEMESTER; SEMESTER_END; ATTEMPT].
Proof.
  intros Hn1 Hn2 Hn3 (d & d' & Hd & Hd' & Hout)%pipeline_stages.
  assert (Hcols : columns d' = filter (λ c, c ≠ EDUCATION) (columns df)).
  { destruct (canonicalize_columns _ _ Hd') as (_ & _ & _ & E0).
    unfold clean in Hd.
    apply bind_Ok in Hd as (c1 & (_ & E1 & _)%cohort_filter_Ok & Hd).
    apply bind_Ok in Hd as (c2 & [_ E2]%activity_filter_columns & Hd).
    apply bind_Ok in Hd as (c3 & [E3 _]%institute_filter_Ok & Hd).
    apply normalize_course_text_Ok in Hd as [E4 _]. congruence. }
  set (cs := filter (λ c, c ≠ EDUCATION) (columns df)) in *.
  assert (Hcs : ∀ c, c ∈ cs → c ∈ columns df)
    by (intros c [_ ?]%list_elem_of_filter; done).
  unfold derive in Hout.
  apply bind_Ok in Hout as (d1 & [_ E1]%to_iso_columns & Hout).
  apply bind_Ok in Hout as (d2 & E2%add_semester_columns & Hout).
  apply bind_Ok in Hout as (d3 & E3%align_columns & Hout).
  apply bind_Ok in Hout as (d4 & E4%add_attempt_columns & Hout).
  apply sort_rows_key_columns in Hout as (_ & _ & Hend & ->).
  rewrite E1, Hcols in E2.
  rewrite bool_decide_eq_false_2 in E2 by (intros ?%Hcs; done).
  assert (Hend2 : SEMESTER_END ∉ columns d2).
  { rewrite E2, elem_of_app, list_elem_of_singleton.
    intros [?%Hcs|?]; done. }
  rewrite bool_decide_eq_false_2 in E3 by done.
  assert (Hatt : ∀ l, l = columns d2 ∨ l = columns d2 ++ [SEMESTER_END] →
                      ATTEMPT ∉ l).
  { intros l [->| ->]; rewrite E2.
    - rewrite elem_of_app, list_elem_of_singleton. intros [Hin%Hcs|Heq]; done.
    - rewrite !elem_of_app, !list_elem_of_singleton.
      intros [[Hin%Hcs|Heq]|Heq]; done. }
  rewrite bool_decide_eq_false_2 in E4 by (apply Hatt; destruct E3; auto).
  destruct E3 as [E3|E3].
  - rewrite E4, E3, elem_of_app, list_elem_of_singleton in Hend.
    destruct Hend as [?|?]; done.
  - rewrite E4, E3, E2, <-!app_assoc. done.
Qed.

Lemma pipeline_columns_witness :
  ∃ out,
    (SEMESTER ∉ columns cohort_table) ∧
    (SEMESTER_END ∉ columns cohort_table) ∧
    (ATTEMPT ∉ columns cohort_table) ∧
    pipeline cohort_table = Ok out ∧
    columns out
    = filter (λ c, c ≠ EDUCATION) (columns cohort_table)
      ++ [SEMESTER; SEMESTER_END; ATTEMPT].
Proof.
  set (out := returned cohort_table (pipeline cohort_table)).
  assert (H1 : SEMESTER ∉ columns cohort_table)
    by (apply (bool_decide_eq_true_1 (SEMESTER ∉ columns cohort_table));
        computed).
  assert (H2 : SEMESTER_END ∉ columns cohort_table)
    by (apply (bool_decide_eq_true_1 (SEMESTER_END ∉ columns cohort_table));
        computed).
  assert (H3 : ATTEMPT ∉ columns cohort_table)
    by (apply (bool_decide_eq_true_1 (ATTEMPT ∉ columns cohort_table));
        computed).
  assert (H4 : pipeline cohort_table = Ok out) by computed.
  exists out. split; [exact H1|]. split; [exact H2|]. split; [exact H3|].
  split; [exact H4|].
  exact (pipeline_columns cohort_table out H1 H2 H3 H4).
Defined.

(** X14: the run adds no record and passes the fields it does not write
    through unchanged: read on any columns other than the program, the
    course text, the course code, the grading date and the three added
    columns (so on the student, the grade, the grading scale, the credits,
    the exam form, the censor), the rows of the output are, as a multiset,
    among the rows of the input that belong to the target program; the
    output has at most as many rows as the input. *)
Theorem pipeline_passes_fields_through (df out : DataFrame) :
  pipeline df = Ok out →
  (∀ cols : list string,
     (∀ c, c ∈ cols →
           c ∉ [EDUCATION; COURSE_TEXT; COURSE_NUMBER; GRADING_DATE;
                SEMESTER; SEMESTER_END; ATTEMPT]) →
     group_key cols <$> rows out
     ⊆+ group_key cols
        <$> filter (λ r : Row, r !!! EDUCATION = Str PROGRAM) (rows df)) ∧
  (length (rows out) ≤ length (rows df))%nat.
Proof.
  intros H.
  assert (Himage : ∀ cols : list string,
    (∀ c, c ∈ cols →
          c ∉ [EDUCATION; COURSE_TEXT; COURSE_NUMBER; GRADING_DATE;
               SEMESTER; SEMESTER_END; ATTEMPT]) →
    group_key cols <$> rows out
    ⊆+ group_key cols
       <$> filter (λ r : Row, r !!! EDUCATION = Str PROGRAM) (rows df)).
  { intros cols Hcols. apply pipeline_image; [done| |].
    - intros r. unfold group_key. apply list_fmap_ext.
      intros i c Hc%list_elem_of_lookup_2.
      apply lookup_total_delete_ne. intros <-. apply (Hcols _ Hc). set_solver.
    - intros c' r v Hc'. unfold group_key. apply list_fmap_ext.
      intros i c Hc%list_elem_of_lookup_2.
      apply lookup_total_insert_ne. intros <-. apply (Hcols _ Hc). set_solver. }
  split; [done|].
  specialize (Himage [] ltac:(by intros c ?%elem_of_nil)).
  apply submseteq_length in Himage. rewrite !length_fmap in Himage.
  pose proof (length_filter (λ r : Row, r !!! EDUCATION = Str PROGRAM) (rows df)).
  lia.
Qed.

Lemma pipeline_passes_fields_through_witness :
  ∃ out,
    pipeline repeated_row_table = Ok out ∧
    (∀ cols : list string,
       (∀ c, c ∈ cols →
             c ∉ [EDUCATION; COURSE_TEXT; COURSE_NUMBER; GRADING_DATE;
                  SEMESTER; SEMESTER_END; ATTEMPT]) →
       group_key cols <$> rows out
       ⊆+ group_key cols
          <$> filter (λ r : Row, r !!! EDUCATION = Str PROGRAM)
                     (rows repeated_row_table)) ∧
    (length (rows out) ≤ length (rows repeated_row_table))%nat.
Proof.
  set (out := returned repeated_row_table (pipeline repeated_row_table)).
  assert (H : pipeline repeated_row_table = Ok out) by computed.
  exists out. split; [exact H|].
  exact (pipeline_passes_fields_through repeated_row_table out H).
Defined.



(** ** When the run completes *)

Module ReturnFacts.
Import Dates.

Lemma with_column_elem c c' df l :
  c ∈ columns df → c ∈ columns (with_column c' df l).
Proof.
  intros H. unfold with_column. simpl. case_bool_decide; [done|].
  apply elem_of_app. by left.
Qed.

Lemma with_column_new c df l : c ∈ columns (with_column c df l).
Proof.
  unfold with_column. simpl. case_bool_decide; [done|].
  apply elem_of_app. right. by apply list_elem_of_singleton.
Qed.

Lemma to_datetime_valid v d :
  to_datetime parse_iso v = Ok (Some d) → valid_date d = true.
Proof.
  destruct v as [|s|z]; simpl; try discriminate.
  case_bool_decide; [discriminate|].
  destruct (parse_iso s) as [d'|] eqn:E; [|discriminate]. intros [= ->].
  unfold parse_iso in E. repeat (case_match; try discriminate).
  repeat (apply bind_Some in E as (? & ? & E)).
  by apply checked_Some in E as [-> ?].
Qed.

(** June 1 and December 1 of a year in which [to_datetime] found a date. *)
Lemma Timestamp_returns d m :
  valid_date d = true → m = 6 ∨ m = 12 →
  Timestamp (year d) m 1 = Ok (mkDate (year d) m 1).
Proof.
  intros [Hy _]%valid_date_bounds Hm. unfold Timestamp.
  assert (calendar_date (mkDate (year d) m 1) = true) as ->; [|done].
  destruct Hm as [-> | ->]; unfold calendar_date, days_in_month; cbn;
    rewrite !andb_true_iff, !Z.leb_le; lia.
Qed.

Lemma dates_returned (g : list Row) :
  (∀ r, r ∈ g → has_date r) →
  ∃ ds,
    mapM (λ r : Row, to_datetime parse_iso (r !!! GRADING_DATE)) g
    = Ok (Some <$> ds) ∧
    length ds = length g ∧
    ∀ d, d ∈ ds → valid_date d = true.
Proof.
  induction g as [|r g IH]; intros Hall.
  - exists []. split; [done|]. split; [done|]. by intros d ?%elem_of_nil.
  - destruct (Hall r) as (dd & lbl & Hd & _); [set_solver|].
    destruct IH as (ds & Hds & Hlen & Hvs); [intros r' Hr'; apply Hall; set_solver|].
    exists (dd :: ds). rewrite mapM_cons, Hd.
    cbn [mbind result_bind]. rewrite Hds. split; [done|].
    split; [simpl; by rewrite Hlen|].
    intros d [->|Hin]%elem_of_cons; [by eapply to_datetime_valid|auto].
Qed.

(** The function of the aligner returns on a group of rows with dates. *)
Lemma set_semester_returns (g : list Row) :
  (∀ r, r ∈ g → has_date r) →
  ∃ g', set_semester_grading_dates g = Ok g'.
Proof.
  intros Hall. destruct g as [|first rest]; [by eexists|].
  destruct (dates_returned _ Hall) as (ds & Hds & Hlen & Hvs).
  unfold set_semester_grading_dates. rewrite Hds. cbn [mbind result_bind].
  destruct (Hall first) as (dd & lbl & _ & ->); [set_solver|].
  rewrite (mapM_fmap_Some id Some) by done.
  destruct ds as [|d0 ds]; [discriminate|].
  assert (Hv : valid_date d0 = true) by (apply Hvs; set_solver).
  destruct (contains "Spring" lbl);
    rewrite (Timestamp_returns d0) by auto; by eexists.
Qed.

Lemma labelled_has_date r : labelled_row r → has_date r.
Proof.
  intros (_ & dd & Hv & Hd & Hl). exists dd, (label dd).
  by rewrite Hd, (to_datetime_strftime _ Hv).
Qed.

(** The aligner returns when every row that has a student has a date. *)
Lemma align_total d2 :
  STUDY_NUMBER ∈ columns d2 → SEMESTER ∈ columns d2 →
  GRADING_DATE ∈ columns d2 →
  (∀ r, r ∈ rows d2 → r !!! STUDY_NUMBER ≠ NaN → has_date r) →
  ∃ d3, align d2 = Ok d3.
Proof.
  intros Hc1 Hc2 Hc3 Hall. unfold align.
  rewrite !require_in by done. cbn [mbind result_bind].
  case_bool_decide; [by eexists|].
  unfold groupby_apply.
  destruct (mapM_returns
    (λ k, set_semester_grading_dates (group semester_key k (rows d2)))
    (group_keys semester_key (rows d2))) as [groups ->].
  - intros k (r0 & _ & Hg & <-)%elem_of_group_keys.
    apply set_semester_returns.
    intros r [Hk Hr]%elem_of_group. apply Hall; [done|].
    intros Hnan. apply Hg. rewrite <-Hk.
    unfold group_key, semester_key. simpl. rewrite Hnan. set_solver.
  - by eexists.
Qed.

Lemma to_iso_returns d :
  GRADING_DATE ∈ columns d → (∀ r, r ∈ rows d → dated r) →
  ∃ d1, to_iso d = Ok d1.
Proof.
  intros Hc Hall. unfold to_iso. rewrite (require_in _ _ Hc).
  cbn [mbind result_bind].
  destruct (mapM_returns
    (λ r : Row, v ← iso_date (r !!! GRADING_DATE);
                mret (<[GRADING_DATE := v]> r)) (rows d)) as [l1 ->];
    [|by eexists].
  intros r (_ & s & dd & -> & Hp)%Hall.
  rewrite (iso_date_parsed _ _ Hp). by eexists.
Qed.

Lemma labelled_rows d d1 d2 r :
  to_iso d = Ok d1 → add_semester d1 = Ok d2 →
  (∀ r, r ∈ rows d → dated r) →
  r ∈ rows d2 → labelled_row r.
Proof.
  intros H1%to_iso_Ok H2%add_semester_Ok Hall [i Hi]%list_elem_of_lookup.
  destruct (Forall2_lookup_r _ _ _ _ _ H2 Hi) as (r1 & Hi1 & lbl & Hl & ->).
  destruct (Forall2_lookup_r _ _ _ _ _ H1 Hi1) as (r0 & Hi0 & v & Hv & ->).
  destruct (Hall r0) as (Hs & s & dd & Hd & Hp);
    [by eapply list_elem_of_lookup_2|].
  rewrite Hd, (iso_date_parsed _ _ Hp) in Hv. injection Hv as <-.
  pose proof (parse_dmy_valid _ _ Hp) as Hvalid.
  rewrite lookup_total_insert_eq, (get_semester_strftime _ Hvalid) in Hl.
  injection Hl as <-.
  split; [by rewrite !lookup_total_insert_ne by done|].
  exists dd. split; [done|].
  by rewrite lookup_total_insert_ne, !lookup_total_insert_eq.
Qed.

Lemma align_returns d2 :
  STUDY_NUMBER ∈ columns d2 → SEMESTER ∈ columns d2 →
  GRADING_DATE ∈ columns d2 →
  rows d2 ≠ [] → (∀ r, r ∈ rows d2 → labelled_row r) →
  ∃ d3, align d2 = Ok d3 ∧ SEMESTER_END ∈ columns d3 ∧
        ∀ c, c ∈ columns d2 → c ∈ columns d3.
Proof.
  intros Hc1 Hc2 Hc3 Hne Hall. unfold align.
  rewrite !require_in by done. cbn [mbind result_bind].
  rewrite bool_decide_eq_false_2.
  - unfold groupby_apply.
    destruct (mapM_returns
      (λ k, set_semester_grading_dates (group semester_key k (rows d2)))
      (group_keys semester_key (rows d2))) as [groups ->].
    { intros k _. apply set_semester_returns.
      intros r [_ Hr]%elem_of_group. by apply labelled_has_date, Hall. }
    cbn [mbind result_bind mret result_ret].
    eexists. split; [reflexivity|].
    split; [apply with_column_new|]. intros c. apply with_column_elem.
  - destruct (rows d2) as [|r l] eqn:E; [done|]. intros Hnil.
    assert (Hk : group_key semester_key r ∈ group_keys semester_key (r :: l)).
    { apply elem_of_group_keys. exists r. split; [set_solver|]. split; [|done].
      destruct (Hall r) as (Hs & dd & _ & _ & Hl); [set_solver|].
      unfold grouped, group_key, semester_key. simpl.
      rewrite !elem_of_cons, elem_of_nil, Hl. naive_solver. }
    rewrite Hnil in Hk. by apply elem_of_nil in Hk.
Qed.

(** The last five stages return on a table of rows they can process. *)
Lemma derive_returns d :
  STUDY_NUMBER ∈ columns d → COURSE_NUMBER ∈ columns d →
  GRADING_DATE ∈ columns d →
  rows d ≠ [] → (∀ r, r ∈ rows d → dated r) →
  ∃ out, derive d = Ok out.
Proof.
  intros Hc1 Hc2 Hc3 Hne Hall. unfold derive.
  destruct (to_iso_returns d Hc3 Hall) as [d1 H1]. rewrite H1.
  pose proof (to_iso_columns _ _ H1) as [_ Hcols1].
  destruct (add_semester_returns d d1 H1) as [d2 H2].
  cbn [mbind result_bind]. rewrite H2. cbn [mbind result_bind].
  pose proof (add_semester_columns _ _ H2) as Hcols2.
  assert (Hsub2 : ∀ c, c ∈ columns d → c ∈ columns d2).
  { intros c Hc. rewrite Hcols2, Hcols1. clear -Hc.
    case_bool_decide; [done|]. apply elem_of_app. by left. }
  assert (Hsem : SEMESTER ∈ columns d2).
  { rewrite Hcols2. clear. case_bool_decide; [done|].
    apply elem_of_app. right. by apply list_elem_of_singleton. }
  destruct (align_returns d2) as (d3 & H3 & Hend & Hsub3); auto.
  { apply to_iso_Ok, Forall2_length in H1.
    apply add_semester_Ok, Forall2_length in H2.
    destruct (rows d), (rows d2); simpl in *; try done; congruence. }
  { intros r. by apply (labelled_rows d d1 d2). }
  rewrite H3. cbn [mbind result_bind].
  unfold add_attempt. rewrite !require_in by auto.
  cbn [mbind result_bind mret result_ret].
  rewrite sort_rows_returns; [by eexists|apply with_column_elem; auto..].
Qed.

End ReturnFacts.

Import ReturnFacts.

(** ** The aligner on the table of the labeler *)

(** C5: the aligner returns on the table of the labeler when every row
    that has a student has a grading date, and then every row carries as
    semester end date June 1 of the year of its grading date when its label
    contains "Spring" and December 1 of that year otherwise; two rows of the
    same student with the same label carry the same end date; and every row
    of a student who is present is given one. *)
Theorem semester_end_constant (df1 df2 : DataFrame) :
  add_semester df1 = Ok df2 →
  STUDY_NUMBER ∈ columns df1 →
  (∀ r : Row, r ∈ rows df1 → r !!! STUDY_NUMBER ≠ NaN →
     Dates.to_datetime Dates.parse_iso (r !!! GRADING_DATE) ≠ Ok None) →
  ∃ df3 : DataFrame,
    align df2 = Ok df3 ∧
    (∀ r : Row, r ∈ rows df3 →
       ∃ (d : date) (lbl : string),
         Dates.to_datetime Dates.parse_iso (r !!! GRADING_DATE) = Ok (Some d) ∧
         get_semester (r !!! GRADING_DATE) = Ok lbl ∧
         r !!! SEMESTER = Str lbl ∧
         r !!! SEMESTER_END
         = Str (Dates.strftime
                  (mkDate (year d)
                          (if Text.contains "Spring" lbl then 6 else 12) 1))) ∧
    (∀ r r' : Row, r ∈ rows df3 → r' ∈ rows df3 →
       r !!! STUDY_NUMBER = r' !!! STUDY_NUMBER →
       r !!! SEMESTER = r' !!! SEMESTER →
       r !!! SEMESTER_END = r' !!! SEMESTER_END) ∧
    (∀ r2 : Row, r2 ∈ rows df2 → r2 !!! STUDY_NUMBER ≠ NaN →
       ∃ v : value, <[SEMESTER_END := v]> r2 ∈ rows df3).
Proof.
  intros Hs Hc Hdates.
  pose proof (add_semester_columns _ _ Hs) as Hcols.
  assert (Hdate : GRADING_DATE ∈ columns df1).
  { unfold add_semester in Hs. apply bind_Ok in Hs as (u & Hu & _).
    by apply require_Ok in Hu. }
  destruct (align_total df2) as [df3 Ha].
  - rewrite Hcols. clear -Hc. case_bool_decide; [done|].
    apply elem_of_app. by left.
  - rewrite Hcols. clear. case_bool_decide; [done|].
    apply elem_of_app. right. by apply list_elem_of_singleton.
  - rewrite Hcols. clear -Hdate. case_bool_decide; [done|].
    apply elem_of_app. by left.
  - intros r2 [i Hi]%list_elem_of_lookup Hstudent.
    destruct (Forall2_lookup_r _ _ _ _ _ (add_semester_Ok _ _ Hs) Hi)
      as (r1 & Hi1 & lbl & Hl & ->).
    rewrite lookup_total_insert_ne in Hstudent by done.
    apply list_elem_of_lookup_2 in Hi1.
    destruct (get_semester_Ok _ _ Hl) as ([d|] & Hd & _);
      [|by destruct (Hdates r1 Hi1 Hstudent)].
    exists d, lbl.
    by rewrite lookup_total_insert_ne, lookup_total_insert_eq.
  - exists df3. split; [exact Ha|]. exact (aligned_rows df1 df2 df3 Hs Ha).
Qed.

Lemma semester_end_constant_witness :
  ∃ df1 df2,
    add_semester df1 = Ok df2 ∧
    STUDY_NUMBER ∈ columns df1 ∧
    (∀ r : Row, r ∈ rows df1 → r !!! STUDY_NUMBER ≠ NaN →
       Dates.to_datetime Dates.parse_iso (r !!! GRADING_DATE) ≠ Ok None) ∧
    (align df2 ≫= λ d,
       mret (group_key [STUDY_NUMBER; SEMESTER; SEMESTER_END] <$> rows d))
    = Ok [[Str "s1"; Str "Fall 2022"; Str "2022-12-01"];
          [Str "s1"; Str "Fall 2022"; Str "2022-12-01"];
          [Str "s1"; Str "Spring 2022"; Str "2022-06-01"];
          [Str "s2"; Str "Fall 2023"; Str "2023-12-01"]] ∧
    ∃ df3 : DataFrame,
      align df2 = Ok df3 ∧
      (∀ r : Row, r ∈ rows df3 →
         ∃ (d : date) (lbl : string),
           Dates.to_datetime Dates.parse_iso (r !!! GRADING_DATE) = Ok (Some d) ∧
           get_semester (r !!! GRADING_DATE) = Ok lbl ∧
           r !!! SEMESTER = Str lbl ∧
           r !!! SEMESTER_END
           = Str (Dates.strftime
                    (mkDate (year d)
                            (if Text.contains "Spring" lbl then 6 else 12) 1))) ∧
      (∀ r r' : Row, r ∈ rows df3 → r' ∈ rows df3 →
         r !!! STUDY_NUMBER = r' !!! STUDY_NUMBER →
         r !!! SEMESTER = r' !!! SEMESTER →
         r !!! SEMESTER_END = r' !!! SEMESTER_END) ∧
      (∀ r2 : Row, r2 ∈ rows df2 → r2 !!! STUDY_NUMBER ≠ NaN →
         ∃ v : value, <[SEMESTER_END := v]> r2 ∈ rows df3).
Proof.
  set (df1 := returned same_semester_table (to_iso same_semester_table)).
  set (df2 := returned same_semester_table (add_semester df1)).
  assert (H1 : add_semester df1 = Ok df2) by computed.
  assert (H2 : STUDY_NUMBER ∈ columns df1)
    by (apply (bool_decide_eq_true_1 (STUDY_NUMBER ∈ columns df1)); computed).
  assert (H3 : ∀ r : Row, r ∈ rows df1 → r !!! STUDY_NUMBER ≠ NaN →
     Dates.to_datetime Dates.parse_iso (r !!! GRADING_DATE) ≠ Ok None).
  { assert (HF : Forall (λ r : Row, r !!! STUDY_NUMBER ≠ NaN →
                Dates.to_datetime Dates.parse_iso (r !!! GRADING_DATE)
                ≠ Ok None) (rows df1)).
    { apply (bool_decide_eq_true_1 (Forall _ (rows df1))). computed. }
    intros r Hr. exact (proj1 (Forall_forall _ _) HF r Hr). }
  exists df1, df2. split; [exact H1|]. split; [exact H2|].
  split; [exact H3|]. split; [computed|].
  exact (semester_end_constant df1 df2 H1 H2 H3).
Defined.

(** X16: the run completes on well-formed records.  When the filters and
    the text normalizer return a table that is not empty, in which every
    record has a course code and a grading date in day/month/year form, and
    the input has the credits, course code and grading date columns, the
    canonicalizer and the five stages after it return: the script reaches
    its last line with a table that is not empty and has at most as many
    rows as the filtered table. *)
Theorem run_completes (df d : DataFrame) :
  clean df = Ok d →
  ECTS ∈ columns df → COURSE_NUMBER ∈ columns df → GRADING_DATE ∈ columns df →
  rows d ≠ [] →
  (∀ r : Row, r ∈ rows d →
     r !!! COURSE_NUMBER ≠ NaN ∧
     ∃ (s : string) (dd : date),
       r !!! GRADING_DATE = Str s ∧ Dates.parse_dmy s = Some dd) →
  ∃ out : DataFrame,
    pipeline df = Ok out ∧
    (1 ≤ length (rows out) ≤ length (rows d))%nat.
Proof.
  intros Hclean Hc1 Hc2 Hc3 Hne Hall.
  destruct (clean_columns _ _ Hclean) as (Hcols & Hs & Ht).
  assert (Hin : ∀ c, c ≠ EDUCATION → c ∈ columns df → c ∈ columns d).
  { intros c Hc Hin. rewrite Hcols. by apply list_elem_of_filter. }
  assert (Hdated : ∀ r, r ∈ rows d → dated r).
  { intros r Hr. split; [|by apply Hall].
    destruct (clean_elem _ _ _ Hclean Hr) as (r0 & t & _ & _ & Hnan & _ & _ & ->).
    by rewrite lookup_total_insert_ne, lookup_total_delete_ne. }
  destruct (canonicalize_returns d) as [d' Hcanon]; [auto..| |].
  { intros k (r & Hr & _ & <-)%elem_of_group_keys.
    exists (r !!! COURSE_NUMBER). split; [|by apply Hall].
    apply elem_of_group_codes. by exists r. }
  destruct (canonicalize_columns _ _ Hcanon) as (_ & _ & _ & Hcols').
  assert (Hne' : rows d' ≠ []).
  { destruct (canonicalize_Ok _ _ Hcanon)
      as [[_ ->]|(_ & canonical & _ & _ & ->)]; [done|].
    apply unique_nonempty. by destruct (rows d). }
  assert (Hdated' : ∀ r, r ∈ rows d' → dated r).
  { intros r Hr.
    destruct (canonicalize_elem _ _ _ Hcanon Hr)
      as [[_ Hin']|(canonical & r0 & _ & Hin' & ->)]; [by apply Hdated|].
    destruct (Hdated r0 Hin') as (Hnan & s & dd & Hd & Hp).
    split; [by rewrite lookup_total_insert_ne|].
    exists s, dd. by rewrite lookup_total_insert_ne. }
  destruct (derive_returns d') as [out Hout]; [rewrite Hcols'; auto..|done|done|].
  exists out. split.
  - unfold pipeline. rewrite Hclean. cbn [mbind result_bind].
    rewrite Hcanon. exact Hout.
  - assert (Hlen : length (rows out) = length (rows d')).
    { pose proof (derive_image (λ _, ()) d' out Hout) as Hp.
      rewrite <-(length_fmap (λ _, ()) (rows out)),
              <-(length_fmap (λ _, ()) (rows d')).
      apply Permutation_length, Hp; [|done].
      intros r Hr. by destruct (Hdated' r Hr). }
    pose proof (canonicalize_image (λ _, ()) d d' Hcanon) as Hsub.
    apply sublist_length in Hsub; [|done]. rewrite !length_fmap in Hsub.
    destruct (rows d'); [done|]. simpl in *. lia.
Qed.

Lemma run_completes_witness :
  ∃ d,
    clean cohort_table = Ok d ∧
    ECTS ∈ columns cohort_table ∧
    COURSE_NUMBER ∈ columns cohort_table ∧
    GRADING_DATE ∈ columns cohort_table ∧
    rows d ≠ [] ∧
    (∀ r : Row, r ∈ rows d →
       r !!! COURSE_NUMBER ≠ NaN ∧
       ∃ (s : string) (dd : date),
         r !!! GRADING_DATE = Str s ∧ Dates.parse_dmy s = Some dd) ∧
    ∃ out : DataFrame,
      pipeline cohort_table = Ok out ∧
      (1 ≤ length (rows out) ≤ length (rows d))%nat.
Proof.
  set (d := returned cohort_table (clean cohort_table)).
  assert (H1 : clean cohort_table = Ok d) by computed.
  assert (H2 : ECTS ∈ columns cohort_table)
    by (apply (bool_decide_eq_true_1 (ECTS ∈ columns cohort_table)); computed).
  assert (H3 : COURSE_NUMBER ∈ columns cohort_table)
    by (apply (bool_decide_eq_true_1 (COURSE_NUMBER ∈ columns cohort_table));
        computed).
  assert (H4 : GRADING_DATE ∈ columns cohort_table)
    by (apply (bool_decide_eq_true_1 (GRADING_DATE ∈ columns cohort_table));
        computed).
  assert (H5 : rows d ≠ [])
    by (apply (bool_decide_eq_true_1 (rows d ≠ [])); computed).
  assert (H6 : ∀ r : Row, r ∈ rows d →
     r !!! COURSE_NUMBER ≠ NaN ∧
     ∃ (s : string) (dd : date),
       r !!! GRADING_DATE = Str s ∧ Dates.parse_dmy s = Some dd).
  { set (text := λ r : Row,
           match r !!! GRADING_DATE with Str s => s | _ => EmptyString end).
    set (read := λ r : Row, default (mkDate 0 0 0) (Dates.parse_dmy (text r))).
    assert (HF : Forall (λ r : Row,
        r !!! COURSE_NUMBER ≠ NaN ∧
        r !!! GRADING_DATE = Str (text r) ∧
        Dates.parse_dmy (text r) = Some (read r)) (rows d)).
    { apply (bool_decide_eq_true_1 (Forall _ (rows d))). computed. }
    intros r Hr. rewrite Forall_forall in HF.
    destruct (HF r Hr) as (Hc & Hs & Hp).
    split; [exact Hc|]. exists (text r), (read r).
    split; [exact Hs|exact Hp]. }
  exists d. split; [exact H1|]. split; [exact H2|]. split; [exact H3|].
  split; [exact H4|]. split; [exact H5|]. split; [exact H6|].
  exact (run_completes cohort_table d H1 H2 H3 H4 H5 H6).
Defined.

(** ** Sorting a sorted table *)

Module SortedFacts.

Lemma key_cmp_refl k : key_cmp k k = Eq.
Proof. induction k as [|a k IH]; simpl; [done|]. by rewrite value_cmp_refl. Qed.

Lemma key_cmp_eq k1 k2 : key_cmp k1 k2 = Eq → k1 = k2.
Proof.
  revert k2. induction k1 as [|a k1 IH]; intros [|b k2]; simpl; try done.
  destruct (value_cmp a b) eqn:E; try done.
  intros H. apply value_cmp_eq in E as ->. f_equal. by apply IH.
Qed.

Lemma key_cmp_antisym k1 k2 : key_cmp k2 k1 = CompOpp (key_cmp k1 k2).
Proof.
  revert k2. induction k1 as [|a k1 IH]; intros [|b k2]; simpl; try done.
  rewrite (value_cmp_antisym a b). destruct (value_cmp a b); simpl; auto.
Qed.

Lemma key_le_antisym cols (r1 r2 : Row) :
  key_le cols r1 r2 → key_le cols r2 r1 →
  group_key cols r1 = group_key cols r2.
Proof.
  unfold key_le, key_leb. intros H1 H2. apply key_cmp_eq.
  rewrite (key_cmp_antisym (group_key cols r1)) in H2.
  by destruct (key_cmp (group_key cols r1) (group_key cols r2)).
Qed.

(** Two orderings of the same rows that are both sorted and keep the rows
    of every key in the same order are the same list. *)
Lemma sorted_stable_unique cols (l1 l2 : list Row) :
  StronglySorted (key_le cols) l1 → StronglySorted (key_le cols) l2 →
  l1 ≡ₚ l2 →
  (∀ k, filter (λ r, group_key cols r = k) l1
        = filter (λ r, group_key cols r = k) l2) →
  l1 = l2.
Proof.
  intros H1. revert l2. induction H1 as [|x l1 Hs1 IH Hx]; intros l2 H2 Hp Hf.
  - by apply Permutation_nil_l in Hp.
  - destruct H2 as [|y l2 Hs2 Hy].
    { by apply Permutation_nil_r in Hp. }
    assert (Hxy : key_le cols y x).
    { assert (Hin : x ∈ y :: l2) by (rewrite <-Hp; set_solver).
      apply elem_of_cons in Hin as [->|Hin].
      - unfold key_le, key_leb. by rewrite key_cmp_refl.
      - rewrite Forall_forall in Hy. by apply Hy. }
    assert (Hyx : key_le cols x y).
    { assert (Hin : y ∈ x :: l1) by (rewrite Hp; set_solver).
      apply elem_of_cons in Hin as [->|Hin].
      - unfold key_le, key_leb. by rewrite key_cmp_refl.
      - rewrite Forall_forall in Hx. by apply Hx. }
    pose proof (key_le_antisym _ _ _ Hyx Hxy) as Hk.
    pose proof (Hf (group_key cols x)) as Hhead.
    rewrite !filter_cons, decide_True in Hhead by done.
    rewrite decide_True in Hhead by done.
    injection Hhead as -> Htail.
    f_equal. apply IH; [done| |].
    + by apply Permutation_cons_inv in Hp.
    + intros k. specialize (Hf k). rewrite !filter_cons in Hf.
      destruct (decide (group_key cols y = k)); [by injection Hf|done].
Qed.

End SortedFacts.

Import SortedFacts.

(** X17: the final sort changes nothing in a table that is already in
    order: it returns such a table as it is, and applied to its own result
    it returns that result. *)
Theorem sort_rows_idempotent (df out : DataFrame) :
  sort_rows df = Ok out →
  sort_rows out = Ok out ∧
  (StronglySorted (key_le [STUDY_NUMBER; COURSE_NUMBER; SEMESTER_END])
                  (rows df) →
   out = df).
Proof.
  intros H. pose proof (sort_rows_key_columns _ _ H) as (H1 & H2 & H3 & Hcols).
  pose proof (sort_rows_Ok _ _ H) as Hrows.
  assert (Hfix : ∀ l : list Row,
    StronglySorted (key_le sort_key) l → foldr sort_column l sort_key = l).
  { intros l Hl. apply (sorted_stable_unique sort_key); [|done| |].
    - apply sort_passes_sorted.
    - apply sort_passes_perm.
    - intros k. by apply (sort_passes_stable sort_key sort_key). }
  split.
  - rewrite sort_rows_returns by by rewrite Hcols.
    rewrite Hfix; [by destruct out|].
    rewrite Hrows. apply sort_passes_sorted.
  - intros Hs. rewrite (Hfix _ Hs) in Hrows.
    destruct out, df. simpl in *. by subst.
Qed.

Lemma sort_rows_idempotent_witness :
  ∃ df out,
    sort_rows df = Ok out ∧
    sort_rows out = Ok out ∧
    (StronglySorted (key_le [STUDY_NUMBER; COURSE_NUMBER; SEMESTER_END])
                    (rows df) →
     out = df).
Proof.
  set (df := returned retake_table
               (((to_iso retake_table ≫= add_semester) ≫= align)
                ≫= add_attempt)).
  set (out := returned retake_table (sort_rows df)).
  assert (H : sort_rows df = Ok out) by computed.
  exists df, out. split; [exact H|].
  exact (sort_rows_idempotent df out H).
Defined.
